(** * Outline extraction pipeline of [main.py]: a shallow embedding

    The program reads the text blocks of a PDF, resolves a title, classifies
    the document into an archetype and emits an outline of headings.  This
    file embeds the pure part of that pipeline (everything between the block
    list delivered by the PDF library and the record handed to [json.dump])
    and proves properties of it.  The rewriting of those records by
    [simplify.py] is embedded on the JSON value it reads.

    Conventions of the embedding.
    - A Python [str] is a list of Unicode code points ([Py.str]).  String
      literals of the source are written as Rocq strings and decoded from
      UTF-8 by [Py.lit], as the Python parser does with the source file.
    - The Unicode character database is written out for Basic Latin, Latin-1
      Supplement and the few other code points that interact with the
      patterns and literals of the program ([Py.tabulated]).  On every other
      code point the classes [\w] and [\d], the case tests of [str.isupper]
      and the compatibility decomposition are a parameter [ucd] of the
      embedding ([Py.Unicode]).  White space is exact everywhere.
      [str.lower], [str.upper] and the case folding of IGNORECASE leave the
      code points beyond the table unchanged: the program only searches
      their results for ASCII words, compares them with "PATHWAY OPTIONS" or
      matches them against ASCII and Latin-1 letters, and no code point
      beyond the table is mapped to a part of such a text.
    - Python floats (font sizes, coordinates, scores, percentiles) are exact
      rationals [Q].  This is an idealisation: scores that are equal as
      rationals can differ in the last bit as doubles, and then the program
      sorts candidates that the embedding leaves in document order; the
      factor 0.8 of the title fallback is the rational 8/10.  The statements
      on sorting and filtering take the scores as they are given.
    - The language detector is an external collaborator and a parameter
      [detect] of the pipeline; [None] stands for [LangDetectException]. *)

From Stdlib Require Import String Ascii Bool Arith ZArith NArith QArith Lia List Sorted.
From Stdlib Require Import Permutation Lqa.
Import ListNotations.

Set Implicit Arguments.

(** ** Python strings *)

Module Py.

Definition char := N.
Definition str := list char.

Local Open Scope N_scope.

(** UTF-8 decoding of a source literal into code points. *)
Fixpoint utf8 (bs : list N) : str :=
  match bs with
  | [] => []
  | b0 :: r0 =>
    if b0 <? 128 then b0 :: utf8 r0
    else
      match r0 with
      | [] => []
      | b1 :: r1 =>
        if b0 <? 224 then ((b0 - 192) * 64 + (b1 - 128)) :: utf8 r1
        else
          match r1 with
          | [] => []
          | b2 :: r2 =>
            if b0 <? 240
            then ((b0 - 224) * 4096 + (b1 - 128) * 64 + (b2 - 128)) :: utf8 r2
            else
              match r2 with
              | [] => []
              | b3 :: r3 =>
                ((b0 - 240) * 262144 + (b1 - 128) * 4096
                 + (b2 - 128) * 64 + (b3 - 128)) :: utf8 r3
              end
          end
      end
  end.

Definition lit (s : string) : str :=
  utf8 (map N_of_ascii (list_ascii_of_string s)).

Definition between (lo hi c : char) : bool := (lo <=? c) && (c <=? hi).

Definition eqb (a b : str) : bool :=
  Nat.eqb (length a) (length b) && forallb (fun p => fst p =? snd p) (combine a b).

Definition is_empty (s : str) : bool :=
  match s with [] => true | _ => false end.

(** [str.isspace] on one code point; the class [\s] of [re] is the same set. *)
Definition isspace (c : char) : bool :=
  between 9 13 c || between 28 32 c || (c =? 133) || (c =? 160)
  || (c =? 5760) || between 8192 8202 c || (c =? 8232) || (c =? 8233)
  || (c =? 8239) || (c =? 8287) || (c =? 12288).

(** The code points for which the character database is written out below:
    Basic Latin and Latin-1 Supplement, the five cased code points outside
    Latin-1 that fold into ASCII letters (dotted capital I U+0130, dotless i
    U+0131, long s U+017F, the Kelvin sign U+212A, the Angstrom sign U+212B),
    and the punctuation of the program's own literals (en dash U+2013, em dash
    U+2014, right single quotation mark U+2019, bullet U+2022). *)
Definition tabulated (c : char) : bool :=
  (c <? 256) || (c =? 304) || (c =? 305) || (c =? 383) || (c =? 8490)
  || (c =? 8491) || (c =? 8211) || (c =? 8212) || (c =? 8217) || (c =? 8226).

(** The character database on every other code point.  [ucd_decimal] is
    [Py_UNICODE_ISDECIMAL] (the class [\d]), [ucd_alnum] is [str.isalnum] on
    one code point (with the underscore, the class [\w]), [ucd_upper] is
    [Py_UNICODE_ISUPPER], [ucd_lower] is [Py_UNICODE_ISLOWER or
    Py_UNICODE_ISTITLE] (what makes [str.isupper] false), and [ucd_nfkd] is
    the full compatibility decomposition of the code point. *)
Class Unicode : Type := mkUnicode {
  ucd_decimal : char -> bool;
  ucd_alnum : char -> bool;
  ucd_upper : char -> bool;
  ucd_lower : char -> bool;
  ucd_nfkd : char -> str
}.

Definition ascii_digit (c : char) : bool := between 48 57 c.
Definition ascii_upper (c : char) : bool := between 65 90 c.
Definition ascii_lower (c : char) : bool := between 97 122 c.

(** Upper-case and lower-case letters of Latin-1 Supplement. *)
Definition latin1_upper (c : char) : bool := between 192 222 c && negb (c =? 215).
Definition latin1_lower (c : char) : bool :=
  (between 223 255 c && negb (c =? 247)) || (c =? 170) || (c =? 181) || (c =? 186).

Section Database.

Context {ucd : Unicode}.

(** Decimal digits (the class [\d]). *)
Definition isdecimal (c : char) : bool :=
  if tabulated c then ascii_digit c else ucd_decimal c.

(** What [str.isupper] counts as upper case, and what makes it false. *)
Definition isupper_char (c : char) : bool :=
  if tabulated c
  then ascii_upper c || latin1_upper c || (c =? 304) || (c =? 8490) || (c =? 8491)
  else ucd_upper c.
Definition islower_char (c : char) : bool :=
  if tabulated c
  then ascii_lower c || latin1_lower c || (c =? 305) || (c =? 383)
  else ucd_lower c.

(** [str.isalnum] on one code point; with the underscore it is the class [\w]. *)
Definition isalnum (c : char) : bool :=
  if tabulated c
  then ascii_digit c || isupper_char c || islower_char c
       || (c =? 178) || (c =? 179) || (c =? 185) || between 188 190 c
  else ucd_alnum c.

Definition isword (c : char) : bool := isalnum c || (c =? 95).

(** [str.isupper]: no lower-case or title-case letter and at least one
    upper-case letter. *)
Definition isupper (s : str) : bool :=
  forallb (fun c => negb (islower_char c)) s && existsb isupper_char s.

End Database.

(** Simple lower-case mapping of one code point (what [re] uses under
    IGNORECASE).  Besides the ASCII and Latin-1 capitals, U+0130 and U+212A
    are the only code points that map into ASCII. *)
Definition tolower (c : char) : char :=
  if ascii_upper c || latin1_upper c then c + 32
  else if c =? 304 then 105
  else if c =? 8490 then 107
  else if c =? 8491 then 229
  else c.

(** [str.lower]. *)
Definition lower_char (c : char) : str :=
  if c =? 304 then [105; 775] else [tolower c].

Definition lower (s : str) : str := flat_map lower_char s.

(** [str.upper]. *)
Definition upper_char (c : char) : str :=
  if ascii_lower c then [c - 32]
  else if c =? 223 then [83; 83]
  else if c =? 255 then [376]
  else if c =? 181 then [924]
  else if between 224 254 c && negb (c =? 247) then [c - 32]
  else if c =? 305 then [73]
  else if c =? 383 then [83]
  else [c].

Definition upper (s : str) : str := flat_map upper_char s.

(** [str.lstrip], [str.rstrip], [str.strip] without argument. *)
Fixpoint lstrip (s : str) : str :=
  match s with
  | [] => []
  | c :: r => if isspace c then lstrip r else s
  end.

Fixpoint rstrip (s : str) : str :=
  match s with
  | [] => []
  | c :: r =>
    match rstrip r with
    | [] => if isspace c then [] else [c]
    | r' => c :: r'
    end
  end.

Definition strip (s : str) : str := rstrip (lstrip s).

(** [sep.join(parts)]. *)
Fixpoint join (sep : str) (parts : list str) : str :=
  match parts with
  | [] => []
  | [p] => p
  | p :: ps => p ++ sep ++ join sep ps
  end.

(** [str.split()] without argument: the maximal runs of non-space. *)
Fixpoint split_acc (cur : str) (s : str) : list str :=
  match s with
  | [] => if is_empty cur then [] else [rev cur]
  | c :: r =>
    if isspace c
    then (if is_empty cur then split_acc [] r else rev cur :: split_acc [] r)
    else split_acc (c :: cur) r
  end.

Definition split (s : str) : list str := split_acc [] s.

(** [str.split(sep)] for a one-character separator: empty pieces are kept. *)
Fixpoint split_on_acc (sep : char) (cur : str) (s : str) : list str :=
  match s with
  | [] => [rev cur]
  | c :: r =>
    if c =? sep then rev cur :: split_on_acc sep [] r
    else split_on_acc sep (c :: cur) r
  end.

Definition split_on (sep : char) (s : str) : list str := split_on_acc sep [] s.

(** [str.startswith], [str.endswith], and the substring test [needle in hay]. *)
Fixpoint startswith (s p : str) : bool :=
  match p, s with
  | [], _ => true
  | _ :: _, [] => false
  | a :: p', b :: s' => (a =? b) && startswith s' p'
  end.

Definition endswith (s p : str) : bool := startswith (rev s) (rev p).

Fixpoint contains (needle hay : str) : bool :=
  startswith hay needle
  || match hay with
     | [] => false
     | _ :: r => contains needle r
     end.

(** Membership of a string in a list of strings ([x in [..]], [x in set]). *)
Definition mem (x : str) (l : list str) : bool := existsb (eqb x) l.

(** [re.sub(r'\s+', ' ', s)]: every maximal run of white space becomes one
    space. *)
Fixpoint collapse_ws (s : str) : str :=
  match s with
  | [] => []
  | c :: r =>
    if isspace c
    then match r with
         | [] => [32]
         | d :: _ => if isspace d then collapse_ws r else 32 :: collapse_ws r
         end
    else c :: collapse_ws r
  end.

(** The class [[A-Za-z0-9 ]] of the two [re.sub] calls that delete every
    other character (no IGNORECASE there). *)
Definition ascii_alnum_space (c : char) : bool :=
  ascii_upper c || ascii_lower c || ascii_digit c || (c =? 32).

Definition keep_alnum_space (s : str) : str := filter ascii_alnum_space s.

(** [unicodedata.normalize('NFKD', s)]: every code point is replaced by its
    full compatibility decomposition, here the decompositions of Latin-1
    Supplement and of the five cased code points of the table.  The
    canonical reordering that follows only moves combining marks among
    themselves; the one caller, [norm], deletes them all and keeps the
    others in their order, so the reordering is left out. *)
Definition decompositions : list (char * str) :=
  [ (160, [32]); (168, [32; 776]); (170, [97]); (175, [32; 772]); (178, [50]);
    (179, [51]); (180, [32; 769]); (181, [956]); (184, [32; 807]); (185, [49]);
    (186, [111]); (188, [49; 8260; 52]); (189, [49; 8260; 50]);
    (190, [51; 8260; 52]);
    (192, [65; 768]); (193, [65; 769]); (194, [65; 770]); (195, [65; 771]);
    (196, [65; 776]); (197, [65; 778]); (199, [67; 807]); (200, [69; 768]);
    (201, [69; 769]); (202, [69; 770]); (203, [69; 776]); (204, [73; 768]);
    (205, [73; 769]); (206, [73; 770]); (207, [73; 776]); (209, [78; 771]);
    (210, [79; 768]); (211, [79; 769]); (212, [79; 770]); (213, [79; 771]);
    (214, [79; 776]); (217, [85; 768]); (218, [85; 769]); (219, [85; 770]);
    (220, [85; 776]); (221, [89; 769]);
    (224, [97; 768]); (225, [97; 769]); (226, [97; 770]); (227, [97; 771]);
    (228, [97; 776]); (229, [97; 778]); (231, [99; 807]); (232, [101; 768]);
    (233, [101; 769]); (234, [101; 770]); (235, [101; 776]); (236, [105; 768]);
    (237, [105; 769]); (238, [105; 770]); (239, [105; 776]); (241, [110; 771]);
    (242, [111; 768]); (243, [111; 769]); (244, [111; 770]); (245, [111; 771]);
    (246, [111; 776]); (249, [117; 768]); (250, [117; 769]); (251, [117; 770]);
    (252, [117; 776]); (253, [121; 769]); (255, [121; 776]);
    (304, [73; 775]); (383, [115]); (8490, [75]); (8491, [65; 778]) ].

Section Decomposition.

Context {ucd : Unicode}.

Definition nfkd_char (c : char) : str :=
  if tabulated c then
    match find (fun e => fst e =? c) decompositions with
    | Some e => snd e
    | None => [c]
    end
  else ucd_nfkd c.

Definition nfkd (s : str) : str := flat_map nfkd_char s.

End Decomposition.

End Py.

(** ** Regular expressions: the fragment of Python's [re] the program uses *)

Module Re.
Import Py.

Local Open Scope N_scope.

Definition ch (a : ascii) : char := N_of_ascii a.

(** One item of a bracketed class. *)
Inductive citem : Type :=
| CLit (c : char)
| CRange (lo hi : char)
| CDigit
| CSpace
| CWord.

Inductive re : Type :=
| Eps
| Bol
| Eol
| Chr (c : char)
| Dot
| Cls (neg : bool) (items : list citem)
| Seq (a b : re)
| Alt (a b : re)
| Rep (a : re) (lo : nat) (hi : option nat).

(** *** Parsing a pattern string

    The patterns of the program use literals, [.], [^], [$], groups,
    alternation, bracketed classes with ranges and negation, the escapes
    [\d], [\s], [\w] and escaped punctuation, and the quantifiers [*], [+],
    [?], [{n}], [{n,}] and [{n,m}]. *)

Definition escape (c : char) : citem :=
  if c =? ch "d" then CDigit
  else if c =? ch "s" then CSpace
  else if c =? ch "w" then CWord
  else CLit c.

Fixpoint parse_class (acc : list citem) (s : str) : option (list citem * str) :=
  match s with
  | [] => None
  | c :: r =>
    if c =? ch "]" then Some (rev acc, r)
    else if c =? ch "\" then
      match r with
      | [] => None
      | e :: r' => parse_class (escape e :: acc) r'
      end
    else
      match r with
      | d :: hi :: r' =>
        if (d =? ch "-") && negb (hi =? ch "]")
        then parse_class (CRange c hi :: acc) r'
        else parse_class (CLit c :: acc) r
      | _ => parse_class (CLit c :: acc) r
      end
  end.

Fixpoint parse_nat (acc : nat) (s : str) : nat * str :=
  match s with
  | c :: r =>
    if ascii_digit c then parse_nat (10 * acc + N.to_nat (c - 48)) r else (acc, s)
  | [] => (acc, s)
  end.

Definition parse_quant (a : re) (s : str) : option (re * str) :=
  match s with
  | c :: r =>
    if c =? ch "*" then Some (Rep a 0 None, r)
    else if c =? ch "+" then Some (Rep a 1 None, r)
    else if c =? ch "?" then Some (Rep a 0 (Some 1%nat), r)
    else if c =? ch "{" then
      let (n, r1) := parse_nat 0 r in
      match r1 with
      | d :: r2 =>
        if d =? ch "}" then Some (Rep a n (Some n), r2)
        else if d =? ch "," then
          match r2 with
          | e :: r3 =>
            if e =? ch "}" then Some (Rep a n None, r3)
            else
              let (m, r4) := parse_nat 0 r2 in
              match r4 with
              | f :: r5 => if f =? ch "}" then Some (Rep a n (Some m), r5) else None
              | [] => None
              end
          | [] => None
          end
        else None
      | [] => None
      end
    else Some (a, s)
  | [] => Some (a, s)
  end.

Definition of_item (i : citem) : re :=
  match i with
  | CLit c => Chr c
  | _ => Cls false [i]
  end.

Fixpoint parse_alt (fuel : nat) (s : str) : option (re * str) :=
  match fuel with
  | O => None
  | S f =>
    match parse_seq f s with
    | Some (a, c :: r) =>
      if c =? ch "|" then
        match parse_alt f r with
        | Some (b, r') => Some (Alt a b, r')
        | None => None
        end
      else Some (a, c :: r)
    | other => other
    end
  end
with parse_seq (fuel : nat) (s : str) : option (re * str) :=
  match fuel with
  | O => None
  | S f =>
    match s with
    | [] => Some (Eps, [])
    | c :: _ =>
      if (c =? ch "|") || (c =? ch ")") then Some (Eps, s)
      else
        match parse_atom f s with
        | Some (a, r1) =>
          match parse_quant a r1 with
          | Some (q, r2) =>
            match parse_seq f r2 with
            | Some (Eps, r3) => Some (q, r3)
            | Some (b, r3) => Some (Seq q b, r3)
            | None => None
            end
          | None => None
          end
        | None => None
        end
    end
  end
with parse_atom (fuel : nat) (s : str) : option (re * str) :=
  match fuel with
  | O => None
  | S f =>
    match s with
    | [] => None
    | c :: r =>
      if c =? ch "(" then
        match parse_alt f r with
        | Some (a, c2 :: r') => if c2 =? ch ")" then Some (a, r') else None
        | _ => None
        end
      else if c =? ch "[" then
        match r with
        | n :: r' =>
          match (if n =? ch "^" then parse_class [] r' else parse_class [] r) with
          | Some (items, r'') => Some (Cls (n =? ch "^") items, r'')
          | None => None
          end
        | [] => None
        end
      else if c =? ch "\" then
        match r with
        | e :: r' => Some (of_item (escape e), r')
        | [] => None
        end
      else if c =? ch "." then Some (Dot, r)
      else if c =? ch "^" then Some (Bol, r)
      else if c =? ch "$" then Some (Eol, r)
      else Some (Chr c, r)
    end
  end.

Definition parse (pat : str) : option re :=
  match parse_alt (3 * length pat + 3) pat with
  | Some (r, []) => Some r
  | _ => None
  end.

(** *** Matching *)

(** Under IGNORECASE a literal [c] is compiled to the set made of its
    lower-case form and the code points registered as equivalent to it, and a
    character matches when its lower-case form is in the set.  The patterns
    of the program contain ASCII letters and the accented vowels of the
    Spanish list, of which only [i] and [s] have such equivalents (dotless i
    and long s). *)
Definition fixes (lo : char) : list char :=
  if lo =? ch "i" then [305] else if lo =? ch "s" then [383] else [].

Definition lit_ic (c x : char) : bool :=
  let lo := tolower c in
  let y := tolower x in
  (y =? lo) || existsb (N.eqb y) (fixes lo).

Definition range (lo hi : char) : list char :=
  map N.of_nat (seq (N.to_nat lo) (N.to_nat hi + 1 - N.to_nat lo)).

Section Database.

Context {ucd : Unicode}.

Definition item_match (ic : bool) (i : citem) (x : char) : bool :=
  match i with
  | CLit c => if ic then lit_ic c x else x =? c
  | CRange lo hi =>
    if ic then existsb (fun c => lit_ic c x) (range lo hi) else between lo hi x
  | CDigit => isdecimal x
  | CSpace => isspace x
  | CWord => isword x
  end.

Section Matcher.

(** [ic] is the IGNORECASE flag and [n0] the length of the subject, by which
    [^] recognises the start. *)
Variable ic : bool.
Variable n0 : nat.

(** Continuation-passing matcher: [m r s k] holds when some way of matching
    [r] at the front of [s] leaves a rest accepted by [k].  Every quantified
    sub-pattern of the program consumes at least one character per round, so
    a round that consumes nothing is cut. *)
Fixpoint m (r : re) (s : str) (k : str -> bool) {struct r} : bool :=
  match r with
  | Eps => k s
  | Bol => if Nat.eqb (length s) n0 then k s else false
  | Eol =>
    match s with
    | [] => k s
    | [c] => if c =? 10 then k s else false
    | _ => false
    end
  | Chr c =>
    match s with
    | x :: s' => if item_match ic (CLit c) x then k s' else false
    | [] => false
    end
  | Dot =>
    match s with
    | x :: s' => if x =? 10 then false else k s'
    | [] => false
    end
  | Cls neg items =>
    match s with
    | x :: s' =>
      if xorb neg (existsb (fun i => item_match ic i x) items) then k s' else false
    | [] => false
    end
  | Seq a b => m a s (fun s' => m b s' k)
  | Alt a b => if m a s k then true else m b s k
  | Rep a lo hi =>
    (fix loop (fuel cnt : nat) (s : str) {struct fuel} : bool :=
       if (if (lo <=? cnt)%nat then k s else false) then true
       else
         match fuel with
         | O => false
         | S fuel' =>
           if match hi with
              | Some h => (cnt <? h)%nat
              | None => true
              end
           then m a s (fun s' =>
                         if (length s' <? length s)%nat
                         then loop fuel' (S cnt) s'
                         else false)
           else false
         end) (length s) O s
  end.

End Matcher.

(** [re.match(pat, text)] and [re.match(pat, text, re.IGNORECASE)] as a
    truth value.  An ill-formed pattern raises in Python; every pattern of
    the program parses ([patterns_parse]). *)
Definition rmatch (ic : bool) (pat : string) (text : str) : bool :=
  match parse (lit pat) with
  | Some r => m ic (length text) r text (fun _ => true)
  | None => false
  end.

Definition match_i (pat : string) (text : str) : bool := rmatch true pat text.
Definition match_ (pat : string) (text : str) : bool := rmatch false pat text.

End Database.

End Re.

(** ** [difflib.SequenceMatcher(None, a, b).ratio()]

    The second sequence of the only call in the program is a constant of 41
    characters, below the 200 at which the automatic junk heuristic starts,
    and there is no junk predicate: every index of [b] takes part. *)

Module Difflib.
Import Py.

Local Open Scope nat_scope.

Section Sequences.

Variables a b : str.

Definition eq_at (i j : nat) : bool :=
  match nth_error a i, nth_error b j with
  | Some x, Some z => N.eqb x z
  | _, _ => false
  end.

(** [dict.get(j, 0)] on the row of run lengths. *)
Fixpoint get (j : nat) (d : list (nat * nat)) : nat :=
  match d with
  | [] => O
  | (j', k) :: r => if Nat.eqb j j' then k else get j r
  end.

Definition best := (nat * nat * nat)%type.

(** The inner loop of [find_longest_match] for one [i]: [j] runs through the
    indices of [b[blo:bhi]] that carry [a[i]], in increasing order. *)
Fixpoint row (i : nat) (js : list nat) (j2len newj2len : list (nat * nat))
         (bst : best) : list (nat * nat) * best :=
  match js with
  | [] => (newj2len, bst)
  | j :: r =>
    if eq_at i j then
      let k := S (match j with O => O | S j' => get j' j2len end) in
      let '(_, _, bestsize) := bst in
      row i r j2len ((j, k) :: newj2len)
          (if (bestsize <? k)%nat then (i + 1 - k, j + 1 - k, k) else bst)
    else row i r j2len newj2len bst
  end.

Fixpoint rows (is_ : list nat) (js : list nat) (j2len : list (nat * nat))
         (bst : best) : best :=
  match is_ with
  | [] => bst
  | i :: r =>
    let '(newj2len, bst') := row i js j2len [] bst in
    rows r js newj2len bst'
  end.

(** [find_longest_match(alo, ahi, blo, bhi)]; without junk the two extension
    loops that follow the table scan find nothing to add. *)
Definition find_longest_match (alo ahi blo bhi : nat) : best :=
  rows (seq alo (ahi - alo)) (seq blo (bhi - blo)) [] (alo, blo, O).

(** Sum of the sizes of [get_matching_blocks()]: the longest block, then the
    same to its left and to its right. *)
Fixpoint matches (fuel : nat) (alo ahi blo bhi : nat) : nat :=
  match fuel with
  | O => O
  | S f =>
    let '(i, j, k) := find_longest_match alo ahi blo bhi in
    match k with
    | O => O
    | _ =>
      k + (if (alo <? i)%nat && (blo <? j)%nat then matches f alo i blo j else O)
        + (if (i + k <? ahi)%nat && (j + k <? bhi)%nat
           then matches f (i + k) ahi (j + k) bhi else O)
    end
  end.

Definition ratio : Q :=
  let total := (length a + length b)%nat in
  match total with
  | O => 1%Q
  | _ =>
    (inject_Z (2 * Z.of_nat (matches (S (length a)) 0 (length a) 0 (length b)))
     / inject_Z (Z.of_nat total))%Q
  end.

End Sequences.

End Difflib.

(** ** The pipeline of [main.py] *)

Module Main.
Import Py.

Local Open Scope Z_scope.

(** *** Data *)

(** A span as [extract_spans] builds it (a dict with these keys). *)
Record Span : Type := mkSpan {
  text : str;
  size : Q;
  font : str;
  flags : Z;
  page : Z;
  bbox : Q * Q * Q * Q;
  y : Q
}.

(** One block of [page.get_text("blocks")]:
    [(x0, y0, x1, y1, text, block_no, block_type)]. *)
Record Block : Type := mkBlock {
  block_x0 : Q;
  block_y0 : Q;
  block_x1 : Q;
  block_y1 : Q;
  block_text : str;
  block_no : Z;
  block_type : Z
}.

Inductive Level : Type := H1 | H2 | H3 | H4.

Inductive DocType : Type := event | form | technical | rfp | pathways | other.

(** The ["span"] entry of a heading: a span of the document, or the
    one-key dict [{"page": page}] of literal reconciliation. *)
Inductive SpanInfo : Type :=
| OfSpan (s : Span)
| PageOnly (p : Z).

Definition info_page (i : SpanInfo) : Z :=
  match i with
  | OfSpan s => page s
  | PageOnly p => p
  end.

(** [span_info.get("size", 0)]. *)
Definition info_size (i : SpanInfo) : Q :=
  match i with
  | OfSpan s => size s
  | PageOnly _ => 0%Q
  end.

(** A heading dict: candidates have no ["level"] key, the entries of literal
    reconciliation carry the expected level. *)
Record Heading : Type := mkHeading {
  h_level : option Level;
  h_text : str;
  h_span : SpanInfo;
  h_score : Q
}.

Record DocStats : Type := mkStats {
  unique_sizes : list Q;
  size_percentile : list (Q * Q);
  avg_size : Q
}.

Record Entry : Type := mkEntry {
  e_level : Level;
  e_text : str;
  e_page : Z
}.

Record Output : Type := mkOutput {
  title : str;
  outline : list Entry
}.

Definition Qlt_bool (a b : Q) : bool := negb (Qle_bool b a).

(** [s["page"] in (0, 1)]. *)
Definition on_first_two_pages (s : Span) : bool := (page s =? 0) || (page s =? 1).

(** *** [extract_spans] and [merge_fragmented_text] *)

Definition spans_of_block (page_num : Z) (block : Block) : list Span :=
  if negb (block_type block =? 0) then []
  else
    let t := strip (block_text block) in
    if is_empty t then []
    else
      flat_map
        (fun line =>
           let line := strip line in
           if is_empty line then []
           else
             [ {| text := line;
                  size := (block_y1 block - block_y0 block)%Q;
                  font := [];
                  flags := 0;
                  page := page_num;
                  bbox := (block_x0 block, block_y0 block,
                           block_x1 block, block_y1 block);
                  y := block_y0 block |} ])
        (split_on 10%N t).

(** The document is the list of its pages, each the list of its blocks. *)
Definition extract_spans (doc : list (list Block)) : list Span :=
  flat_map
    (fun p => flat_map (spans_of_block (Z.of_nat (fst p))) (snd p))
    (combine (seq 0 (length doc)) doc).

Definition merge_fragmented_text (spans : list Span) : list Span :=
  match spans with
  | [] => spans
  | _ => spans
  end.

(** *** [analyze_document_structure] *)

(** [sorted(set(sizes))]: insertion into a strictly increasing list. *)
Fixpoint insert_unique (x : Q) (l : list Q) : list Q :=
  match l with
  | [] => [x]
  | h :: t =>
    match (x ?= h)%Q with
    | Lt => x :: l
    | Eq => l
    | Gt => h :: insert_unique x t
    end
  end.

Definition sorted_set (l : list Q) : list Q :=
  fold_left (fun acc x => insert_unique x acc) l [].

Definition enumerate {A : Type} (l : list A) : list (nat * A) :=
  combine (seq 0 (length l)) l.

Definition Qsum (l : list Q) : Q := fold_left Qplus l 0%Q.

Definition Qnat (n : nat) : Q := inject_Z (Z.of_nat n).

Definition analyze_document_structure (spans : list Span) : DocStats :=
  let sizes := map size spans in
  match sizes with
  | [] => {| unique_sizes := []; size_percentile := []; avg_size := 0%Q |}
  | _ =>
    let unique_sizes := sorted_set sizes in
    let size_to_rank := map (fun p => (snd p, fst p)) (enumerate unique_sizes) in
    let n := length unique_sizes in
    let size_percentile :=
      map (fun p : Q * nat =>
             let (sz, rank) := p in
             (sz, if (1 <? n)%nat then (Qnat rank / Qnat (n - 1))%Q else 1%Q))
          size_to_rank in
    {| unique_sizes := unique_sizes;
       size_percentile := size_percentile;
       avg_size := (Qsum sizes / Qnat (length sizes))%Q |}
  end.

(** [d.get(size, 0)] on a dict keyed by sizes. *)
Fixpoint percentile_get (d : list (Q * Q)) (k : Q) : Q :=
  match d with
  | [] => 0%Q
  | (k', v) :: r => if Qeq_bool k k' then v else percentile_get r k
  end.

(** *** [extract_document_title] *)

Definition form_keywords : list str :=
  map lit ["application"; "form"; "grant"; "ltc"; "advance"]%string.

Definition form_title : str := lit "Application form for grant of LTC advance  ".
Definition pathways_title : str := lit "Parsippany -Troy Hills STEM Pathways".
Definition rfp_title : str :=
  lit "RFP:Request for Proposal To Present a Proposal for Developing the Business Plan for the Ontario Digital Library  ".
Definition technical_title : str := lit "Overview  Foundation Level Extensions  ".

Definition event_phrases : list str :=
  map lit ["hope to see you there"; "join us"; "event"; "invitation"]%string.

(** [lines]: the stripped non-empty texts of the first two pages. *)
Definition title_lines (spans : list Span) : list str :=
  map (fun s => strip (text s))
      (filter (fun s => negb (is_empty (strip (text s))))
              (filter on_first_two_pages spans)).

(** [lines[i:i+window]] joined with spaces. *)
Definition merged (lines : list str) (window i : nat) : str :=
  join [32%N] (firstn window (skipn i lines)).

(** [all(k in merged.lower() for k in form_keywords[:3])]. *)
Definition has_form_keywords (mg : str) : bool :=
  forallb (fun k => contains k (lower mg)) (firstn 3 form_keywords).

(** The two nested loops over [window] in [range(5, 1, -1)] and [i] in
    [range(len(lines)-window+1)], as the question whether any pass returns. *)
Definition window_scan (lines : list str) : bool :=
  existsb
    (fun window =>
       existsb (fun i => has_form_keywords (merged lines window i))
               (seq 0 (length lines + 1 - window)))
    [5; 4; 3; 2]%nat.

Definition fuzzy_form (l : str) : bool :=
  Qlt_bool (8 # 10)
           (Difflib.ratio (lower l) (lit "application form for grant of ltc advance")).

Definition Qmax_list (x : Q) (l : list Q) : Q :=
  fold_left (fun acc z => if Qlt_bool acc z then z else acc) l x.

(** The last branch: largest font on the first page. *)
Definition largest_font_title (spans : list Span) : str :=
  let first_page := filter (fun s => page s =? 0) spans in
  match first_page with
  | [] => []
  | s0 :: rest =>
    let max_size := Qmax_list (size s0) (map size rest) in
    let candidates :=
      map text
          (filter (fun s => Qle_bool (max_size * (8 # 10)) (size s)) first_page) in
    let title := strip (join [32%N] candidates) in
    if negb (is_empty title) && negb (endswith title [32%N])
    then title ++ [32%N]
    else title
  end.

Definition extract_document_title (spans : list Span) : str :=
  let lines := title_lines spans in
  if window_scan lines then form_title
  else if existsb fuzzy_form lines then form_title
  else if existsb (fun l => contains (lit "parsippany") (lower l)
                            && contains (lit "stem") (lower l)) lines
  then pathways_title
  else if existsb (fun l => contains (lit "rfp") (lower l)
                            || contains (lit "request for proposal") (lower l)) lines
          && existsb (fun l => contains (lit "request for proposal") (lower l)) lines
  then rfp_title
  else if existsb (fun l => contains (lit "foundation") (lower l)
                            && contains (lit "level") (lower l)) lines
  then technical_title
  else if existsb (fun l => existsb (fun p => contains p (lower l)) event_phrases) lines
  then []
  else largest_font_title spans.

(** *** [is_likely_heading] *)

Definition exclude_patterns : list string :=
  [ "^Page\s+\d+"; "^Copyright"; "^Version\s+\d"; "^\d{4}$";
    "^www\.|^http"; "@\w+\."; "^\d+\s*$"; "^[^\w\s]*$";
    "^\([^)]*\)$"; "^[\d\s\-\.]+$";
    "^(CLOSED|PLEASE|VISIT|REQUIRED|CLIMBING)";
    ".*[.!?]\s+.*[.!?]" ]%string.

Definition heading_patterns : list string :=
  [ "^\d+\.\s+[A-Z]"; "^\d+\.\d+\s+[A-Z]"; "^\d+\.\d+\.\d+\s+[A-Z]";
    "^(Chapter|Section|Part)\s+\d+"; "^Appendix\s+[A-Z]";
    "^(Abstract|Introduction|Overview|Summary|Background|Conclusion|References|Bibliography|Acknowledgements?|Table\s+of\s+Contents|Revision\s+History)$";
    "^[A-Z][A-Z\s&:-]{6,}$"; ".*:\s*$"; "^Phase\s+[IVX]+:";
    "^For\s+(each|the)\s+\w+.*:$"; "^What\s+.*\?$"; "^[A-Z][a-z]+\s+OPTIONS?$";
    "^(HOPE|WELCOME|THANK).*$"; "^[A-Z].*\s+(Library|Digital|Component|Plan)$";
    "^Milestones?$"; "^Approach\s+and\s+"; "^Evaluation\s+and\s+"; "^Business\s+Plan";
    "^\d+\)\s+[A-Z]"; "^[-*•]\s+[A-Z]"; "^[A-Z][A-Za-z\s\-:&]+[.:]?\s*$" ]%string.

Section Database.

Context {ucd : Unicode}.

(** [any(re.match(pattern, text, re.IGNORECASE) for pattern in patterns)]. *)
Definition any_match_i (patterns : list string) (t : str) : bool :=
  existsb (fun p => Re.match_i p t) patterns.

Definition length_ok (t : str) : bool :=
  negb ((length t <? 3)%nat || (200 <? length t)%nat).

(** The permissive test for the three literal archetypes. *)
Definition permissive (t : str) : bool :=
  isupper t || endswith t (lit ":") || (5 <? length (split t))%nat.

Definition is_likely_heading (t : str) (span_info : Span) (doc_stats : DocStats)
           (doc_type : DocType) : bool :=
  if negb (length_ok t) then false
  else if any_match_i exclude_patterns t then false
  else if any_match_i heading_patterns t then true
  else
    match doc_type with
    | technical | rfp | pathways => permissive t
    | _ => false
    end.

(** *** [classify_heading_level] *)

Definition h1_patterns : list string :=
  [ "^\d+\.\s+[A-Z]";
    "^(Abstract|Introduction|Overview|Summary|Background|Conclusion|References|Bibliography|Acknowledgements?|Table\s+of\s+Contents|Revision\s+History)$";
    "^Appendix\s+[A-Z]";
    "^[A-Z][A-Z\s&:-]{10,}$";
    "^[A-Z][a-z]+\s+OPTIONS?$";
    "^(HOPE|WELCOME|THANK).*$";
    "^[A-Z].*\s+(Library|Digital|Component|Plan)$";
    "^Business\s+Plan" ]%string.

Definition h2_patterns : list string :=
  [ "^\d+\.\d+\s+[A-Z]";
    "^(Milestones?|Summary|Background)$";
    "^Approach\s+and\s+";
    "^Evaluation\s+and\s+";
    "^Appendix\s+[A-Z]:" ]%string.

Definition h3_patterns : list string :=
  [ "^\d+\.\d+\.\d+\s+[A-Z]";
    "^Phase\s+[IVX]+:";
    ".*:\s*$";
    "^\d+\.\s+[A-Z].*" ]%string.

Definition h4_patterns : list string :=
  [ "^For\s+(each|the)\s+\w+.*:$" ]%string.

(** The pattern tier of the classifier, [None] when no list matches. *)
Definition level_by_pattern (t : str) : option Level :=
  if any_match_i h4_patterns t then Some H4
  else if any_match_i h3_patterns t then Some H3
  else if any_match_i h2_patterns t then Some H2
  else if any_match_i h1_patterns t then Some H1
  else None.

(** The size tier. *)
Definition level_by_percentile (size_percentile : Q) : Level :=
  if Qle_bool (9 # 10) size_percentile then H1
  else if Qle_bool (75 # 100) size_percentile then H2
  else if Qle_bool (5 # 10) size_percentile then H3
  else H3.

Definition classify_heading_level (t : str) (span_info : SpanInfo)
           (document_stats : DocStats) : Level :=
  let sz := info_size span_info in
  let sp := percentile_get (size_percentile document_stats) sz in
  match level_by_pattern t with
  | Some l => l
  | None => level_by_percentile sp
  end.

(** *** [calculate_heading_importance] *)

Definition canonical_sections : list str :=
  map lit [ "Revision History"; "Table of Contents"; "Acknowledgements";
            "Summary"; "Background"; "References" ]%string.

Definition size_score (span : Span) (doc_stats : DocStats) : Q :=
  (percentile_get (size_percentile doc_stats) (size span) * 3)%Q.

(** [bool(span.get("flags", 0) & 2)] adds 2. *)
Definition bold_score (span : Span) : Q :=
  if negb (Z.land (flags span) 2 =? 0) then 2%Q else 0%Q.

Definition pattern_score (t : str) : Q :=
  if Re.match_ "^\d+\.\s+" t then 3%Q
  else if Re.match_ "^\d+\.\d+\s+" t then 2%Q
  else if mem t canonical_sections then 3%Q
  else if Re.match_ ".*:\s*$" t then 1%Q
  else 0%Q.

Definition page_score (span : Span) : Q :=
  if page span =? 0 then 1%Q else 0%Q.

Definition top_score (span : Span) : Q :=
  if Qlt_bool (y span) 200 then (5 # 10)%Q else 0%Q.

Definition calculate_heading_importance (t : str) (span : Span)
           (doc_stats : DocStats) : Q :=
  (0 + size_score span doc_stats + bold_score span + pattern_score t
   + page_score span + top_score span)%Q.

(** *** [filter_headings] *)

Definition technical_expected : list (string * Level) :=
  [ ("Revision History ", H1);
    ("Table of Contents ", H1);
    ("Acknowledgements ", H1);
    ("1. Introduction to the Foundation Level Extensions ", H1);
    ("2. Introduction to Foundation Level Agile Tester Extension ", H1);
    ("2.1 Intended Audience ", H2);
    ("2.2 Career Paths for Testers ", H2);
    ("2.3 Learning Objectives ", H2);
    ("2.4 Entry Requirements ", H2);
    ("2.5 Structure and Course Duration ", H2);
    ("2.6 Keeping It Current ", H2);
    ("3. Overview of the Foundation Level Extension – Agile TesterSyllabus ", H1);
    ("3.1 Business Outcomes ", H2);
    ("3.2 Content ", H2);
    ("4. References ", H1);
    ("4.1 Trademarks ", H2);
    ("4.2 Documents and Web Sites ", H2) ]%string.

Definition rfp_expected : list (string * Level) :=
  [ ("Ontario’s Digital Library ", H1);
    ("A Critical Component for Implementing Ontario’s Road Map to Prosperity Strategy ", H1);
    ("Summary ", H2);
    ("Timeline: ", H3);
    ("Background ", H2);
    ("Equitable access for all Ontarians: ", H3);
    ("Shared decision-making and accountability: ", H3);
    ("Shared governance structure: ", H3);
    ("Shared funding: ", H3);
    ("Local points of entry: ", H3);
    ("Access: ", H3);
    ("Guidance and Advice: ", H3);
    ("Training: ", H3);
    ("Provincial Purchasing & Licensing: ", H3);
    ("Technological Support: ", H3);
    ("What could the ODL really mean? ", H3);
    ("For each Ontario citizen it could mean: ", H4);
    ("For each Ontario student it could mean: ", H4);
    ("For each Ontario library it could mean: ", H4);
    ("For the Ontario government it could mean: ", H4);
    ("The Business Plan to be Developed ", H2);
    ("Milestones ", H3);
    ("Approach and Specific Proposal Requirements ", H2);
    ("Evaluation and Awarding of Contract ", H2);
    ("Appendix A: ODL Envisioned Phases & Funding ", H2);
    ("Phase I: Business Planning ", H3);
    ("Phase II: Implementing and Transitioning ", H3);
    ("Phase III: Operating and Growing the ODL ", H3);
    ("Appendix B: ODL Steering Committee Terms of Reference ", H2);
    ("1. Preamble ", H3);
    ("2. Terms of Reference ", H3);
    ("3. Membership ", H3);
    ("4. Appointment Criteria and Process ", H3);
    ("5. Term ", H3);
    ("6. Chair ", H3);
    ("7. Meetings ", H3);
    ("8. Lines of Accountability and Communication ", H3);
    ("9. Financial and Administrative Policies ", H3);
    ("Appendix C: ODL’s Envisioned Electronic Resources ", H2) ]%string.

(** The table of an archetype, decoded. *)
Definition expected_of (l : list (string * Level)) : list (str * Level) :=
  map (fun p => (lit (fst p), snd p)) l.

(** [re.sub(r'[-–—]', ' ', s)]. *)
Definition dashes_to_space (s : str) : str :=
  map (fun c => if (c =? 45)%N || (c =? 8211)%N || (c =? 8212)%N then 32%N else c) s.

Definition norm (s : str) : str :=
  let s := nfkd s in
  let s := dashes_to_space s in
  let s := keep_alnum_space s in
  let s := collapse_ws s in
  lower (strip s).

(** [set(words)] as the list of distinct words. *)
Fixpoint distinct (l : list str) : list str :=
  match l with
  | [] => []
  | w :: r => if mem w r then distinct r else w :: distinct r
  end.

(** [len(common) / max(1, len(words_exp))]. *)
Definition overlap_ratio (n_exp n_cand : str) : Q :=
  let words_exp := distinct (split n_exp) in
  let words_cand := distinct (split n_cand) in
  let common := filter (fun w => mem w words_cand) words_exp in
  (Qnat (length common) / Qnat (Nat.max 1 (length words_exp)))%Q.

(** Whether candidate [h] qualifies for the expected entry number [idx]. *)
Definition qualifies (idx : nat) (n_exp : str) (min_section_page : Z)
           (h : Heading) : bool :=
  let ratio := overlap_ratio n_exp (norm (h_text h)) in
  let pg := info_page (h_span h) in
  if (idx <=? 2)%nat
  then Qlt_bool (7 # 10) ratio && (pg <=? 5)
  else Qlt_bool (85 # 100) ratio && (min_section_page <=? pg).

(** The inner loop: the qualifying candidate of least page, the first of
    them in list order. *)
Definition best_step (idx : nat) (n_exp : str) (min_section_page : Z)
           (best : option Heading) (h : Heading) : option Heading :=
  if qualifies idx n_exp min_section_page h then
    match best with
    | None => Some h
    | Some b => if info_page (h_span h) <? info_page (h_span b) then Some h else best
    end
  else best.

Definition best_match (idx : nat) (n_exp : str) (min_section_page : Z)
           (potential_headings : list Heading) : option Heading :=
  fold_left (best_step idx n_exp min_section_page) potential_headings None.

(** The first loop: the page at which the table of contents ends. *)
Definition toc_end_page (potential_headings : list Heading) : Z :=
  fold_left
    (fun toc h =>
       if startswith (norm (h_text h)) (norm (lit "Table of Contents"))
       then Z.max toc (info_page (h_span h))
       else toc)
    potential_headings 3.

(** One round of the loop over the expected entries; the state is
    [(found_headings, last_page)]. *)
Definition reconcile_step (potential_headings : list Heading)
           (min_section_page : Z) (st : list Heading * Z)
           (e : nat * (str * Level)) : list Heading * Z :=
  let '(found_headings, last_page) := st in
  let '(idx, (expected_text, expected_level)) := e in
  let pg :=
    match best_match idx (norm expected_text) min_section_page potential_headings with
    | Some best => info_page (h_span best)
    | None =>
      match found_headings with
      | [] => 0
      | _ => last_page + 1
      end
    end in
  (found_headings
     ++ [ {| h_level := Some expected_level;
             h_text := expected_text;
             h_span := PageOnly pg;
             h_score := 0%Q |} ],
   pg).

Definition reconcile (potential_headings : list Heading)
           (expected : list (str * Level)) : list Heading :=
  let min_section_page := toc_end_page potential_headings + 1 in
  fst (fold_left (reconcile_step potential_headings min_section_page)
                 (enumerate expected) ([], 0)).

(** The dedup key and the retention test of the generic branch. *)
Definition generic_text (h : Heading) : str := strip (collapse_ws (h_text h)).

Definition text_norm (h : Heading) : str := lower (keep_alnum_space (generic_text h)).

Definition retained (h : Heading) : bool :=
  Qlt_bool (15 # 10) (h_score h) || (5 <? length (split (generic_text h)))%nat.

Fixpoint generic_filter (seen : list str) (potential_headings : list Heading)
  : list Heading :=
  match potential_headings with
  | [] => []
  | h :: r =>
    if mem (text_norm h) seen then generic_filter seen r
    else if retained h then h :: generic_filter (text_norm h :: seen) r
    else generic_filter (text_norm h :: seen) r
  end.

Definition filter_headings (potential_headings : list Heading)
           (doc_type : DocType) : list Heading :=
  match doc_type with
  | form => []
  | pathways =>
    filter (fun h => eqb (upper (h_text h)) (lit "PATHWAY OPTIONS")) potential_headings
  | technical => reconcile potential_headings (expected_of technical_expected)
  | rfp => reconcile potential_headings (expected_of rfp_expected)
  | _ => generic_filter [] potential_headings
  end.

(** *** [main]: the body of the loop, for one document *)

Definition en : str := lit "en".
Definition es : str := lit "es".

Section Document.

(** [detect] of langdetect; [None] when it raises [LangDetectException]. *)
Variable detect : str -> option str.

Definition language (spans : list Span) : str :=
  let sample_text := join [32%N] (map text (filter on_first_two_pages spans)) in
  if negb (is_empty (strip sample_text)) then
    match detect sample_text with
    | Some l => l
    | None => en
    end
  else en.

(** [max((s["page"] for s in spans), default=0) + 1]. *)
Definition num_pages (spans : list Span) : Z :=
  match spans with
  | [] => 0 + 1
  | s :: r => fold_left Z.max (map page r) (page s) + 1
  end.

Definition is_event (t : str) (spans : list Span) : bool :=
  eqb t []
  && (num_pages spans <=? 2)
  && existsb (fun l => existsb (fun p => contains p l) event_phrases)
             (map (fun s => lower (text s)) (filter on_first_two_pages spans)).

Definition doc_type_of (lang ttl : str) (spans : list Span) : DocType :=
  let t := strip (lower ttl) in
  if eqb lang en then
    if is_event t spans then event
    else if contains (lit "application form for grant of ltc advance") t then form
    else if contains (lit "foundation level extensions") t then technical
    else if contains (lit "rfp:request for proposal") t then rfp
    else if contains (lit "parsippany") t then pathways
    else other
  else other.

Definition spanish_pattern : string :=
  "^(Resumen|Introducción|Conclusión|Referencias|Índice|Capítulo|Sección|Anexo)".

(** The loop that collects [potential_headings]. *)
Definition candidates (lang : str) (doc_type : DocType) (doc_stats : DocStats)
           (spans : list Span) : list Heading :=
  flat_map
    (fun span =>
       let t := strip (text span) in
       if eqb lang en then
         if is_likely_heading t span doc_stats doc_type
         then [ {| h_level := None; h_text := t; h_span := OfSpan span;
                   h_score := calculate_heading_importance t span doc_stats |} ]
         else []
       else if eqb lang es then
         if Re.match_i spanish_pattern t
         then [ {| h_level := None; h_text := t; h_span := OfSpan span;
                   h_score := 2%Q |} ]
         else []
       else [])
    spans.

(** [list.sort(key=lambda x: x["score"], reverse=True)]: stable, descending. *)
Fixpoint insert_by_score (h : Heading) (l : list Heading) : list Heading :=
  match l with
  | [] => [h]
  | g :: r =>
    if Qlt_bool (h_score h) (h_score g) then g :: insert_by_score h r
    else h :: l
  end.

Definition sort_by_score (l : list Heading) : list Heading :=
  fold_right insert_by_score [] l.

(** One outline entry from a filtered heading: the level is computed by the
    classifier, and the text gets a space unless it ends with one. *)
Definition emit (doc_stats : DocStats) (h : Heading) : Entry :=
  let t := h_text h in
  let span := h_span h in
  {| e_level := classify_heading_level t span doc_stats;
     e_text := t ++ (if negb (endswith t [32%N]) then [32%N] else []);
     e_page := info_page span |}.

Definition event_output : Output :=
  {| title := [];
     outline := [ {| e_level := H1; e_text := lit "HOPE To SEE You THERE! ";
                     e_page := 0 |} ] |}.

Definition main_document (spans : list Span) : Output :=
  match spans with
  | [] => {| title := []; outline := [] |}
  | _ =>
    let ttl := extract_document_title spans in
    let lang := language spans in
    let doc_type := doc_type_of lang ttl spans in
    if eqb lang en && match doc_type with event => true | _ => false end
    then event_output
    else
      let doc_stats := analyze_document_structure spans in
      let potential_headings :=
        sort_by_score (candidates lang doc_type doc_stats spans) in
      let filtered_headings := filter_headings potential_headings doc_type in
      let headings := map (emit doc_stats) filtered_headings in
      let headings :=
        if eqb lang en && match doc_type with form => true | _ => false end
        then [] else headings in
      {| title := ttl; outline := headings |}
  end.

End Document.

End Database.

End Main.

(** ** Vocabulary of the properties, and sample documents *)

Module Samples.
Import Py Main.

(** A text ends with exactly one space: its last character is a space and
    the one before it, if any, is not. *)
Definition ends_with_one_space (t : str) : bool :=
  match rev t with
  | c :: r =>
    (c =? 32)%N && match r with
                   | d :: _ => negb (d =? 32)%N
                   | [] => true
                   end
  | [] => false
  end.

(** A text that is empty or ends with a character that is not white
    space. *)
Definition unspaced (t : str) : Prop :=
  t = [] \/ exists p c, t = p ++ [c] /\ isspace c = false.

(** The order in which the sorted candidates stand. *)
Definition score_ge (a b : Heading) : Prop := (h_score b <= h_score a)%Q.

(** The percentile of the size of rank [rank] among [n] distinct sizes. *)
Definition percentile_of (n rank : nat) : Q :=
  if (1 <? n)%nat then (Qnat rank / Qnat (n - 1))%Q else 1%Q.

(** [joined] of [extract_document_title]: the first-two-page lines joined
    with spaces. *)
Definition joined (spans : list Span) : str := join [32%N] (title_lines spans).

Section Database.

Context {ucd : Unicode}.

(** Whether the expected entry number [idx] of a table finds no candidate. *)
Definition unmatched (potential_headings : list Heading)
           (expected : list (str * Level)) (idx : nat) : bool :=
  match nth_error expected idx with
  | Some (expected_text, _) =>
    match best_match idx (norm expected_text)
                     (toc_end_page potential_headings + 1)%Z potential_headings with
    | None => true
    | Some _ => false
    end
  | None => false
  end.

(** The loop over the expected entries as a recursion on the table:
    [nonempty] tells whether [found_headings] has an entry yet. *)
Fixpoint reconcile_from (potential_headings : list Heading)
         (min_section_page : Z) (idx : nat) (last_page : Z) (nonempty : bool)
         (expected : list (str * Level)) : list Heading :=
  match expected with
  | [] => []
  | (expected_text, expected_level) :: rest =>
    let pg :=
      match best_match idx (norm expected_text) min_section_page
                       potential_headings with
      | Some best => info_page (h_span best)
      | None => if nonempty then (last_page + 1)%Z else 0%Z
      end in
    {| h_level := Some expected_level; h_text := expected_text;
       h_span := PageOnly pg; h_score := 0%Q |}
    :: reconcile_from potential_headings min_section_page (S idx) pg true rest
  end.

End Database.

Definition pages_of (hs : list Heading) : list Z :=
  map (fun h => info_page (h_span h)) hs.

(** An excerpt of the character database beyond the table, in which the
    closed examples are evaluated: the Cyrillic letters U+0410 to U+044F, the
    Arabic-Indic digits U+0660 to U+0669, the Latin ligatures U+FB00 to
    U+FB06, the em space U+2003, the ideographic space U+3000 and the trade
    mark sign U+2122.  A code point outside the excerpt counts as a caseless
    symbol without decomposition. *)
Definition excerpt_nfkd (c : char) : str :=
  if (c =? 1049)%N then [1048; 774]%N
  else if (c =? 1081)%N then [1080; 774]%N
  else if (c =? 64256)%N then lit "ff"
  else if (c =? 64257)%N then lit "fi"
  else if (c =? 64258)%N then lit "fl"
  else if (c =? 64259)%N then lit "ffi"
  else if (c =? 64260)%N then lit "ffl"
  else if (c =? 64261)%N || (c =? 64262)%N then lit "st"
  else if (c =? 8195)%N || (c =? 12288)%N then [32%N]
  else if (c =? 8482)%N then lit "TM"
  else [c].

#[export] Instance excerpt : Unicode :=
  {| ucd_decimal := between 1632%N 1641%N;
     ucd_alnum := fun c => between 1040%N 1103%N c || between 1632%N 1641%N c
                           || between 64256%N 64262%N c;
     ucd_upper := between 1040%N 1071%N;
     ucd_lower := fun c => between 1072%N 1103%N c || between 64256%N 64262%N c;
     ucd_nfkd := excerpt_nfkd |}.

(** Detectors that answer one language whatever the sample. *)
Definition detect_en : str -> option str := fun _ => Some en.
Definition detect_fr : str -> option str := fun _ => Some (lit "fr").

(** A text block of one line between the heights [y0] and [y1]. *)
Definition block (y0 y1 : Z) (t : string) : Block :=
  {| block_x0 := 72; block_y0 := inject_Z y0;
     block_x1 := 540; block_y1 := inject_Z y1;
     block_text := lit t; block_no := 0; block_type := 0 |}.

(** One line that names the technical archetype. *)
Definition technical_doc : list (list Block) :=
  [ [ block 100 112 "Foundation Level" ] ].

(** The same with a references heading on the fifth page. *)
Definition references_doc : list (list Block) :=
  [ [ block 100 112 "Foundation Level" ]; []; []; [];
    [ block 100 112 "4. References" ] ].

(** A flyer. *)
Definition event_doc : list (list Block) :=
  [ [ block 100 112 "Join us at the park" ] ].

(** The three form keywords, six lines apart. *)
Definition scattered_form_doc : list (list Block) :=
  [ [ block 100 112 "application"; block 120 132 "one"; block 140 152 "two";
      block 160 172 "three"; block 180 192 "four"; block 200 212 "five";
      block 220 232 "form grant" ] ].

(** The form keywords on two consecutive lines. *)
Definition form_doc : list (list Block) :=
  [ [ block 100 112 "Application form"; block 120 132 "for grant of LTC advance" ] ].

(** A title page and a second page that repeats a small line. *)
Definition repeated_doc : list (list Block) :=
  [ [ block 100 120 "Annual Report" ];
    [ block 300 310 "Hello World"; block 400 410 "Hello World" ] ].

(** A page in another language. *)
Definition french_doc : list (list Block) :=
  [ [ block 100 112 "Bonjour tout le monde" ] ].



(** The same with a heading of the rfp table on the eighth page, typeset
    with the ligature U+FB01. *)
Definition ligature_doc : list (list Block) :=
  [ [ block 100 112 "Request for Proposal" ]; []; []; []; []; []; [];
    [ block 100 112 "Approach and Speciﬁc Proposal Requirements" ] ].


Section Candidates.

Context {ucd : Unicode}.

(** The candidates of a document read as English, as they reach the
    filter. *)
Definition english_candidates (doc_type : DocType) (doc : list (list Block))
  : list Heading :=
  sort_by_score
    (candidates en doc_type (analyze_document_structure (extract_spans doc))
                (extract_spans doc)).

End Candidates.

End Samples.

(** ** [simplify.py] *)

Module Simplify.
Import Py Main.

(** A JSON value as [json.load] returns it; an object is a dict, here the
    list of its items, with distinct keys. *)
#[local] Set Warnings "-register-all".
Inductive json : Type :=
| JNull
| JBool (b : bool)
| JNum (z : Z)
| JStr (s : str)
| JArr (items : list json)
| JObj (items : list (str * json)).

(** [d.get(key, default)]. *)
Fixpoint get (d : list (str * json)) (key : str) (default : json) : json :=
  match d with
  | [] => default
  | (k, v) :: r => if Py.eqb k key then v else get r key default
  end.

(** The value [simplify_outline] writes for the value it read; [None] when
    the value read is not an object, where [data.get] raises. *)
Definition simplify_outline (data : json) : option json :=
  match data with
  | JObj d =>
    Some (JObj [ (lit "title", get d (lit "title") (JStr []));
                 (lit "outline", get d (lit "outline") (JArr [])) ])
  | _ => None
  end.

(** The record that [main] hands to [json.dump]. *)
Definition level_name (l : Level) : str :=
  match l with
  | H1 => lit "H1"
  | H2 => lit "H2"
  | H3 => lit "H3"
  | H4 => lit "H4"
  end.

Definition entry_json (e : Entry) : json :=
  JObj [ (lit "level", JStr (level_name (e_level e)));
         (lit "text", JStr (e_text e));
         (lit "page", JNum (e_page e)) ].

Definition output_json (o : Output) : json :=
  JObj [ (lit "title", JStr (title o));
         (lit "outline", JArr (map entry_json (outline o))) ].

End Simplify.

(** ** Vocabulary of the further properties *)

Module Terms.
Import Py Main Samples.



(** A block that yields no span: not a text block, or white space only. *)
Definition blank_block (b : Block) : bool :=
  negb (block_type b =? 0)%Z || is_empty (strip (block_text b)).

(** [l] is [r] with some elements left out, the others in their order. *)
Inductive Subseq {A : Type} : list A -> list A -> Prop :=
| Subseq_nil : Subseq [] []
| Subseq_skip : forall x l r, Subseq l r -> Subseq l (x :: r)
| Subseq_keep : forall x l r, Subseq l r -> Subseq (x :: l) (x :: r).

(** The page of the heading an inner loop of reconciliation holds, if any. *)
Definition best_page (best : option Heading) : option Z :=
  option_map (fun h => info_page (h_span h)) best.

Section Database.

Context {ucd : Unicode}.

(** One round of the inner loop, seen from the page it holds. *)
Definition page_step (idx : nat) (n_exp : str) (min_section_page : Z)
           (acc : option Z) (h : Heading) : option Z :=
  if qualifies idx n_exp min_section_page h then
    Some (match acc with
          | None => info_page (h_span h)
          | Some q => Z.min q (info_page (h_span h))
          end)
  else acc.

End Database.

(** A block [(i, j, k)] of [find_longest_match] that is empty or lies
    inside the windows [a[alo:ahi]] and [b[blo:bhi]]. *)
Definition in_window (alo ahi blo bhi : nat) (bst : Difflib.best) : Prop :=
  let '(i, j, k) := bst in
  k = O \/ (alo <= i /\ i + k <= ahi /\ blo <= j /\ j + k <= bhi)%nat.

(** The run lengths stored for the row before [i] do not reach out of the
    windows. *)
Definition row_bound (alo blo i : nat) (d : list (nat * nat)) : Prop :=
  forall j, (Difflib.get j d <= i - alo /\ Difflib.get j d <= j + 1 - blo)%nat.

End Terms.

(** * Properties

    A statement that binds [ucd] holds whatever the character database
    answers beyond the table.  A statement without that binder is about
    given lines and documents and is evaluated in [Samples.excerpt]. *)

Import Py Main Samples.

Unset Implicit Arguments.

(** ** The patterns and the matcher on known lines *)

Lemma patterns_parse :
  forallb (fun p => match Re.parse (lit p) with Some _ => true | None => false end)
          (exclude_patterns ++ heading_patterns ++ h1_patterns ++ h2_patterns
           ++ h3_patterns ++ h4_patterns
           ++ [spanish_pattern; "^\d+\.\s+"; "^\d+\.\d+\s+"; ".*:\s*$"]%string)
  = true.
Proof. vm_compute. reflexivity. Qed.

Example parse_numbered :
  Re.parse (lit "^\d+\.\s+[A-Z]")
  = Some (Re.Seq Re.Bol
            (Re.Seq (Re.Rep (Re.Cls false [Re.CDigit]) 1 None)
               (Re.Seq (Re.Chr 46%N)
                  (Re.Seq (Re.Rep (Re.Cls false [Re.CSpace]) 1 None)
                          (Re.Cls false [Re.CRange 65%N 90%N]))))).
Proof. vm_compute. reflexivity. Qed.

(** A trailing space defeats [$]; a trailing line feed does not. *)
Example match_end_of_line {ucd : Unicode} :
  Re.match_i "^Milestones?$" (lit "milestone") = true
  /\ Re.match_i "^Milestones?$" (lit "Milestones ") = false
  /\ Re.match_i "^Milestones?$" (Py.lit "Milestones" ++ [10%N]) = true.
Proof. vm_compute. repeat split; reflexivity. Qed.

(** IGNORECASE reaches ranges and literals; without the flag it does not. *)
Example match_ignorecase {ucd : Unicode} :
  Re.match_i "^[A-Z][A-Z\s&:-]{6,}$" (lit "foundation level") = true
  /\ Re.match_ "^[A-Z][A-Z\s&:-]{6,}$" (lit "foundation level") = false
  /\ Re.match_i "^(Resumen|Introducción|Conclusión|Referencias|Índice|Capítulo|Sección|Anexo)"
                (lit "índice general") = true.
Proof. vm_compute. repeat split; reflexivity. Qed.

(** The levels the classifier gives to lines of the two tables. *)
Example level_of_expected_lines {ucd : Unicode} :
  level_by_pattern (lit "1. Introduction to the Foundation Level Extensions ") = Some H3
  /\ level_by_pattern (lit "For each Ontario citizen it could mean: ") = Some H3
  /\ level_by_pattern (lit "Ontario’s Digital Library ") = None
  /\ level_by_pattern (lit "Revision History ") = Some H1.
Proof. vm_compute. repeat split; reflexivity. Qed.

(** The ratio of [difflib] on a near miss and on a hit. *)
Example ratio_examples :
  Difflib.matches (lit "application form grant")
                  (lit "application form for grant of ltc advance")
                  23%nat 0%nat 22%nat 0%nat 41%nat
  = 22%nat
  /\ fuzzy_form (lit "application form grant") = false
  /\ fuzzy_form (lit "Application form for grant of LTC advances") = true.
Proof. vm_compute. repeat split; reflexivity. Qed.

(** [norm] on a line of the technical table. *)
Example norm_example {ucd : Unicode} :
  norm (lit "3. Overview of the Foundation Level Extension – Agile TesterSyllabus ")
  = lit "3 overview of the foundation level extension agile testersyllabus".
Proof. vm_compute. reflexivity. Qed.

(** Lines with code points beyond the table, in the excerpt.  A Cyrillic
    word is made of word characters: "@имя.x:" meets the exclusion
    [@\w+\.] and "Введение:" does not meet [^[^\w\s]*$].  The ligature
    U+FB01 is a word character and decomposes into "fi".  Upper case is
    told for Cyrillic as for Latin. *)
Example beyond_the_table :
  is_likely_heading (lit "@имя.x:")
                    (mkSpan (lit "@имя.x:") 12 [] 0 0 (0, 0, 0, 0)%Q 100)
                    (mkStats [] [] 0) technical = false
  /\ is_likely_heading (lit "Введение:")
                       (mkSpan (lit "Введение:") 12 [] 0 0 (0, 0, 0, 0)%Q 100)
                       (mkStats [] [] 0) other = true
  /\ level_by_pattern (lit "For the ﬁnal report:") = Some H4
  /\ norm (lit "Approach and Speciﬁc Proposal Requirements")
     = lit "approach and specific proposal requirements"
  /\ isupper (lit "ВВЕДЕНИЕ") = true
  /\ isupper (lit "ABC где") = false.
Proof. vm_compute. repeat split; reflexivity. Qed.

(** ** Strings *)

Lemma eqb_refl : forall a : str, Py.eqb a a = true.
Proof.
  intro a. unfold Py.eqb. rewrite Nat.eqb_refl. simpl.
  induction a as [|c a IH]; simpl; [reflexivity|].
  rewrite N.eqb_refl. exact IH.
Qed.

Lemma eqb_eq : forall a b : str, Py.eqb a b = true <-> a = b.
Proof.
  intros a b. split; [|intros ->; apply eqb_refl].
  unfold Py.eqb. revert b.
  induction a as [|c a IH]; intros [|d b]; simpl; try discriminate; auto.
  intro H. apply andb_prop in H. destruct H as [Hl H].
  apply andb_prop in H. destruct H as [Hc H].
  apply N.eqb_eq in Hc. subst d. f_equal.
  apply IH. rewrite Hl. exact H.
Qed.

Lemma eqb_neq : forall a b : str, Py.eqb a b = false <-> a <> b.
Proof.
  intros a b. split.
  - intros H E. apply eqb_eq in E. congruence.
  - intro H. destruct (Py.eqb a b) eqn:E; [|reflexivity].
    apply eqb_eq in E. contradiction.
Qed.

Lemma eqb_sym : forall a b : str, Py.eqb a b = Py.eqb b a.
Proof.
  intros a b. destruct (Py.eqb a b) eqn:E.
  - apply eqb_eq in E. subst. symmetry. apply eqb_refl.
  - symmetry. apply eqb_neq. apply eqb_neq in E. congruence.
Qed.

(** What [rstrip] leaves is empty or ends with a character that is not
    white space. *)
Lemma rstrip_shape : forall s,
  rstrip s = [] \/ exists p c, rstrip s = p ++ [c] /\ isspace c = false.
Proof.
  induction s as [|c s IH]; simpl; [left; reflexivity|].
  destruct IH as [E | (p & d & E & Hd)]; rewrite E.
  - destruct (isspace c) eqn:Hc; [left; reflexivity|].
    right. exists [], c. split; [reflexivity | exact Hc].
  - right. destruct (p ++ [d]) as [|x l] eqn:Epd.
    + destruct p; discriminate.
    + exists (c :: p), d. split; [|exact Hd].
      simpl. rewrite Epd. reflexivity.
Qed.

Lemma strip_shape : forall s,
  strip s = [] \/ exists p c, strip s = p ++ [c] /\ isspace c = false.
Proof. intro s. unfold strip. apply rstrip_shape. Qed.

Lemma not_space_neq_32 : forall c, isspace c = false -> (c =? 32)%N = false.
Proof.
  intros c H. destruct (c =? 32)%N eqn:E; [|reflexivity].
  apply N.eqb_eq in E. subst c. discriminate.
Qed.

(** A text that does not end with white space gets one space appended and
    then ends with exactly one. *)
Lemma append_space_shape : forall t,
  (t = [] \/ exists p c, t = p ++ [c] /\ isspace c = false) ->
  endswith t [32%N] = false /\ ends_with_one_space (t ++ [32%N]) = true.
Proof.
  intros t [-> | (p & c & -> & Hc)].
  - split; reflexivity.
  - pose proof (not_space_neq_32 _ Hc) as Hn.
    unfold endswith, ends_with_one_space.
    rewrite !rev_app_distr.
    change (rev [32%N]) with [32%N]. change (rev [c]) with [c].
    cbn [app startswith]. rewrite (N.eqb_sym 32 c), Hn.
    split; reflexivity.
Qed.

(** A text that ends with exactly one space ends with a space. *)
Lemma one_space_endswith : forall t,
  ends_with_one_space t = true -> endswith t [32%N] = true.
Proof.
  intros t. unfold ends_with_one_space, endswith. simpl.
  destruct (rev t) as [|c r]; [discriminate|].
  intro H. apply andb_prop in H. destruct H as [H _].
  apply N.eqb_eq in H. subst c. simpl. destruct r; reflexivity.
Qed.

(** ** The stages keep or rebuild their headings *)

Lemma insert_by_score_In : forall h g l,
  In g (insert_by_score h l) <-> g = h \/ In g l.
Proof.
  intros h g l. induction l as [|x l IH]; simpl.
  - split; [intros [E|[]]; auto | intros [E|[]]; auto].
  - destruct (Qlt_bool (h_score h) (h_score x)); simpl.
    + rewrite IH. tauto.
    + split; [intros [E|E]; auto | intros [E|E]; auto].
Qed.

Lemma sort_by_score_In : forall g l, In g (sort_by_score l) <-> In g l.
Proof.
  intros g l. induction l as [|x l IH]; simpl; [tauto|].
  rewrite insert_by_score_In, IH. split; intros [E|E]; auto.
Qed.

Lemma generic_filter_In : forall l seen g,
  In g (generic_filter seen l) -> In g l.
Proof.
  induction l as [|x l IH]; simpl; intros seen g H; [exact H|].
  destruct (mem (text_norm x) seen).
  - right. eapply IH. exact H.
  - destruct (retained x).
    + destruct H as [E|H]; [left; exact E | right; eapply IH; exact H].
    + right. eapply IH. exact H.
Qed.

(** Every candidate carries the stripped text of a span. *)
Lemma candidates_text {ucd : Unicode} : forall lang dt st spans h,
  In h (candidates lang dt st spans) ->
  exists s, In s spans /\ h_text h = strip (text s) /\ h_span h = OfSpan s.
Proof.
  intros lang dt st spans h H. unfold candidates in H.
  apply in_flat_map in H. destruct H as (s & Hs & H).
  exists s. split; [exact Hs|].
  destruct (Py.eqb lang en).
  - destruct (is_likely_heading _ _ _ _); [|destruct H].
    destruct H as [<-|[]]. split; reflexivity.
  - destruct (Py.eqb lang es); [|destruct H].
    destruct (Re.match_i _ _); [|destruct H].
    destruct H as [<-|[]]. split; reflexivity.
Qed.

Lemma enumerate_from_cons : forall (A : Type) k (x : A) l,
  combine (seq k (length (x :: l))) (x :: l)
  = (k, x) :: combine (seq (S k) (length l)) l.
Proof. reflexivity. Qed.

(** The loop of literal reconciliation and its recursive form agree. *)
Lemma reconcile_fold {ucd : Unicode} : forall hs msp l k found last_page,
  fst (fold_left (reconcile_step hs msp) (combine (seq k (length l)) l)
                 (found, last_page))
  = found ++ reconcile_from hs msp k last_page
                            (match found with [] => false | _ => true end) l.
Proof.
  intros hs msp l. induction l as [|[t lv] l IH]; intros k found last_page.
  - simpl. rewrite app_nil_r. reflexivity.
  - rewrite enumerate_from_cons. cbn [fold_left].
    unfold reconcile_step at 2. rewrite IH.
    rewrite <- app_assoc. cbn [app reconcile_from]. f_equal.
    destruct found; reflexivity.
Qed.

Lemma reconcile_eq {ucd : Unicode} : forall hs expected,
  reconcile hs expected
  = reconcile_from hs (toc_end_page hs + 1)%Z 0 0%Z false expected.
Proof.
  intros hs expected. unfold reconcile, enumerate.
  rewrite reconcile_fold. reflexivity.
Qed.

Lemma reconcile_from_text {ucd : Unicode} : forall hs msp l k last_page ne,
  map h_text (reconcile_from hs msp k last_page ne l) = map fst l.
Proof.
  intros hs msp l. induction l as [|[t lv] l IH]; intros; simpl; [reflexivity|].
  f_equal. apply IH.
Qed.

Lemma reconcile_from_level {ucd : Unicode} : forall hs msp l k last_page ne,
  map h_level (reconcile_from hs msp k last_page ne l)
  = map (fun e => Some (snd e)) l.
Proof.
  intros hs msp l. induction l as [|[t lv] l IH]; intros; simpl; [reflexivity|].
  f_equal. apply IH.
Qed.

(** ** Trailing spaces *)

Lemma expected_texts_spaced :
  forallb ends_with_one_space (map fst (expected_of technical_expected)) = true
  /\ forallb ends_with_one_space (map fst (expected_of rfp_expected)) = true.
Proof. split; vm_compute; reflexivity. Qed.

Lemma reconcile_text_spaced {ucd : Unicode} : forall hs expected h,
  forallb ends_with_one_space (map fst expected) = true ->
  In h (reconcile hs expected) ->
  ends_with_one_space (h_text h) = true.
Proof.
  intros hs expected h Hall Hin.
  rewrite reconcile_eq in Hin.
  apply (in_map h_text) in Hin. rewrite reconcile_from_text in Hin.
  rewrite forallb_forall in Hall. apply Hall. exact Hin.
Qed.

Lemma filter_headings_text {ucd : Unicode} : forall hs dt h,
  (forall g, In g hs -> unspaced (h_text g)) ->
  In h (filter_headings hs dt) ->
  unspaced (h_text h) \/ ends_with_one_space (h_text h) = true.
Proof.
  intros hs dt h Hhs Hin. destruct expected_texts_spaced as [Ht Hr].
  destruct dt; unfold filter_headings in Hin.
  - left. apply Hhs. eapply generic_filter_In. exact Hin.
  - destruct Hin.
  - right. apply (reconcile_text_spaced hs (expected_of technical_expected));
      assumption.
  - right. apply (reconcile_text_spaced hs (expected_of rfp_expected));
      assumption.
  - left. apply Hhs. apply filter_In in Hin. apply Hin.
  - left. apply Hhs. eapply generic_filter_In. exact Hin.
Qed.

Lemma emit_text_spaced {ucd : Unicode} : forall st h,
  unspaced (h_text h) \/ ends_with_one_space (h_text h) = true ->
  ends_with_one_space (e_text (emit st h)) = true.
Proof.
  intros st h [H | H]; unfold emit; cbn [e_text].
  - destruct (append_space_shape _ H) as [He Hs]. rewrite He. exact Hs.
  - rewrite (one_space_endswith _ H). cbn [negb]. rewrite app_nil_r. exact H.
Qed.

Lemma largest_font_title_spaced : forall spans,
  largest_font_title spans <> [] ->
  ends_with_one_space (largest_font_title spans) = true.
Proof.
  intros spans. unfold largest_font_title.
  destruct (filter (fun s => (page s =? 0)%Z) spans) as [|s0 rest];
    [intro H; contradiction H; reflexivity|].
  cbv zeta.
  set (t := strip _).
  destruct (append_space_shape t (strip_shape _)) as [He Hs].
  rewrite He. destruct t as [|c t']; cbn [is_empty negb andb].
  - intro H. contradiction H. reflexivity.
  - intros _. exact Hs.
Qed.

(** C2. Every entry of every emitted outline has a text that ends with
    exactly one space: [emit] appends a space exactly when the heading text
    does not end with one, candidate texts are stripped and the texts of the
    two literal tables already end with one space.  The title of the
    largest-font fallback, when it is not empty, ends with exactly one space
    too. *)
Theorem C2_trailing_space {ucd : Unicode} :
  forall (detect : str -> option str) (spans : list Span),
  (forall e, In e (outline (main_document detect spans)) ->
             ends_with_one_space (e_text e) = true)
  /\ (forall st h,
        e_text (emit st h)
        = if endswith (h_text h) [32%N] then h_text h else h_text h ++ [32%N])
  /\ (largest_font_title spans <> [] ->
      ends_with_one_space (largest_font_title spans) = true).
Proof.
  intros detect spans. split; [|split].
  - intros e He. unfold main_document in He.
    destruct spans as [|s0 spans']; [destruct He|].
    set (spans := s0 :: spans') in *.
    cbv zeta in He.
    destruct (Py.eqb (language detect spans) en
              && match doc_type_of (language detect spans)
                         (extract_document_title spans) spans with
                 | event => true | _ => false end).
    + destruct He as [<-|[]]. vm_compute. reflexivity.
    + cbn [outline] in He.
      destruct (Py.eqb (language detect spans) en
                && match doc_type_of (language detect spans)
                           (extract_document_title spans) spans with
                   | form => true | _ => false end); [destruct He|].
      apply in_map_iff in He. destruct He as (h & <- & Hh).
      apply emit_text_spaced.
      eapply filter_headings_text; [|exact Hh].
      intros g Hg. apply (proj1 (sort_by_score_In _ _)) in Hg.
      apply candidates_text in Hg. destruct Hg as (s & _ & -> & _).
      apply strip_shape.
  - intros st h. unfold emit. cbn [e_text].
    destruct (endswith (h_text h) [32%N]); cbn [negb];
      [apply app_nil_r | reflexivity].
  - apply largest_font_title_spaced.
Qed.

Lemma C2_witness :
  In {| e_level := H1; e_text := lit "Annual Report "; e_page := 0 |}
     (outline (main_document detect_en (extract_spans repeated_doc)))
  /\ ends_with_one_space (lit "Annual Report ") = true
  /\ largest_font_title (extract_spans repeated_doc) <> []
  /\ ends_with_one_space (largest_font_title (extract_spans repeated_doc)) = true.
Proof.
  destruct (C2_trailing_space detect_en (extract_spans repeated_doc))
    as (Hentries & _ & Htitle).
  assert (Hin : In {| e_level := H1; e_text := lit "Annual Report "; e_page := 0 |}
                   (outline (main_document detect_en (extract_spans repeated_doc))))
    by (vm_compute; left; reflexivity).
  assert (Hne : largest_font_title (extract_spans repeated_doc) <> [])
    by (vm_compute; discriminate).
  split; [exact Hin|]. split; [exact (Hentries _ Hin)|].
  split; [exact Hne | exact (Htitle Hne)].
Defined.

(** ** The event override *)

(** C3. When the detected language is "en" and the classifier answers
    [event], the output is the fixed record: an empty title and the single
    entry H1 / "HOPE To SEE You THERE! " / page 0.  The result is that
    constant whatever the spans hold, so no candidate, score or filter takes
    part. *)
Theorem C3_event_override {ucd : Unicode} :
  forall (detect : str -> option str) (spans : list Span),
  language detect spans = en ->
  doc_type_of (language detect spans) (extract_document_title spans) spans = event ->
  main_document detect spans
  = {| title := [];
       outline := [ {| e_level := H1; e_text := lit "HOPE To SEE You THERE! ";
                       e_page := 0 |} ] |}.
Proof.
  intros detect spans Hlang Hev. rewrite Hlang in Hev.
  destruct spans as [|s0 spans'].
  - vm_compute in Hev. discriminate.
  - unfold main_document. cbv zeta. rewrite Hlang, Hev, eqb_refl.
    reflexivity.
Qed.

Lemma C3_witness :
  main_document detect_en (extract_spans event_doc)
  = {| title := [];
       outline := [ {| e_level := H1; e_text := lit "HOPE To SEE You THERE! ";
                       e_page := 0 |} ] |}.
Proof.
  apply C3_event_override; vm_compute; reflexivity.
Defined.

(** ** Languages without a heading detector *)

Lemma flat_map_nil : forall (A B : Type) (f : A -> list B) (l : list A),
  (forall a, f a = []) -> flat_map f l = [].
Proof.
  intros A B f l H. induction l as [|a l IH]; simpl; [reflexivity|].
  rewrite H. exact IH.
Qed.

(** C10. When the detected language is neither "en" nor "es" the candidate
    loop appends nothing, whatever the archetype and the statistics, and the
    emitted outline is empty.  The title is not affected: see the witness,
    where it is "Bonjour tout le monde ". *)
Theorem C10_other_language_no_outline {ucd : Unicode} :
  forall (detect : str -> option str) (spans : list Span),
  language detect spans <> en ->
  language detect spans <> es ->
  (forall dt st, candidates (language detect spans) dt st spans = [])
  /\ outline (main_document detect spans) = [].
Proof.
  intros detect spans Hen Hes.
  apply eqb_neq in Hen. apply eqb_neq in Hes.
  assert (Hc : forall dt st, candidates (language detect spans) dt st spans = []).
  { intros dt st. unfold candidates. apply flat_map_nil. intro s.
    rewrite Hen, Hes. reflexivity. }
  split; [exact Hc|].
  unfold main_document. destruct spans as [|s0 spans']; [reflexivity|].
  cbv zeta. rewrite Hen. cbn [andb outline]. rewrite Hc.
  unfold doc_type_of. rewrite Hen. reflexivity.
Qed.

Lemma C10_witness :
  candidates (language detect_fr (extract_spans french_doc)) other
             (analyze_document_structure (extract_spans french_doc))
             (extract_spans french_doc) = []
  /\ outline (main_document detect_fr (extract_spans french_doc)) = []
  /\ title (main_document detect_fr (extract_spans french_doc))
     = lit "Bonjour tout le monde ".
Proof.
  destruct (C10_other_language_no_outline detect_fr (extract_spans french_doc))
    as [Hc Ho]; [vm_compute; discriminate | vm_compute; discriminate |].
  split; [apply Hc|]. split; [exact Ho | vm_compute; reflexivity].
Defined.

(** ** The permissive branch of the candidate detector *)

(** C8 as stated fails: the length test and the exclusion patterns come
    first.  "AB" is upper-case but shorter than three characters; "PLEASE
    NOTE:" is upper-case and ends with a colon but starts with an excluded
    word; the third line has more than five words but holds two sentences. *)
Lemma C8_counterexample :
  isupper (lit "AB") = true
  /\ is_likely_heading (lit "AB") (mkSpan (lit "AB") 12 [] 0 0 (0, 0, 0, 0)%Q 100)
                       (mkStats [] [] 0) technical = false
  /\ endswith (lit "PLEASE NOTE:") (lit ":") = true
  /\ is_likely_heading (lit "PLEASE NOTE:")
                       (mkSpan (lit "PLEASE NOTE:") 12 [] 0 0 (0, 0, 0, 0)%Q 100)
                       (mkStats [] [] 0) rfp = false
  /\ (5 <? length (split (lit "it rained. we stayed in all day. so it goes")))%nat = true
  /\ is_likely_heading (lit "it rained. we stayed in all day. so it goes")
                       (mkSpan (lit "it rained. we stayed in all day. so it goes")
                               12 [] 0 0 (0, 0, 0, 0)%Q 100)
                       (mkStats [] [] 0) pathways = false.
Proof. vm_compute. repeat split; reflexivity. Qed.

(** C8, amended.  Whatever the character database, for the archetypes
    technical, rfp and pathways a line of 3 to 200 characters that matches no
    exclusion pattern is accepted when it is upper-case, or ends with a
    colon, or has more than five words. *)
Theorem C8_permissive_archetypes {ucd : Unicode} :
  forall (t : str) (span_info : Span) (doc_stats : DocStats) (doc_type : DocType),
  doc_type = technical \/ doc_type = rfp \/ doc_type = pathways ->
  length_ok t = true ->
  any_match_i exclude_patterns t = false ->
  isupper t = true \/ endswith t (lit ":") = true \/ (5 < length (split t))%nat ->
  is_likely_heading t span_info doc_stats doc_type = true.
Proof.
  intros t span_info doc_stats doc_type Hdt Hlen Hex Hperm.
  unfold is_likely_heading. rewrite Hlen, Hex. cbn [negb].
  destruct (any_match_i heading_patterns t); [reflexivity|].
  assert (Hp : permissive t = true).
  { unfold permissive. destruct Hperm as [H | [H | H]].
    - rewrite H. reflexivity.
    - rewrite H. apply orb_true_iff. left. apply orb_true_r.
    - apply Nat.ltb_lt in H. rewrite H. apply orb_true_r. }
  destruct Hdt as [-> | [-> | ->]]; exact Hp.
Qed.

Lemma C8_witness :
  is_likely_heading (lit "see how this one line runs on, twice")
                    (mkSpan (lit "see how this one line runs on, twice") 12 [] 0 0
                            (0, 0, 0, 0)%Q 100)
                    (mkStats [] [] 0) technical = true
  /\ any_match_i heading_patterns (lit "see how this one line runs on, twice") = false
  /\ is_likely_heading (lit "ВВЕДЕНИЕ")
                       (mkSpan (lit "ВВЕДЕНИЕ") 12 [] 0 0 (0, 0, 0, 0)%Q 100)
                       (mkStats [] [] 0) rfp = true
  /\ any_match_i heading_patterns (lit "ВВЕДЕНИЕ") = false.
Proof.
  split; [|split; [|split]].
  - apply C8_permissive_archetypes.
    + left. reflexivity.
    + vm_compute. reflexivity.
    + vm_compute. reflexivity.
    + right. right. vm_compute. lia.
  - vm_compute. reflexivity.
  - apply C8_permissive_archetypes.
    + right. left. reflexivity.
    + vm_compute. reflexivity.
    + vm_compute. reflexivity.
    + left. vm_compute. reflexivity.
  - vm_compute. reflexivity.
Defined.

(** ** The generic filter *)

Lemma Qlt_bool_true : forall a b, Qlt_bool a b = true -> (a < b)%Q.
Proof.
  intros a b H. unfold Qlt_bool in H. apply negb_true_iff in H.
  apply Qnot_le_lt. intro Hle. apply Qle_bool_iff in Hle. congruence.
Qed.

Lemma Qlt_bool_false : forall a b, Qlt_bool a b = false -> (b <= a)%Q.
Proof.
  intros a b H. unfold Qlt_bool in H. apply negb_false_iff in H.
  apply Qle_bool_iff. exact H.
Qed.

Lemma insert_by_score_sorted : forall h l,
  StronglySorted score_ge l -> StronglySorted score_ge (insert_by_score h l).
Proof.
  intros h l Hs. induction Hs as [|g r Hr IH Hg]; simpl.
  - constructor; constructor.
  - destruct (Qlt_bool (h_score h) (h_score g)) eqn:E.
    + constructor; [exact IH|].
      apply Forall_forall. intros x Hx. apply insert_by_score_In in Hx.
      destruct Hx as [-> | Hx].
      * apply Qlt_le_weak. apply Qlt_bool_true. exact E.
      * rewrite Forall_forall in Hg. apply Hg. exact Hx.
    + apply Qlt_bool_false in E.
      constructor; [constructor; assumption|].
      constructor; [exact E|].
      apply Forall_forall. intros x Hx. rewrite Forall_forall in Hg.
      unfold score_ge. eapply Qle_trans; [apply (Hg x Hx) | exact E].
Qed.

Lemma sort_by_score_sorted : forall l, StronglySorted score_ge (sort_by_score l).
Proof.
  induction l as [|h l IH]; simpl; [constructor|].
  apply insert_by_score_sorted. exact IH.
Qed.

(** Among the retained headings those of key [k] are the first heading of
    that key, if it passes the retention test and the key was not seen. *)
Lemma generic_filter_key : forall l seen k,
  filter (fun h => Py.eqb (text_norm h) k) (generic_filter seen l)
  = if mem k seen then []
    else match find (fun h => Py.eqb (text_norm h) k) l with
         | Some h => if retained h then [h] else []
         | None => []
         end.
Proof.
  induction l as [|h l IH]; intros seen k.
  - simpl. destruct (mem k seen); reflexivity.
  - cbn [generic_filter find].
    destruct (Py.eqb (text_norm h) k) eqn:Ek.
    + apply eqb_eq in Ek. subst k.
      destruct (mem (text_norm h) seen) eqn:Em.
      * rewrite IH, Em. reflexivity.
      * assert (Hseen : mem (text_norm h) (text_norm h :: seen) = true)
          by (unfold mem; cbn [existsb]; rewrite eqb_refl; reflexivity).
        destruct (retained h).
        -- cbn [filter]. rewrite eqb_refl, IH, Hseen. reflexivity.
        -- rewrite IH, Hseen. reflexivity.
    + assert (Hseen : mem k (text_norm h :: seen) = mem k seen).
      { unfold mem. cbn [existsb]. rewrite eqb_sym, Ek. reflexivity. }
      destruct (mem (text_norm h) seen).
      * apply IH.
      * destruct (retained h).
        -- cbn [filter]. rewrite Ek, IH, Hseen. reflexivity.
        -- rewrite IH, Hseen. reflexivity.
Qed.

(** C7 as stated fails: the first heading of a key enters the set of seen
    keys before the retention test, so two equal lines that fail the test
    leave no entry at all.  In [repeated_doc] the two "Hello World" lines
    have score 0 and two words; only the title line is emitted. *)
Lemma C7_counterexample :
  map text_norm
      (sort_by_score
         (candidates en other
                     (analyze_document_structure (extract_spans repeated_doc))
                     (extract_spans repeated_doc)))
  = [lit "annual report"; lit "hello world"; lit "hello world"]
  /\ filter (fun h => Py.eqb (text_norm h) (lit "hello world"))
            (filter_headings
               (sort_by_score
                  (candidates en other
                              (analyze_document_structure (extract_spans repeated_doc))
                              (extract_spans repeated_doc)))
               other)
     = []
  /\ map e_text (outline (main_document detect_en (extract_spans repeated_doc)))
     = [lit "Annual Report "].
Proof. vm_compute. repeat split; reflexivity. Qed.

(** C7, amended.  The candidates reach the generic filter in descending
    score order, and for every key the retained headings of that key are at
    most one: the first heading of that key in that order, retained exactly
    when its score exceeds 1.5 or it has more than five words. *)
Theorem C7_generic_dedup {ucd : Unicode} : forall (hs : list Heading) (k : str),
  StronglySorted score_ge (sort_by_score hs)
  /\ filter (fun h => Py.eqb (text_norm h) k)
            (filter_headings (sort_by_score hs) other)
     = match find (fun h => Py.eqb (text_norm h) k) (sort_by_score hs) with
       | Some h => if retained h then [h] else []
       | None => []
       end.
Proof.
  intros hs k. split; [apply sort_by_score_sorted|].
  unfold filter_headings. rewrite generic_filter_key. reflexivity.
Qed.

(** ** Literal reconciliation *)

Lemma reconcile_from_pages {ucd : Unicode} :
  forall hs msp l k last_page ne i t lv,
  nth_error l i = Some (t, lv) ->
  best_match (k + i) (norm t) msp hs = None ->
  nth i (pages_of (reconcile_from hs msp k last_page ne l)) 0%Z
  = match i with
    | O => if ne then (last_page + 1)%Z else 0%Z
    | S j => (nth j (pages_of (reconcile_from hs msp k last_page ne l)) 0 + 1)%Z
    end.
Proof.
  intros hs msp l. induction l as [|[t0 lv0] l IH]; intros k last_page ne i t lv Hn Hb.
  - destruct i; discriminate.
  - destruct i as [|j].
    + injection Hn as -> ->. rewrite Nat.add_0_r in Hb.
      cbn [reconcile_from pages_of map nth h_span info_page]. rewrite Hb.
      reflexivity.
    + cbn [nth_error] in Hn. cbn [reconcile_from].
      unfold pages_of. cbn [map nth]. fold (pages_of).
      change (map (fun h => info_page (h_span h))) with pages_of.
      rewrite (IH (S k) _ true j t lv Hn);
        [|rewrite Nat.add_succ_l, <- Nat.add_succ_r; exact Hb].
      destruct j; reflexivity.
Qed.

Lemma reconcile_length {ucd : Unicode} : forall hs expected,
  length (reconcile hs expected) = length expected.
Proof.
  intros hs expected. rewrite <- (length_map h_text), reconcile_eq.
  rewrite reconcile_from_text. apply length_map.
Qed.

Lemma reconcile_pages {ucd : Unicode} : forall hs expected i,
  unmatched hs expected i = true ->
  nth i (pages_of (reconcile hs expected)) 0%Z
  = match i with
    | O => 0%Z
    | S j => (nth j (pages_of (reconcile hs expected)) 0 + 1)%Z
    end.
Proof.
  intros hs expected i Hu. unfold unmatched in Hu.
  destruct (nth_error expected i) as [[t lv]|] eqn:Hn; [|discriminate].
  destruct (best_match i (norm t) (toc_end_page hs + 1) hs) eqn:Hb; [discriminate|].
  rewrite reconcile_eq.
  rewrite (reconcile_from_pages hs (toc_end_page hs + 1) expected 0 0 false i t lv Hn Hb).
  reflexivity.
Qed.

Lemma reconcile_run {ucd : Unicode} : forall hs expected i d,
  (forall k, (i <= k <= i + d)%nat -> unmatched hs expected k = true) ->
  (nth i (pages_of (reconcile hs expected)) 0
   <= nth (i + d) (pages_of (reconcile hs expected)) 0)%Z.
Proof.
  intros hs expected i d. induction d as [|d IH]; intro H.
  - rewrite Nat.add_0_r. apply Z.le_refl.
  - rewrite Nat.add_succ_r.
    rewrite (reconcile_pages hs expected (S (i + d))) by (apply H; lia).
    assert (nth i (pages_of (reconcile hs expected)) 0
            <= nth (i + d) (pages_of (reconcile hs expected)) 0)%Z
      by (apply IH; intros k Hk; apply H; lia).
    lia.
Qed.

(** C4 as stated fails on both counts.  In [references_doc] only the entry
    "4. References " (number 14) finds a candidate, on page 4.  Entry 1 has
    no candidate and nothing was matched before it, yet it gets page 1, not
    0: the page that is incremented is that of the entry before, matched or
    not.  Entries 13 and 15 are both without candidate and get pages 13 and
    5: the pages of the synthesized entries decrease across the match. *)
Lemma C4_counterexample :
  map (unmatched
         (sort_by_score
            (candidates en technical
                        (analyze_document_structure (extract_spans references_doc))
                        (extract_spans references_doc)))
         (expected_of technical_expected))
      (seq 0 17)
  = [true; true; true; true; true; true; true; true; true; true; true; true;
     true; true; false; true; true]
  /\ pages_of
       (filter_headings
          (sort_by_score
             (candidates en technical
                         (analyze_document_structure (extract_spans references_doc))
                         (extract_spans references_doc)))
          technical)
     = [0; 1; 2; 3; 4; 5; 6; 7; 8; 9; 10; 11; 12; 13; 4; 5; 6]%Z
  /\ map e_page (outline (main_document detect_en (extract_spans references_doc)))
     = [0; 1; 2; 3; 4; 5; 6; 7; 8; 9; 10; 11; 12; 13; 4; 5; 6]%Z.
Proof. vm_compute. repeat split; reflexivity. Qed.

(** C4, amended.  Whatever the character database, in literal
    reconciliation the output has one entry per expected entry; an expected
    entry with no matching candidate gets the
    page of the entry just before it in the list plus one, whether that one
    was matched or synthesized, and page 0 when it is the first of the list;
    hence over a run of consecutive entries without candidate the pages do
    not decrease. *)
Theorem C4_synthesized_pages {ucd : Unicode} :
  forall (hs : list Heading) (doc_type : DocType) (expected : list (str * Level)),
  (doc_type = technical /\ expected = expected_of technical_expected)
  \/ (doc_type = rfp /\ expected = expected_of rfp_expected) ->
  length (filter_headings hs doc_type) = length expected
  /\ (forall i, unmatched hs expected i = true ->
        nth i (pages_of (filter_headings hs doc_type)) 0%Z
        = match i with
          | O => 0%Z
          | S j => (nth j (pages_of (filter_headings hs doc_type)) 0 + 1)%Z
          end)
  /\ (forall i j, (i <= j)%nat ->
        (forall k, (i <= k <= j)%nat -> unmatched hs expected k = true) ->
        (nth i (pages_of (filter_headings hs doc_type)) 0
         <= nth j (pages_of (filter_headings hs doc_type)) 0)%Z).
Proof.
  intros hs doc_type expected Hdt.
  assert (E : filter_headings hs doc_type = reconcile hs expected)
    by (destruct Hdt as [[-> ->] | [-> ->]]; reflexivity).
  rewrite E. split; [apply reconcile_length|]. split.
  - apply reconcile_pages.
  - intros i j Hij H.
    replace j with (i + (j - i))%nat by lia.
    apply reconcile_run. intros k Hk. apply H. lia.
Qed.

Lemma C4_witness :
  length (filter_headings [] technical) = 17%nat
  /\ nth 3 (pages_of (filter_headings [] technical)) 0%Z
     = (nth 2 (pages_of (filter_headings [] technical)) 0 + 1)%Z
  /\ (nth 2 (pages_of (filter_headings [] technical)) 0
      <= nth 5 (pages_of (filter_headings [] technical)) 0)%Z
  /\ unmatched (english_candidates rfp ligature_doc) (expected_of rfp_expected) 22
     = false
  /\ nth 22 (pages_of (filter_headings (english_candidates rfp ligature_doc) rfp)) 0%Z
     = 7%Z
  /\ nth 23 (pages_of (filter_headings (english_candidates rfp ligature_doc) rfp)) 0%Z
     = (nth 22 (pages_of (filter_headings (english_candidates rfp ligature_doc) rfp))
            0 + 1)%Z.
Proof.
  destruct (C4_synthesized_pages [] technical (expected_of technical_expected))
    as (Hlen & Hpage & Hrun); [left; split; reflexivity|].
  pose proof (proj1 (proj2 (C4_synthesized_pages
                              (english_candidates rfp ligature_doc) rfp
                              (expected_of rfp_expected)
                              (or_intror (conj eq_refl eq_refl))))) as Hlig.
  split; [exact Hlen|]. split; [|split; [|split; [|split]]].
  - apply (Hpage 3%nat). vm_compute. reflexivity.
  - apply Hrun; [lia|]. intros k Hk.
    assert (Hk' : k = 2%nat \/ k = 3%nat \/ k = 4%nat \/ k = 5%nat) by lia.
    destruct Hk' as [-> | [-> | [-> | ->]]]; vm_compute; reflexivity.
  - vm_compute. reflexivity.
  - vm_compute. reflexivity.
  - apply (Hlig 23%nat). vm_compute. reflexivity.
Defined.

(** ** The form title *)

Lemma window_scan_iff : forall lines,
  window_scan lines = true
  <-> exists window i,
        (2 <= window <= 5)%nat /\ (i + window <= length lines)%nat
        /\ has_form_keywords (merged lines window i) = true.
Proof.
  intro lines. unfold window_scan. rewrite existsb_exists. split.
  - intros (w & Hw & H). apply existsb_exists in H. destruct H as (i & Hi & H).
    apply in_seq in Hi. exists w, i.
    assert (2 <= w <= 5)%nat
      by (simpl in Hw; destruct Hw as [<-|[<-|[<-|[<-|[]]]]]; lia).
    repeat split; try lia; exact H.
  - intros (w & i & Hw & Hi & H). exists w. split.
    + assert (Hc : (w = 5 \/ w = 4 \/ w = 3 \/ w = 2)%nat) by lia.
      simpl. destruct Hc as [-> | [-> | [-> | ->]]]; auto.
    + apply existsb_exists. exists i. split; [|exact H].
      apply in_seq. lia.
Qed.

Lemma doc_type_form : forall spans, doc_type_of en form_title spans = form.
Proof.
  intro spans. unfold doc_type_of. cbv zeta. rewrite eqb_refl.
  assert (Ht : strip (lower form_title)
               = lit "application form for grant of ltc advance")
    by (vm_compute; reflexivity).
  rewrite Ht. unfold is_event.
  assert (He : Py.eqb (lit "application form for grant of ltc advance") [] = false)
    by (vm_compute; reflexivity).
  rewrite He. cbn [andb].
  assert (Hc : contains (lit "application form for grant of ltc advance")
                        (lit "application form for grant of ltc advance") = true)
    by (vm_compute; reflexivity).
  rewrite Hc. reflexivity.
Qed.

(** C5 as stated fails: the scan looks at runs of at most five consecutive
    lines.  In [scattered_form_doc] the joined text holds the three keywords
    but "application" and "form grant" are six lines apart: the title falls to
    the largest-font branch, the archetype is [other] and seven headings are
    emitted. *)
Lemma C5_counterexample :
  has_form_keywords (joined (extract_spans scattered_form_doc)) = true
  /\ extract_document_title (extract_spans scattered_form_doc)
     = lit "application one two three four five form grant "
  /\ doc_type_of (language detect_en (extract_spans scattered_form_doc))
                 (extract_document_title (extract_spans scattered_form_doc))
                 (extract_spans scattered_form_doc) = other
  /\ length (outline (main_document detect_en (extract_spans scattered_form_doc)))
     = 7%nat.
Proof. vm_compute. repeat split; reflexivity. Qed.

(** C5, amended.  When some run of two to five consecutive lines of the
    first two pages, joined with spaces and lower-cased, contains
    "application", "form" and "grant", the title is the literal
    "Application form for grant of LTC advance  "; if moreover the detected
    language is "en", the archetype is [form] and the outline is empty. *)
Theorem C5_form_title {ucd : Unicode} :
  forall (detect : str -> option str) (spans : list Span),
  (exists window i,
      (2 <= window <= 5)%nat /\ (i + window <= length (title_lines spans))%nat
      /\ has_form_keywords (merged (title_lines spans) window i) = true) ->
  extract_document_title spans = lit "Application form for grant of LTC advance  "
  /\ (language detect spans = en ->
      doc_type_of (language detect spans) (extract_document_title spans) spans = form
      /\ outline (main_document detect spans) = []).
Proof.
  intros detect spans Hw.
  assert (Hne : spans <> []).
  { intros ->. destruct Hw as (w & i & Hw & Hi & _). simpl in Hi. lia. }
  apply window_scan_iff in Hw.
  assert (Ht : extract_document_title spans = form_title)
    by (unfold extract_document_title; cbv zeta; rewrite Hw; reflexivity).
  split; [rewrite Ht; unfold form_title; reflexivity|].
  intro Hl. rewrite Ht, Hl.
  split; [apply doc_type_form|].
  unfold main_document. destruct spans as [|s0 spans']; [contradiction|].
  cbv zeta. rewrite Hl, Ht, doc_type_form, eqb_refl.
  cbn [andb outline]. reflexivity.
Qed.

Lemma C5_witness :
  extract_document_title (extract_spans form_doc)
  = lit "Application form for grant of LTC advance  "
  /\ doc_type_of (language detect_en (extract_spans form_doc))
                 (extract_document_title (extract_spans form_doc))
                 (extract_spans form_doc) = form
  /\ outline (main_document detect_en (extract_spans form_doc)) = [].
Proof.
  destruct (C5_form_title detect_en (extract_spans form_doc)) as [Ht Hf].
  - exists 2%nat, 0%nat. vm_compute. repeat split; auto.
  - split; [exact Ht|]. apply Hf. vm_compute. reflexivity.
Defined.

(** ** Document statistics *)

Lemma insert_unique_In : forall x l z,
  In z (insert_unique x l) -> z = x \/ In z l.
Proof.
  intros x l z. induction l as [|h t IH]; simpl.
  - intros [E|[]]; auto.
  - destruct (x ?= h)%Q; simpl.
    + intros [E|H]; auto.
    + intros [E|H]; auto.
    + intros [E|H]; auto. destruct (IH H); auto.
Qed.

Lemma insert_unique_has : forall x l z,
  (z == x)%Q \/ (exists u, In u l /\ (u == z)%Q) ->
  exists u, In u (insert_unique x l) /\ (u == z)%Q.
Proof.
  intros x l z. induction l as [|h t IH]; simpl.
  - intros [E | (u & [] & _)]. exists x. split; [left; reflexivity|].
    symmetry. exact E.
  - destruct (x ?= h)%Q eqn:C.
    + apply Qeq_alt in C. intros [E | (u & Hu & Eu)].
      * exists h. split; [left; reflexivity|]. rewrite <- C. symmetry. exact E.
      * exists u. split; assumption.
    + intros [E | (u & Hu & Eu)].
      * exists x. split; [left; reflexivity | symmetry; exact E].
      * exists u. split; [right; exact Hu | exact Eu].
    + intros [E | (u & [<- | Hu] & Eu)].
      * destruct IH as (u & Hu & Eu); [left; exact E|].
        exists u. split; [right; exact Hu | exact Eu].
      * exists h. split; [left; reflexivity | exact Eu].
      * destruct IH as (v & Hv & Ev); [right; exists u; split; assumption|].
        exists v. split; [right; exact Hv | exact Ev].
Qed.

Lemma insert_unique_sorted : forall x l,
  StronglySorted Qlt l -> StronglySorted Qlt (insert_unique x l).
Proof.
  intros x l Hs. induction Hs as [|h t Ht IH Hh]; simpl.
  - constructor; constructor.
  - destruct (x ?= h)%Q eqn:C.
    + constructor; assumption.
    + apply Qlt_alt in C. constructor; [constructor; assumption|].
      constructor; [exact C|].
      rewrite Forall_forall in *. intros z Hz.
      eapply Qlt_trans; [exact C | apply Hh; exact Hz].
    + apply Qgt_alt in C. constructor; [exact IH|].
      rewrite Forall_forall in *. intros z Hz.
      apply insert_unique_In in Hz. destruct Hz as [-> | Hz]; [exact C | auto].
Qed.

Lemma fold_insert_sorted : forall l acc,
  StronglySorted Qlt acc ->
  StronglySorted Qlt (fold_left (fun a x => insert_unique x a) l acc).
Proof.
  induction l as [|x l IH]; intros acc H; simpl; [exact H|].
  apply IH. apply insert_unique_sorted. exact H.
Qed.

Lemma fold_insert_In : forall l acc z,
  In z (fold_left (fun a x => insert_unique x a) l acc) -> In z l \/ In z acc.
Proof.
  induction l as [|x l IH]; intros acc z H; simpl in *; [right; exact H|].
  destruct (IH _ _ H) as [H1 | H1]; [left; right; exact H1|].
  apply insert_unique_In in H1. destruct H1 as [-> | H1]; auto.
Qed.

Lemma fold_insert_has : forall l acc z,
  (exists u, In u l /\ (u == z)%Q) \/ (exists u, In u acc /\ (u == z)%Q) ->
  exists u, In u (fold_left (fun a x => insert_unique x a) l acc) /\ (u == z)%Q.
Proof.
  induction l as [|x l IH]; intros acc z H; simpl.
  - destruct H as [(u & [] & _) | H]. exact H.
  - apply IH. destruct H as [(u & [<- | Hu] & Eu) | H].
    + right. apply insert_unique_has. left. symmetry. exact Eu.
    + left. exists u. split; assumption.
    + right. apply insert_unique_has. right. exact H.
Qed.

Lemma sorted_set_sorted : forall l, StronglySorted Qlt (sorted_set l).
Proof. intro l. apply fold_insert_sorted. constructor. Qed.

Lemma sorted_set_spec : forall l q,
  (exists z, In z l /\ (z == q)%Q) <-> (exists u, In u (sorted_set l) /\ (u == q)%Q).
Proof.
  intros l q. split.
  - intro H. apply fold_insert_has. left. exact H.
  - intros (u & Hu & Eu). apply fold_insert_In in Hu.
    destruct Hu as [Hu | []]. exists u. split; assumption.
Qed.


Lemma size_percentile_eq : forall spans,
  size_percentile (analyze_document_structure spans)
  = map (fun p : Q * nat =>
           let (sz, rank) := p in
           (sz, percentile_of (length (sorted_set (map size spans))) rank))
        (map (fun p => (snd p, fst p)) (enumerate (sorted_set (map size spans)))).
Proof. intros [|s spans]; reflexivity. Qed.

Lemma percentile_get_rank : forall (f : nat -> Q) us k i u q,
  StronglySorted Qlt us ->
  nth_error us i = Some u ->
  (q == u)%Q ->
  percentile_get
    (map (fun p : Q * nat => let (sz, rank) := p in (sz, f rank))
         (map (fun p => (snd p, fst p)) (combine (seq k (length us)) us))) q
  = f (k + i)%nat.
Proof.
  intros f us. induction us as [|h t IH]; intros k i u q Hs Hn Hq.
  - destruct i; discriminate.
  - inversion Hs as [|? ? Ht Hh]; subst.
    cbn [length seq combine map fst snd percentile_get].
    destruct i as [|j].
    + injection Hn as ->.
      apply Qeq_bool_iff in Hq. rewrite Hq, Nat.add_0_r. reflexivity.
    + cbn [nth_error] in Hn.
      destruct (Qeq_bool q h) eqn:E.
      * apply Qeq_bool_iff in E. exfalso.
        rewrite Forall_forall in Hh.
        pose proof (Hh u (nth_error_In _ _ Hn)) as Hlt.
        rewrite <- Hq, E in Hlt. exact (Qlt_irrefl _ Hlt).
      * rewrite (IH (S k) j u q Ht Hn Hq).
        f_equal. lia.
Qed.


(** ** Emphasis flags *)

Lemma spans_of_block_plain : forall page_num block s,
  In s (spans_of_block page_num block) -> flags s = 0%Z /\ font s = [].
Proof.
  intros page_num block s H. unfold spans_of_block in H.
  destruct (negb (block_type block =? 0)%Z); [destruct H|].
  destruct (is_empty (strip (block_text block))); [destruct H|].
  apply in_flat_map in H. destruct H as (line & _ & H).
  destruct (is_empty (strip line)); [destruct H|].
  destruct H as [<- | []]. split; reflexivity.
Qed.

Lemma extract_spans_plain : forall doc s,
  In s (extract_spans doc) -> flags s = 0%Z /\ font s = [].
Proof.
  intros doc s H. unfold extract_spans in H.
  apply in_flat_map in H. destruct H as (p & _ & H).
  apply in_flat_map in H. destruct H as (b & _ & H).
  eapply spans_of_block_plain. exact H.
Qed.

Lemma merge_fragmented_text_id : forall spans, merge_fragmented_text spans = spans.
Proof. intros [|s spans]; reflexivity. Qed.

Lemma candidates_score {ucd : Unicode} : forall dt st spans h,
  In h (candidates en dt st spans) ->
  exists s, In s spans
            /\ h_score h = calculate_heading_importance (strip (text s)) s st.
Proof.
  intros dt st spans h H. unfold candidates in H.
  apply in_flat_map in H. destruct H as (s & Hs & H).
  exists s. split; [exact Hs|].
  rewrite eqb_refl in H.
  destruct (is_likely_heading _ _ _ _); [|destruct H].
  destruct H as [<-|[]]. reflexivity.
Qed.

(** C9.  Every span that extraction and normalization produce has flags 0
    and an empty font name; on such a span the bold test of the scorer fails
    and the score is the sum of the size, pattern, page and position terms
    alone.  So it is for the score of every candidate of an English
    document. *)
Theorem C9_no_bold_bonus {ucd : Unicode} : forall (doc : list (list Block)),
  (forall s, In s (merge_fragmented_text (extract_spans doc)) ->
     flags s = 0%Z /\ font s = [] /\ bold_score s = 0%Q
     /\ forall t st,
          (calculate_heading_importance t s st
           == size_score s st + pattern_score t + page_score s + top_score s)%Q)
  /\ (forall dt st h,
        In h (candidates en dt st (merge_fragmented_text (extract_spans doc))) ->
        exists s, In s (extract_spans doc)
          /\ (h_score h
              == size_score s st + pattern_score (strip (text s)) + page_score s
                 + top_score s)%Q).
Proof.
  intro doc. rewrite merge_fragmented_text_id.
  assert (H : forall s, In s (extract_spans doc) ->
            flags s = 0%Z /\ font s = [] /\ bold_score s = 0%Q
            /\ forall t st,
                 (calculate_heading_importance t s st
                  == size_score s st + pattern_score t + page_score s
                     + top_score s)%Q).
  { intros s Hs. destruct (extract_spans_plain doc s Hs) as [Hf Hn].
    assert (Hb : bold_score s = 0%Q) by (unfold bold_score; rewrite Hf; reflexivity).
    repeat split; try assumption.
    intros t st. unfold calculate_heading_importance. rewrite Hb. ring. }
  split; [exact H|].
  intros dt st h Hh. apply candidates_score in Hh.
  destruct Hh as (s & Hs & ->). exists s. split; [exact Hs|].
  apply H. exact Hs.
Qed.

Lemma C9_witness :
  flags (mkSpan (lit "Annual Report") 20 [] 0 0 (72, 100, 540, 120)%Q 100) = 0%Z
  /\ bold_score (mkSpan (lit "Annual Report") 20 [] 0 0 (72, 100, 540, 120)%Q 100)
     = 0%Q.
Proof.
  destruct (C9_no_bold_bonus repeated_doc) as [H _].
  destruct (H (mkSpan (lit "Annual Report") 20 [] 0 0 (72, 100, 540, 120)%Q 100))
    as (Hf & _ & Hb & _).
  - vm_compute. left. reflexivity.
  - split; [exact Hf | exact Hb].
Defined.

(** ** The literal archetypes *)

(** In an English document of a literal archetype the outline has the texts
    of the table, in order, but each level is the answer of the classifier
    on the expected text and a span without size; the expected level that
    reconciliation stored with the heading is not read. *)
Lemma literal_outline {ucd : Unicode} :
  forall (detect : str -> option str) (spans : list Span)
         (table : list (string * Level)),
  language detect spans = en ->
  (doc_type_of (language detect spans) (extract_document_title spans) spans = technical
   /\ table = technical_expected)
  \/ (doc_type_of (language detect spans) (extract_document_title spans) spans = rfp
      /\ table = rfp_expected) ->
  map e_text (outline (main_document detect spans)) = map fst (expected_of table)
  /\ length (outline (main_document detect spans)) = length table
  /\ forall i e, nth_error (outline (main_document detect spans)) i = Some e ->
       e_level e = classify_heading_level (e_text e) (PageOnly (e_page e))
                                          (analyze_document_structure spans).
Proof.
  intros detect spans table Hl Hdt.
  assert (Hne : spans <> []).
  { intros ->. rewrite Hl in Hdt.
    destruct Hdt as [[H _] | [H _]]; vm_compute in H; discriminate. }
  assert (Hspaced : forallb ends_with_one_space (map fst (expected_of table)) = true).
  { destruct expected_texts_spaced.
    destruct Hdt as [[_ ->] | [_ ->]]; assumption. }
  assert (E : outline (main_document detect spans)
              = map (emit (analyze_document_structure spans))
                    (reconcile
                       (sort_by_score
                          (candidates (language detect spans)
                             (doc_type_of (language detect spans)
                                          (extract_document_title spans) spans)
                             (analyze_document_structure spans) spans))
                       (expected_of table))).
  { destruct spans as [|s0 spans']; [contradiction|].
    unfold main_document. cbv zeta.
    destruct Hdt as [[Hd ->] | [Hd ->]]; rewrite Hd; rewrite Hl, eqb_refl;
      reflexivity. }
  set (st := analyze_document_structure spans) in *.
  set (hs := sort_by_score _) in E.
  rewrite E.
  assert (Ht : forall h, In h (reconcile hs (expected_of table)) ->
                 e_text (emit st h) = h_text h).
  { intros h Hh. unfold emit. cbn [e_text].
    rewrite (one_space_endswith _ (reconcile_text_spaced _ _ _ Hspaced Hh)).
    apply app_nil_r. }
  split; [|split].
  - rewrite map_map. rewrite (map_ext_in _ h_text _ Ht).
    rewrite reconcile_eq. apply reconcile_from_text.
  - rewrite length_map, reconcile_length. unfold expected_of. apply length_map.
  - intros i e He. rewrite nth_error_map in He.
    destruct (nth_error (reconcile hs (expected_of table)) i) as [h|] eqn:Hn;
      [|discriminate].
    injection He as <-.
    assert (Hin := nth_error_In _ _ Hn).
    rewrite (Ht h Hin).
    assert (Hp : exists p, h_span h = PageOnly p).
    { rewrite reconcile_eq in Hin. clear - Hin.
      revert Hin. generalize 0%nat, 0%Z, false, (toc_end_page hs + 1)%Z.
      induction (expected_of table) as [|[t lv] l IH]; intros k lp ne msp Hin.
      - destruct Hin.
      - destruct Hin as [<- | Hin]; [eexists; reflexivity|].
        eapply IH. exact Hin. }
    destruct Hp as (p & Hp). unfold emit. cbn [e_level e_page].
    rewrite Hp. reflexivity.
Qed.

(** C1 fails on the level.  [technical_doc] is classified technical and no
    candidate matches; the outline has the 17 texts of the table, but five
    levels differ from the table: "1. Introduction ...", "2. Introduction
    ...", "3. Overview ..." and "4. References " are expected at H1 and
    emitted at H3.  [emit] calls the classifier on the expected text instead
    of reading the level that reconciliation stored. *)
Theorem C1_levels_reclassified {ucd : Unicode} :
  doc_type_of (language detect_en (extract_spans technical_doc))
              (extract_document_title (extract_spans technical_doc))
              (extract_spans technical_doc) = technical
  /\ map e_text (outline (main_document detect_en (extract_spans technical_doc)))
     = map fst (expected_of technical_expected)
  /\ map h_level (filter_headings [] technical)
     = map (fun e => Some (snd e)) technical_expected
  /\ map snd technical_expected
     = [H1; H1; H1; H1; H1; H2; H2; H2; H2; H2; H2; H1; H2; H2; H1; H2; H2]
  /\ map e_level (outline (main_document detect_en (extract_spans technical_doc)))
     = [H1; H1; H1; H3; H3; H2; H2; H2; H2; H2; H2; H3; H2; H2; H3; H2; H2].
Proof. vm_compute. repeat split; reflexivity. Qed.

(** * Further properties of the code *)

Import Terms.

(** ** Stripping and splitting *)

Lemma lstrip_In : forall s c, In c (lstrip s) -> In c s.
Proof.
  induction s as [|a s IH]; simpl; intros c H; [exact H|].
  destruct (isspace a); [right; apply IH; exact H | exact H].
Qed.

Lemma rstrip_In : forall s c, In c (rstrip s) -> In c s.
Proof.
  induction s as [|a s IH]; simpl; intros c H; [exact H|].
  destruct (rstrip s) as [|b r] eqn:E.
  - destruct (isspace a); [destruct H|]. destruct H as [<-|[]]. left. reflexivity.
  - destruct H as [<-|H]; [left; reflexivity | right; apply IH; exact H].
Qed.

Lemma strip_In : forall s c, In c (strip s) -> In c s.
Proof. intros s c H. apply lstrip_In. apply rstrip_In. exact H. Qed.

Lemma lstrip_head : forall s,
  lstrip s = [] \/ exists c r, lstrip s = c :: r /\ isspace c = false.
Proof.
  induction s as [|a s IH]; simpl; [left; reflexivity|].
  destruct (isspace a) eqn:E; [exact IH|].
  right. exists a, s. split; [reflexivity | exact E].
Qed.

Lemma rstrip_cons_nonspace : forall c r,
  isspace c = false -> exists r', rstrip (c :: r) = c :: r'.
Proof.
  intros c r H. simpl. destruct (rstrip r) as [|b t].
  - rewrite H. exists []. reflexivity.
  - exists (b :: t). reflexivity.
Qed.

Lemma rstrip_snoc_nonspace : forall p c,
  isspace c = false -> rstrip (p ++ [c]) = p ++ [c].
Proof.
  induction p as [|a p IH]; intros c H; simpl.
  - rewrite H. reflexivity.
  - rewrite (IH c H). destruct (p ++ [c]) eqn:E; [destruct p; discriminate|].
    reflexivity.
Qed.

Lemma rstrip_idem : forall s, rstrip (rstrip s) = rstrip s.
Proof.
  intro s. destruct (rstrip_shape s) as [E | (p & c & E & Hc)]; rewrite E.
  - reflexivity.
  - apply rstrip_snoc_nonspace. exact Hc.
Qed.

(** A stripped text is empty, or begins and ends with characters that are
    not white space. *)
Lemma strip_ends : forall s,
  strip s = []
  \/ (exists c r, strip s = c :: r /\ isspace c = false)
     /\ (exists p d, strip s = p ++ [d] /\ isspace d = false).
Proof.
  intro s. unfold strip.
  destruct (lstrip_head s) as [E | (c & r & E & Hc)]; rewrite E.
  - left. reflexivity.
  - right. destruct (rstrip_cons_nonspace c r Hc) as (r' & E').
    split; [exists c, r'; split; assumption|].
    destruct (rstrip_shape (c :: r)) as [E0 | H]; [congruence | exact H].
Qed.

Lemma strip_idem : forall s, strip (strip s) = strip s.
Proof.
  intro s. destruct (strip_ends s) as [E | [(c & r & E & Hc) _]].
  - rewrite E. reflexivity.
  - unfold strip at 1. rewrite E. simpl lstrip. rewrite Hc.
    rewrite <- E. unfold strip. apply rstrip_idem.
Qed.

Lemma lstrip_nonempty : forall s c,
  In c s -> isspace c = false -> lstrip s <> [].
Proof.
  induction s as [|a s IH]; intros c Hin Hc; [destruct Hin|].
  simpl. destruct (isspace a) eqn:E; [|discriminate].
  destruct Hin as [-> | Hin]; [congruence|]. eapply IH; eassumption.
Qed.

Lemma rstrip_nonempty : forall s c,
  In c s -> isspace c = false -> rstrip s <> [].
Proof.
  induction s as [|a s IH]; intros c Hin Hc; [destruct Hin|].
  simpl. destruct (rstrip s) as [|b r] eqn:E; [|discriminate].
  destruct Hin as [-> | Hin]; [rewrite Hc; discriminate|].
  exfalso. exact (IH c Hin Hc eq_refl).
Qed.

(** [strip] answers the empty string exactly on texts made of white space. *)
Lemma strip_empty_iff : forall s,
  strip s = [] <-> forall c, In c s -> isspace c = true.
Proof.
  intro s. split.
  - intros E c Hin. destruct (isspace c) eqn:Hc; [reflexivity|]. exfalso.
    pose proof (lstrip_nonempty s c Hin Hc) as Hl.
    destruct (lstrip_head s) as [E0 | (d & r & E0 & Hd)]; [contradiction|].
    unfold strip in E. rewrite E0 in E.
    exact (rstrip_nonempty (d :: r) d (or_introl eq_refl) Hd E).
  - intro H. destruct (strip_ends s) as [E | [(c & r & E & Hc) _]]; [exact E|].
    assert (Hin : In c s) by (apply strip_In; rewrite E; left; reflexivity).
    rewrite (H c Hin) in Hc. discriminate.
Qed.

Lemma split_on_acc_pieces : forall sep s cur piece,
  ~ In sep cur ->
  In piece (split_on_acc sep cur s) -> ~ In sep piece.
Proof.
  intros sep s. induction s as [|c s IH]; intros cur piece Hcur Hin; simpl in Hin.
  - destruct Hin as [<- | []]. intro H. apply in_rev in H. contradiction.
  - destruct (c =? sep)%N eqn:E.
    + destruct Hin as [<- | Hin].
      * intro H. apply in_rev in H. contradiction.
      * apply (IH [] piece); [intros [] | exact Hin].
    + apply (IH (c :: cur) piece); [|exact Hin].
      intros [-> | H]; [rewrite N.eqb_refl in E; discriminate | contradiction].
Qed.

Lemma split_on_pieces : forall sep s piece,
  In piece (split_on sep s) -> ~ In sep piece.
Proof. intros sep s piece. apply split_on_acc_pieces. intros []. Qed.

(** Every character of the text lies in some piece, unless it is the
    separator. *)
Lemma split_on_acc_covers : forall sep s cur c,
  c <> sep -> In c cur \/ In c s ->
  exists piece, In piece (split_on_acc sep cur s) /\ In c piece.
Proof.
  intros sep s. induction s as [|a s IH]; intros cur c Hc Hin; simpl.
  - destruct Hin as [Hin | []]. exists (rev cur). split; [left; reflexivity|].
    apply -> in_rev. exact Hin.
  - destruct (a =? sep)%N eqn:E.
    + apply N.eqb_eq in E. subst a. destruct Hin as [Hin | [-> | Hin]].
      * exists (rev cur). split; [left; reflexivity | apply -> in_rev; exact Hin].
      * contradiction Hc. reflexivity.
      * destruct (IH [] c Hc (or_intror Hin)) as (piece & Hp & Hcp).
        exists piece. split; [right; exact Hp | exact Hcp].
    + apply (IH (a :: cur) c Hc).
      destruct Hin as [Hin | [-> | Hin]]; [left; right; exact Hin
                                          | left; left; reflexivity
                                          | right; exact Hin].
Qed.

(** ** Extraction *)

Lemma flat_map_nil_iff : forall (A B : Type) (f : A -> list B) (l : list A),
  flat_map f l = [] <-> forall a, In a l -> f a = [].
Proof.
  intros A B f l. induction l as [|x l IH]; simpl.
  - split; [intros _ a [] | reflexivity].
  - split.
    + intros H a [<- | Ha]; apply app_eq_nil in H; destruct H as [H1 H2];
        [exact H1 | apply IH; assumption].
    + intro H. rewrite (H x (or_introl eq_refl)).
      apply IH. intros a Ha. apply H. right. exact Ha.
Qed.

Lemma in_enumerate : forall (A : Type) (l : list A) k p (x : A),
  In (p, x) (combine (seq k (length l)) l)
  <-> (k <= p)%nat /\ nth_error l (p - k) = Some x.
Proof.
  intros A l. induction l as [|a l IH]; intros k p x.
  - simpl. split; [intros [] | intros [_ H]; destruct (p - k)%nat; discriminate].
  - cbn [length seq combine In]. rewrite IH. split.
    + intros [E | [Hk Hn]].
      * injection E as <- <-. rewrite Nat.sub_diag. split; [lia | reflexivity].
      * split; [lia|]. replace (p - k)%nat with (S (p - S k)) by lia. exact Hn.
    + intros [Hk Hn]. destruct (p - k)%nat as [|d] eqn:E.
      * left. injection Hn as <-. f_equal. lia.
      * right. split; [lia|]. replace (p - S k)%nat with d by lia. exact Hn.
Qed.

Lemma spans_of_block_nil_iff : forall page_num b,
  spans_of_block page_num b = [] <-> blank_block b = true.
Proof.
  intros page_num b. unfold spans_of_block, blank_block.
  destruct (negb (block_type b =? 0)%Z); [split; reflexivity|].
  cbn [orb].
  destruct (strip_ends (block_text b)) as [E | [(c & r & E & Hc) _]]; rewrite E.
  - split; reflexivity.
  - cbn [is_empty]. split; [|discriminate]. intro H. exfalso.
    assert (Hne : c <> 10%N) by (intros ->; discriminate).
    destruct (split_on_acc_covers 10%N (c :: r) [] c Hne
                (or_intror (or_introl eq_refl))) as (piece & Hp & Hcp).
    rewrite flat_map_nil_iff in H. specialize (H piece Hp).
    destruct (strip piece) as [|d t] eqn:Es; [|discriminate].
    rewrite strip_empty_iff in Es. rewrite (Es c Hcp) in Hc. discriminate.
Qed.

(** X1.  [extract_spans] yields no span exactly when no block of the
    document is a text block with visible text, and then the outline record
    of the document is the empty one. *)
Theorem X1_no_text_no_spans {ucd : Unicode} :
  forall (detect : str -> option str)
                                     (doc : list (list Block)),
  (extract_spans doc = []
   <-> forall blocks b, In blocks doc -> In b blocks -> blank_block b = true)
  /\ (extract_spans doc = [] ->
      main_document detect (extract_spans doc) = {| title := []; outline := [] |}).
Proof.
  intros detect doc. split; [|intros ->; reflexivity].
  unfold extract_spans. rewrite flat_map_nil_iff. split.
  - intros H blocks b Hb Hin.
    destruct (In_nth_error _ _ Hb) as (p & Hp).
    assert (Hc : In (p, blocks) (combine (seq 0 (length doc)) doc)).
    { apply in_enumerate. rewrite Nat.sub_0_r. split; [lia | exact Hp]. }
    specialize (H _ Hc). cbn [fst snd] in H.
    rewrite flat_map_nil_iff in H.
    apply (spans_of_block_nil_iff (Z.of_nat p)). apply H. exact Hin.
  - intros H [p blocks] Hc. cbn [fst snd].
    apply in_enumerate in Hc. destruct Hc as [_ Hp].
    apply nth_error_In in Hp.
    apply flat_map_nil_iff. intros b Hb.
    apply spans_of_block_nil_iff. exact (H blocks b Hp Hb).
Qed.

Lemma X1_witness :
  extract_spans [ [ mkBlock 0 0 10 10 (lit "picture") 0 1;
                    mkBlock 0 20 10 30 (lit "   ") 1 0 ]; [] ] = []
  /\ main_document detect_en
       (extract_spans [ [ mkBlock 0 0 10 10 (lit "picture") 0 1;
                          mkBlock 0 20 10 30 (lit "   ") 1 0 ]; [] ])
     = {| title := []; outline := [] |}.
Proof.
  destruct (X1_no_text_no_spans detect_en
              [ [ mkBlock 0 0 10 10 (lit "picture") 0 1;
                  mkBlock 0 20 10 30 (lit "   ") 1 0 ]; [] ]) as [Hiff Hout].
  assert (H : extract_spans [ [ mkBlock 0 0 10 10 (lit "picture") 0 1;
                                mkBlock 0 20 10 30 (lit "   ") 1 0 ]; [] ] = []).
  { apply Hiff. intros blocks b [<- | [<- | []]] Hb; [|destruct Hb].
    destruct Hb as [<- | [<- | []]]; vm_compute; reflexivity. }
  split; [exact H | exact (Hout H)].
Defined.

Lemma spans_of_block_inv : forall page_num b s,
  In s (spans_of_block page_num b) ->
  block_type b = 0%Z
  /\ (exists line, In line (split_on 10%N (strip (block_text b)))
                   /\ text s = strip line /\ strip line <> [])
  /\ page s = page_num
  /\ size s = (block_y1 b - block_y0 b)%Q
  /\ y s = block_y0 b
  /\ bbox s = (block_x0 b, block_y0 b, block_x1 b, block_y1 b).
Proof.
  intros page_num b s H. unfold spans_of_block in H.
  destruct (block_type b =? 0)%Z eqn:Et; cbn [negb] in H; [|destruct H].
  apply Z.eqb_eq in Et.
  destruct (is_empty (strip (block_text b))); [destruct H|].
  apply in_flat_map in H. destruct H as (line & Hl & H).
  destruct (strip line) as [|c r] eqn:Es; cbn [is_empty] in H; [destruct H|].
  destruct H as [<- | []]. cbn [text page size y bbox].
  split; [exact Et|]. split.
  - exists line. rewrite Es. repeat split; [exact Hl | discriminate].
  - repeat split.
Qed.

(** X2.  Every span of [extract_spans] has a text that is not empty, is its
    own [strip] (no white space at either end) and holds no line feed: one
    span is one trimmed line. *)
Theorem X2_span_text_trimmed : forall (doc : list (list Block)) (s : Span),
  In s (extract_spans doc) ->
  text s <> [] /\ strip (text s) = text s /\ ~ In 10%N (text s).
Proof.
  intros doc s H. unfold extract_spans in H.
  apply in_flat_map in H. destruct H as (p & _ & H).
  apply in_flat_map in H. destruct H as (b & _ & H).
  apply spans_of_block_inv in H.
  destruct H as (_ & (line & Hl & Ht & Hne) & _).
  rewrite Ht. split; [exact Hne|]. split; [apply strip_idem|].
  intro Hin. apply strip_In in Hin.
  exact (split_on_pieces _ _ _ Hl Hin).
Qed.

Lemma X2_witness :
  text (mkSpan (lit "Hello World") 10 [] 0 1 (72, 300, 540, 310)%Q 300) <> []
  /\ strip (lit "Hello World") = lit "Hello World".
Proof.
  destruct (X2_span_text_trimmed repeated_doc
              (mkSpan (lit "Hello World") 10 [] 0 1 (72, 300, 540, 310)%Q 300))
    as (Hne & Hs & _).
  - vm_compute. right. left. reflexivity.
  - split; [exact Hne | exact Hs].
Defined.

(** X3.  Every span of [extract_spans] comes from a text block (type 0) of
    the page whose index is its page number: its size is the height of the
    block, its [y] the top of the block, its [bbox] the box of the block, and
    its text a stripped line of the stripped block text.  Page numbers are
    indices of pages of the document. *)
Theorem X3_span_provenance : forall (doc : list (list Block)) (s : Span),
  In s (extract_spans doc) ->
  (0 <= page s < Z.of_nat (length doc))%Z
  /\ exists blocks b line,
       nth_error doc (Z.to_nat (page s)) = Some blocks
       /\ In b blocks
       /\ block_type b = 0%Z
       /\ In line (split_on 10%N (strip (block_text b)))
       /\ text s = strip line
       /\ size s = (block_y1 b - block_y0 b)%Q
       /\ y s = block_y0 b
       /\ bbox s = (block_x0 b, block_y0 b, block_x1 b, block_y1 b).
Proof.
  intros doc s H. unfold extract_spans in H.
  apply in_flat_map in H. destruct H as ([p blocks] & Hp & H).
  cbn [fst snd] in H.
  apply in_flat_map in H. destruct H as (b & Hb & H).
  apply spans_of_block_inv in H.
  destruct H as (Ht & (line & Hl & Htx & _) & Hpg & Hsz & Hy & Hbb).
  apply in_enumerate in Hp. rewrite Nat.sub_0_r in Hp. destruct Hp as [_ Hn].
  assert (Hlt : (p < length doc)%nat) by (apply nth_error_Some; congruence).
  rewrite Hpg. split; [lia|].
  exists blocks, b, line. rewrite Nat2Z.id.
  repeat split; assumption.
Qed.

Lemma X3_witness :
  (0 <= 1 < Z.of_nat (length repeated_doc))%Z
  /\ size (mkSpan (lit "Hello World") 10 [] 0 1 (72, 300, 540, 310)%Q 300) = 10%Q.
Proof.
  destruct (X3_span_provenance repeated_doc
              (mkSpan (lit "Hello World") 10 [] 0 1 (72, 300, 540, 310)%Q 300))
    as (Hpage & _).
  - vm_compute. right. left. reflexivity.
  - split; [exact Hpage | reflexivity].
Defined.

(** ** Title and archetype *)

Lemma filter_idem : forall (A : Type) (f : A -> bool) (l : list A),
  filter f (filter f l) = filter f l.
Proof.
  intros A f l. induction l as [|x l IH]; simpl; [reflexivity|].
  destruct (f x) eqn:E; simpl; [rewrite E, IH; reflexivity | exact IH].
Qed.

Lemma filter_page0_first_two : forall spans,
  filter (fun s => (page s =? 0)%Z) (filter on_first_two_pages spans)
  = filter (fun s => (page s =? 0)%Z) spans.
Proof.
  induction spans as [|s l IH]; simpl; [reflexivity|].
  unfold on_first_two_pages at 1.
  destruct (page s =? 0)%Z eqn:E0; cbn [orb].
  - cbn [filter]. rewrite E0, IH. reflexivity.
  - destruct (page s =? 1)%Z; [cbn [filter]; rewrite E0|]; exact IH.
Qed.

(** X4.  The title is a function of the spans of the first two pages: two
    span lists that agree on pages 0 and 1 get the same title, so nothing on
    a later page can change it. *)
Theorem X4_title_first_two_pages : forall (spans spans' : list Span),
  filter on_first_two_pages spans = filter on_first_two_pages spans' ->
  extract_document_title spans = extract_document_title spans'.
Proof.
  assert (H : forall spans,
            extract_document_title spans
            = extract_document_title (filter on_first_two_pages spans)).
  { intro spans. unfold extract_document_title, title_lines, largest_font_title.
    rewrite filter_idem, filter_page0_first_two. reflexivity. }
  intros spans spans' E. rewrite (H spans), (H spans'), E. reflexivity.
Qed.

Lemma X4_witness :
  extract_document_title (extract_spans references_doc)
  = extract_document_title (extract_spans technical_doc).
Proof.
  apply X4_title_first_two_pages. vm_compute. reflexivity.
Defined.

(** With a title that is not blank the archetype of an English document is
    decided by the substring tests alone. *)
Lemma doc_type_literal : forall (ttl t : str) (spans : list Span),
  strip (lower ttl) = t ->
  Py.eqb t [] = false ->
  doc_type_of en ttl spans
  = if contains (lit "application form for grant of ltc advance") t then form
    else if contains (lit "foundation level extensions") t then technical
    else if contains (lit "rfp:request for proposal") t then rfp
    else if contains (lit "parsippany") t then pathways
    else other.
Proof.
  intros ttl t spans Ht Hne. unfold doc_type_of. cbv zeta.
  rewrite eqb_refl, Ht. unfold is_event. rewrite Hne. reflexivity.
Qed.

Lemma doc_type_not_en : forall lang ttl spans,
  lang <> en -> doc_type_of lang ttl spans = other.
Proof.
  intros lang ttl spans H. apply eqb_neq in H.
  unfold doc_type_of. rewrite H. reflexivity.
Qed.

(** X5.  The archetype follows the title of the resolver: in an English
    document each of the four literal titles selects its archetype, whatever
    the spans hold, and a document in any other language is [other]. *)
Theorem X5_title_selects_archetype :
  forall (detect : str -> option str) (spans : list Span),
  (language detect spans <> en ->
   doc_type_of (language detect spans) (extract_document_title spans) spans = other)
  /\ (language detect spans = en ->
      (extract_document_title spans = form_title ->
       doc_type_of (language detect spans) (extract_document_title spans) spans = form)
      /\ (extract_document_title spans = technical_title ->
          doc_type_of (language detect spans) (extract_document_title spans) spans
          = technical)
      /\ (extract_document_title spans = rfp_title ->
          doc_type_of (language detect spans) (extract_document_title spans) spans
          = rfp)
      /\ (extract_document_title spans = pathways_title ->
          doc_type_of (language detect spans) (extract_document_title spans) spans
          = pathways)).
Proof.
  intros detect spans. split; [apply doc_type_not_en|].
  intros ->. repeat split; intros ->.
  - apply doc_type_form.
  - rewrite (doc_type_literal technical_title
               (lit "overview  foundation level extensions") spans);
      vm_compute; reflexivity.
  - rewrite (doc_type_literal rfp_title
               (lit "rfp:request for proposal to present a proposal for developing the business plan for the ontario digital library")
               spans);
      vm_compute; reflexivity.
  - rewrite (doc_type_literal pathways_title
               (lit "parsippany -troy hills stem pathways") spans);
      vm_compute; reflexivity.
Qed.

Lemma X5_witness :
  doc_type_of (language detect_fr (extract_spans french_doc))
              (extract_document_title (extract_spans french_doc))
              (extract_spans french_doc) = other
  /\ doc_type_of (language detect_en (extract_spans technical_doc))
                 (extract_document_title (extract_spans technical_doc))
                 (extract_spans technical_doc) = technical.
Proof.
  split.
  - apply (proj1 (X5_title_selects_archetype detect_fr (extract_spans french_doc))).
    vm_compute. discriminate.
  - apply (proj2 (X5_title_selects_archetype detect_en (extract_spans technical_doc)));
      vm_compute; reflexivity.
Defined.

Ltac bools_to_props :=
  repeat match goal with
         | H : _ && _ = true |- _ => apply andb_prop in H; destruct H
         | H : _ || _ = true |- _ => apply orb_prop in H; destruct H
         | H : _ || _ = false |- _ => apply orb_false_elim in H; destruct H
         | H : negb _ = true |- _ => apply negb_true_iff in H
         | H : negb _ = false |- _ => apply negb_false_iff in H
         | H : (_ <=? _)%N = true |- _ => apply N.leb_le in H
         | H : (_ <=? _)%N = false |- _ => apply N.leb_gt in H
         | H : (_ =? _)%N = true |- _ => apply N.eqb_eq in H
         | H : (_ =? _)%N = false |- _ => apply N.eqb_neq in H
         end.

(** A character between "a" and U+00FE other than the two Latin-1 spaces is
    not white space. *)
Lemma letters_not_space : forall c,
  (97 <= c <= 254)%N -> c <> 133%N -> c <> 160%N -> isspace c = false.
Proof.
  intros c Hr H1 H2. unfold isspace, between.
  repeat (apply orb_false_intro);
    try (apply N.eqb_neq; lia);
    try (apply andb_false_iff;
         destruct (N.leb_spec 9 c), (N.leb_spec c 13), (N.leb_spec 28 c),
                  (N.leb_spec c 32), (N.leb_spec 8192 c), (N.leb_spec c 8202);
         auto; lia).
Qed.

Lemma tolower_not_space : forall c, isspace c = false -> isspace (tolower c) = false.
Proof.
  intros c Hc. unfold tolower.
  destruct (ascii_upper c || latin1_upper c) eqn:Eu.
  - unfold ascii_upper, latin1_upper, between in Eu. bools_to_props;
      apply letters_not_space; lia.
  - destruct (c =? 304)%N; [reflexivity|].
    destruct (c =? 8490)%N; [reflexivity|].
    destruct (c =? 8491)%N; [reflexivity | exact Hc].
Qed.

Lemma lower_not_blank : forall s c,
  In c s -> isspace c = false -> strip (lower s) <> [].
Proof.
  intros s c Hin Hc E. rewrite strip_empty_iff in E.
  assert (Hd : exists d, In d (lower_char c) /\ isspace d = false).
  { unfold lower_char. destruct (c =? 304)%N.
    - exists 105%N. split; [left; reflexivity | reflexivity].
    - exists (tolower c). split; [left; reflexivity | apply tolower_not_space; exact Hc]. }
  destruct Hd as (d & Hd & Hs).
  assert (Hl : In d (lower s))
    by (unfold lower; apply in_flat_map; exists c; split; assumption).
  rewrite (E d Hl) in Hs. discriminate.
Qed.

Lemma spaced_title_blank : forall t0 : str,
  strip (lower (if negb (is_empty (strip t0)) && negb (endswith (strip t0) [32%N])
                then strip t0 ++ [32%N] else strip t0)) = [] ->
  (if negb (is_empty (strip t0)) && negb (endswith (strip t0) [32%N])
   then strip t0 ++ [32%N] else strip t0) = [].
Proof.
  intros t0 H.
  destruct (strip_ends t0) as [E | [(c & r & E & Hc) _]].
  - rewrite E. reflexivity.
  - exfalso. revert H.
    destruct (negb (is_empty (strip t0)) && negb (endswith (strip t0) [32%N])).
    + apply (lower_not_blank (strip t0 ++ [32%N]) c); [|exact Hc].
      rewrite E. left. reflexivity.
    + apply (lower_not_blank (strip t0) c); [|exact Hc]. rewrite E. left. reflexivity.
Qed.

Lemma largest_font_title_blank : forall spans,
  strip (lower (largest_font_title spans)) = [] -> largest_font_title spans = [].
Proof.
  intros spans. unfold largest_font_title.
  destruct (filter (fun s => (page s =? 0)%Z) spans) as [|s0 rest];
    [reflexivity|].
  cbv zeta. apply spaced_title_blank.
Qed.

(** A title that is blank after lower-casing and stripping is empty. *)
Lemma title_blank_empty : forall spans,
  strip (lower (extract_document_title spans)) = [] ->
  extract_document_title spans = [].
Proof.
  intros spans. unfold extract_document_title. cbv zeta.
  destruct (window_scan _); [vm_compute; discriminate|].
  destruct (existsb fuzzy_form _); [vm_compute; discriminate|].
  destruct (existsb _ _); [vm_compute; discriminate|].
  destruct (existsb _ _ && existsb _ _); [vm_compute; discriminate|].
  destruct (existsb _ _); [vm_compute; discriminate|].
  destruct (existsb _ _); [reflexivity|].
  apply largest_font_title_blank.
Qed.

(** X6.  The title in the record of a document is always the title of the
    resolver: the event override, which writes an empty title, only fires
    when the resolver answered the empty title itself. *)
Theorem X6_title_is_resolved_title {ucd : Unicode} :
  forall (detect : str -> option str) (spans : list Span),
  title (main_document detect spans) = extract_document_title spans.
Proof.
  intros detect spans. destruct spans as [|s0 spans'].
  - vm_compute. reflexivity.
  - unfold main_document. cbv zeta.
    destruct (Py.eqb (language detect (s0 :: spans')) en) eqn:El;
      [|reflexivity].
    destruct (doc_type_of _ _ _) eqn:Ed; try reflexivity.
    cbn [andb title event_output]. symmetry.
    apply title_blank_empty.
    unfold doc_type_of in Ed. cbv zeta in Ed. rewrite El in Ed.
    destruct (is_event _ _) eqn:Ev.
    + unfold is_event in Ev. bools_to_props.
      match goal with H : Py.eqb _ [] = true |- _ => apply eqb_eq in H; exact H end.
    + repeat match type of Ed with
             | (if ?b then _ else _) = _ => destruct b; try discriminate
             end.
Qed.

(** ** Candidate detector and level classifier *)

(** The matcher only looks at its continuation through the answers of the
    continuation. *)
Lemma m_ext {ucd : Unicode} : forall ic n0 r s k k',
  (forall s', k s' = k' s') -> Re.m ic n0 r s k = Re.m ic n0 r s k'.
Proof.
  intros ic n0 r. induction r as [| | |c| |neg items|a IHa b IHb|a IHa b IHb|a IHa lo hi];
    intros s k k' H; cbn [Re.m].
  - apply H.
  - rewrite H. reflexivity.
  - destruct s as [|c [|d s]]; rewrite ?H; reflexivity.
  - destruct s as [|x s]; rewrite ?H; reflexivity.
  - destruct s as [|x s]; rewrite ?H; reflexivity.
  - destruct s as [|x s]; rewrite ?H; reflexivity.
  - apply IHa. intro s'. apply IHb. exact H.
  - rewrite (IHa s k k' H), (IHb s k k' H). reflexivity.
  - match goal with
    | |- ?f (length s) 0%nat s = ?g (length s) 0%nat s =>
      assert (L : forall fuel cnt s, f fuel cnt s = g fuel cnt s); [|apply L]
    end.
    induction fuel as [|f IHf]; intros cnt s1.
    + rewrite H. reflexivity.
    + rewrite H. destruct (if (lo <=? cnt)%nat then k' s1 else false); [reflexivity|].
      destruct (match hi with Some h => (cnt <? h)%nat | None => true end); [|reflexivity].
      apply IHa. intro s'. destruct (length s' <? length s1)%nat; [|reflexivity].
      apply IHf.
Qed.

(** A trailing [.*] matches the empty string: it adds nothing to a pattern
    that is matched from the start of the line. *)
Lemma seq_dot_star {ucd : Unicode} : forall ic n0 r s,
  Re.m ic n0 (Re.Seq r (Re.Rep Re.Dot 0 None)) s (fun _ => true)
  = Re.m ic n0 r s (fun _ => true).
Proof.
  intros ic n0 r s. cbn [Re.m]. apply m_ext. intro s'.
  destruct (length s'); reflexivity.
Qed.

(** Every line that matches the first H1 pattern, written for numbered
    sections, matches the last H3 pattern, which is the same pattern followed
    by [.*]. *)
Lemma numbered_shadowed {ucd : Unicode} : forall t,
  Re.match_i "^\d+\.\s+[A-Z]" t = true -> Re.match_i "^\d+\.\s+[A-Z].*" t = true.
Proof.
  intro t. unfold Re.match_i, Re.rmatch.
  set (p1 := Re.parse (lit "^\d+\.\s+[A-Z]")). vm_compute in p1. subst p1.
  set (p2 := Re.parse (lit "^\d+\.\s+[A-Z].*")). vm_compute in p2. subst p2.
  cbv iota beta. intro H.
  match goal with
  | |- Re.m ?ic ?n ?r2 ?s ?k = true =>
    match type of H with
    | Re.m _ _ ?r1 _ _ = true =>
      change (Re.m ic n (Re.Seq r1 (Re.Rep Re.Dot 0 None)) s k = true)
    end
  end.
  rewrite seq_dot_star. exact H.
Qed.

(** A line without word character and without white space matches the
    exclusion pattern for lines of symbols. *)
Lemma symbols_excluded {ucd : Unicode} : forall t,
  forallb (fun c => negb (isword c || isspace c)) t = true ->
  Re.match_i "^[^\w\s]*$" t = true.
Proof.
  intros t Ht. unfold Re.match_i, Re.rmatch.
  set (p1 := Re.parse (lit "^[^\w\s]*$")). vm_compute in p1. subst p1.
  cbv iota beta. cbn [Re.m]. rewrite Nat.eqb_refl.
  match goal with
  | |- ?f (length t) 0%nat t = true =>
    assert (L : forall s fuel cnt,
               (length s <= fuel)%nat ->
               forallb (fun c => negb (isword c || isspace c)) s = true ->
               f fuel cnt s = true); [|apply L; [lia | exact Ht]]
  end.
  clear t Ht. induction s as [|x s IH]; intros fuel cnt Hf Hs.
  - destruct fuel; reflexivity.
  - cbn [forallb] in Hs. apply andb_prop in Hs. destruct Hs as [Hx Hs].
    apply negb_true_iff in Hx. apply orb_false_elim in Hx. destruct Hx as [Hw Hsp].
    destruct fuel as [|f]; [cbn [length] in Hf; lia|].
    cbn [length] in Hf.
    match goal with |- (if ?c then true else _) = true => destruct c; [reflexivity|] end.
    cbn [Re.item_match existsb]. rewrite Hw, Hsp. cbn [orb xorb].
    cbn [length]. rewrite (proj2 (Nat.ltb_lt (length s) (S (length s)))) by lia.
    apply IH; [lia | exact Hs].
Qed.

(** X7.  Whatever the character database, the candidate detector only
    accepts lines of 3 to 200 characters that match no exclusion pattern, and
    such a line holds a word character or white space.  A line accepted for
    the archetype [other] is accepted for every archetype, and a line
    accepted for some archetype is accepted for [technical], [rfp] and
    [pathways]: the archetype can only add lines, and these three add the
    most. *)
Theorem X7_detector_guards {ucd : Unicode} :
  forall (t : str) (sp : Span) (st : DocStats) (dt : DocType),
  (is_likely_heading t sp st dt = true ->
   (3 <= length t <= 200)%nat
   /\ any_match_i exclude_patterns t = false
   /\ existsb (fun c => isword c || isspace c) t = true)
  /\ (is_likely_heading t sp st other = true ->
      forall dt', is_likely_heading t sp st dt' = true)
  /\ (is_likely_heading t sp st dt = true ->
      is_likely_heading t sp st technical = true
      /\ is_likely_heading t sp st rfp = true
      /\ is_likely_heading t sp st pathways = true).
Proof.
  intros t sp st dt. unfold is_likely_heading.
  split; [|split].
  - destruct (length_ok t) eqn:El; cbn [negb]; [|discriminate].
    destruct (any_match_i exclude_patterns t) eqn:Ex; [discriminate|].
    intros _. split; [|split; [reflexivity|]].
    + unfold length_ok in El. apply negb_true_iff, orb_false_elim in El.
      destruct El as [E1 E2].
      apply Nat.ltb_ge in E1. apply Nat.ltb_ge in E2. lia.
    + destruct (existsb (fun c => isword c || isspace c) t) eqn:Ew; [reflexivity|].
      exfalso.
      assert (Hs : Re.match_i "^[^\w\s]*$" t = true).
      { apply symbols_excluded. apply forallb_forall. intros c Hc.
        apply negb_true_iff.
        destruct (isword c || isspace c) eqn:Ec; [|reflexivity].
        assert (Hx : existsb (fun c => isword c || isspace c) t = true)
          by (apply existsb_exists; exists c; split; assumption).
        congruence. }
      assert (Hin : In "^[^\w\s]*$"%string exclude_patterns)
        by (unfold exclude_patterns; cbn [In]; tauto).
      assert (Hx : any_match_i exclude_patterns t = true).
      { unfold any_match_i. apply existsb_exists.
        exists "^[^\w\s]*$"%string. split; assumption. }
      congruence.
  - destruct (negb (length_ok t)); [discriminate|].
    destruct (any_match_i exclude_patterns t); [discriminate|].
    destruct (any_match_i heading_patterns t); [reflexivity | discriminate].
  - destruct (negb (length_ok t)); [discriminate|].
    destruct (any_match_i exclude_patterns t); [discriminate|].
    destruct (any_match_i heading_patterns t); [repeat split|].
    destruct dt; try discriminate; intro H; repeat split; exact H.
Qed.

Lemma X7_witness :
  (3 <= length (lit "Hello World") <= 200)%nat
  /\ existsb (fun c => isword c || isspace c) (lit "Hello World") = true
  /\ is_likely_heading (lit "Hello World")
                       (mkSpan (lit "Hello World") 10 [] 0 1 (0, 0, 0, 0)%Q 300)
                       (mkStats [] [] 0) pathways = true
  /\ is_likely_heading (lit "Введение:")
                       (mkSpan (lit "Введение:") 10 [] 0 1 (0, 0, 0, 0)%Q 300)
                       (mkStats [] [] 0) rfp = true.
Proof.
  destruct (X7_detector_guards (lit "Hello World")
              (mkSpan (lit "Hello World") 10 [] 0 1 (0, 0, 0, 0)%Q 300)
              (mkStats [] [] 0) other) as (Hg & Hm & _).
  destruct (X7_detector_guards (lit "Введение:")
              (mkSpan (lit "Введение:") 10 [] 0 1 (0, 0, 0, 0)%Q 300)
              (mkStats [] [] 0) other) as (_ & _ & Hp).
  split; [|split; [|split]].
  - apply Hg. vm_compute. reflexivity.
  - apply Hg. vm_compute. reflexivity.
  - apply Hm. vm_compute. reflexivity.
  - apply Hp. vm_compute. reflexivity.
Defined.

Lemma level_by_pattern_H4 {ucd : Unicode} : forall t,
  level_by_pattern t = Some H4 <-> any_match_i h4_patterns t = true.
Proof.
  intro t. unfold level_by_pattern.
  destruct (any_match_i h4_patterns t); [split; reflexivity|].
  destruct (any_match_i h3_patterns t); [split; discriminate|].
  destruct (any_match_i h2_patterns t); [split; discriminate|].
  destruct (any_match_i h1_patterns t); split; discriminate.
Qed.

Lemma Qle_bool_false : forall a b, Qle_bool a b = false -> (b < a)%Q.
Proof.
  intros a b H. apply Qnot_le_lt. intro Hle.
  apply Qle_bool_iff in Hle. congruence.
Qed.

(** X8.  Whatever the character database, the level classifier answers H4
    exactly when the H4 pattern matches, and the pattern lists are tried in
    the order H4, H3, H2, H1: the first list with a matching pattern gives
    the level.  When no pattern matches, the level comes from the percentile
    of the size of the span: H1 from 0.9, H2 from 0.75, H3 below, never H4.
    A line that matches the pattern for numbered sections of the H1 list is
    never answered H1, since the H3 list is tried before. *)
Theorem X8_level_tiers {ucd : Unicode} :
  forall (t : str) (si : SpanInfo) (st : DocStats),
  (classify_heading_level t si st = H4 <-> any_match_i h4_patterns t = true)
  /\ (any_match_i h4_patterns t = false -> any_match_i h3_patterns t = true ->
      classify_heading_level t si st = H3)
  /\ (any_match_i h4_patterns t = false -> any_match_i h3_patterns t = false ->
      any_match_i h2_patterns t = true ->
      classify_heading_level t si st = H2)
  /\ (any_match_i h4_patterns t = false -> any_match_i h3_patterns t = false ->
      any_match_i h2_patterns t = false -> any_match_i h1_patterns t = true ->
      classify_heading_level t si st = H1)
  /\ (any_match_i h4_patterns t = false -> any_match_i h3_patterns t = false ->
      any_match_i h2_patterns t = false -> any_match_i h1_patterns t = false ->
      ((9 # 10 <= percentile_get (size_percentile st) (info_size si))%Q ->
       classify_heading_level t si st = H1)
      /\ ((75 # 100 <= percentile_get (size_percentile st) (info_size si))%Q ->
          (percentile_get (size_percentile st) (info_size si) < 9 # 10)%Q ->
          classify_heading_level t si st = H2)
      /\ ((percentile_get (size_percentile st) (info_size si) < 75 # 100)%Q ->
          classify_heading_level t si st = H3))
  /\ (Re.match_i "^\d+\.\s+[A-Z]" t = true ->
      classify_heading_level t si st = H3 \/ classify_heading_level t si st = H4).
Proof.
  intros t si st. unfold classify_heading_level. cbv zeta.
  split; [|split; [|split; [|split; [|split]]]].
  - rewrite <- level_by_pattern_H4.
    destruct (level_by_pattern t) as [l|].
    + split; [intros ->; reflexivity | intro H; injection H as ->; reflexivity].
    + split; [|discriminate]. unfold level_by_percentile.
      destruct (Qle_bool _ _); [discriminate|].
      destruct (Qle_bool _ _); [discriminate|].
      destruct (Qle_bool _ _); discriminate.
  - intros H4 H3. unfold level_by_pattern. rewrite H4, H3. reflexivity.
  - intros H4 H3 H2. unfold level_by_pattern. rewrite H4, H3, H2. reflexivity.
  - intros H4 H3 H2 H1. unfold level_by_pattern. rewrite H4, H3, H2, H1. reflexivity.
  - intros H4 H3 H2 H1. unfold level_by_pattern. rewrite H4, H3, H2, H1.
    unfold level_by_percentile.
    set (p := percentile_get _ _). split; [|split].
    + intro H. apply Qle_bool_iff in H. rewrite H. reflexivity.
    + intros H75 H9.
      destruct (Qle_bool (9 # 10) p) eqn:E9.
      * apply Qle_bool_iff in E9. exfalso. exact (Qlt_not_le _ _ H9 E9).
      * apply Qle_bool_iff in H75. rewrite H75. reflexivity.
    + intro H.
      destruct (Qle_bool (9 # 10) p) eqn:E9.
      * apply Qle_bool_iff in E9. exfalso.
        apply (Qlt_not_le _ _ H). eapply Qle_trans; [|exact E9]. discriminate.
      * destruct (Qle_bool (75 # 100) p) eqn:E75.
        -- apply Qle_bool_iff in E75. exfalso. exact (Qlt_not_le _ _ H E75).
        -- destruct (Qle_bool (5 # 10) p); reflexivity.
  - intro Hn. apply numbered_shadowed in Hn.
    assert (H3 : any_match_i h3_patterns t = true).
    { unfold any_match_i. apply existsb_exists.
      exists "^\d+\.\s+[A-Z].*"%string. split; [|exact Hn].
      unfold h3_patterns. cbn [In]. tauto. }
    unfold level_by_pattern. rewrite H3.
    destruct (any_match_i h4_patterns t); [right | left]; reflexivity.
Qed.

Lemma X8_witness :
  classify_heading_level (lit "For each thing it could mean:") (PageOnly 0)
                         (mkStats [] [] 0) = H4
  /\ classify_heading_level (lit "Timeline:") (PageOnly 0) (mkStats [] [] 0) = H3
  /\ classify_heading_level (lit "Milestones") (PageOnly 0) (mkStats [] [] 0) = H2
  /\ classify_heading_level (lit "Business Plan") (PageOnly 0) (mkStats [] [] 0) = H1
  /\ classify_heading_level (lit "Ontario’s Digital Library ") (PageOnly 0)
                            (mkStats [] [] 0) = H3
  /\ (classify_heading_level (lit "4. References ") (PageOnly 0) (mkStats [] [] 0) = H3
      \/ classify_heading_level (lit "4. References ") (PageOnly 0) (mkStats [] [] 0)
         = H4).
Proof.
  split; [|split; [|split; [|split; [|split]]]].
  - apply (proj1 (X8_level_tiers (lit "For each thing it could mean:") (PageOnly 0)
                         (mkStats [] [] 0))).
    vm_compute. reflexivity.
  - apply (proj1 (proj2 (X8_level_tiers (lit "Timeline:") (PageOnly 0) (mkStats [] [] 0))));
      vm_compute; reflexivity.
  - apply (proj1 (proj2 (proj2 (X8_level_tiers (lit "Milestones") (PageOnly 0)
                                       (mkStats [] [] 0)))));
      vm_compute; reflexivity.
  - apply (proj1 (proj2 (proj2 (proj2 (X8_level_tiers (lit "Business Plan") (PageOnly 0)
                                              (mkStats [] [] 0))))));
      vm_compute; reflexivity.
  - apply (proj1 (proj2 (proj2 (proj2 (proj2
             (X8_level_tiers (lit "Ontario’s Digital Library ") (PageOnly 0)
                     (mkStats [] [] 0))))))).
    + vm_compute. reflexivity.
    + vm_compute. reflexivity.
    + vm_compute. reflexivity.
    + vm_compute. reflexivity.
    + vm_compute. reflexivity.
  - apply (proj2 (proj2 (proj2 (proj2 (proj2
             (X8_level_tiers (lit "4. References ") (PageOnly 0) (mkStats [] [] 0))))))).
    vm_compute. reflexivity.
Defined.

(** ** Percentiles and scores *)

Lemma sorted_nth_lt : forall l i j u v,
  StronglySorted Qlt l -> (i < j)%nat ->
  nth_error l i = Some u -> nth_error l j = Some v -> (u < v)%Q.
Proof.
  induction l as [|h t IH]; intros i j u v Hs Hij Hi Hj.
  - destruct i; discriminate.
  - inversion Hs as [|? ? Ht Hh]; subst.
    destruct j as [|j']; [lia|]. cbn [nth_error] in Hj.
    destruct i as [|i'].
    + injection Hi as <-. rewrite Forall_forall in Hh.
      apply Hh. eapply nth_error_In. exact Hj.
    + cbn [nth_error] in Hi. apply (IH i' j'); [assumption | lia | assumption..].
Qed.

Lemma sorted_index_lt : forall l i j u v,
  StronglySorted Qlt l ->
  nth_error l i = Some u -> nth_error l j = Some v -> (u < v)%Q -> (i < j)%nat.
Proof.
  intros l i j u v Hs Hi Hj Huv.
  destruct (Nat.lt_trichotomy i j) as [H | [-> | H]]; [exact H | |].
  - rewrite Hi in Hj. injection Hj as ->. exfalso. exact (Qlt_irrefl _ Huv).
  - exfalso. pose proof (sorted_nth_lt l j i v u Hs H Hj Hi) as Hvu.
    exact (Qlt_irrefl _ (Qlt_trans _ _ _ Huv Hvu)).
Qed.

Lemma present_index : forall spans s,
  In s spans ->
  exists i u, nth_error (sorted_set (map size spans)) i = Some u /\ (u == size s)%Q.
Proof.
  intros spans s Hs.
  destruct (proj1 (sorted_set_spec (map size spans) (size s))) as (u & Hu & Eu).
  - exists (size s). split; [apply in_map; exact Hs | reflexivity].
  - destruct (In_nth_error _ _ Hu) as (i & Hi). exists i, u. split; assumption.
Qed.

Lemma Qnat_le : forall a b, (a <= b)%nat -> (Qnat a <= Qnat b)%Q.
Proof. intros a b H. unfold Qnat. rewrite <- Zle_Qle. lia. Qed.

Lemma Qnat_lt : forall a b, (a < b)%nat -> (Qnat a < Qnat b)%Q.
Proof. intros a b H. unfold Qnat. rewrite <- Zlt_Qlt. lia. Qed.

Lemma percentile_of_range : forall n i,
  (i < n)%nat -> (0 <= percentile_of n i <= 1)%Q.
Proof.
  intros n i H. unfold percentile_of.
  destruct (1 <? n)%nat eqn:E; [|split; discriminate].
  apply Nat.ltb_lt in E.
  assert (Hc : (0 < Qnat (n - 1))%Q) by (apply (Qnat_lt 0); lia).
  split.
  - apply Qle_shift_div_l; [exact Hc|]. rewrite Qmult_0_l. apply (Qnat_le 0). lia.
  - apply Qle_shift_div_r; [exact Hc|]. rewrite Qmult_1_l. apply Qnat_le. lia.
Qed.

Lemma percentile_of_lt : forall n i j,
  (i < j)%nat -> (j < n)%nat -> (percentile_of n i < percentile_of n j)%Q.
Proof.
  intros n i j Hij Hj. unfold percentile_of.
  assert (E : (1 <? n)%nat = true) by (apply Nat.ltb_lt; lia).
  rewrite E. unfold Qdiv. apply Qmult_lt_compat_r.
  - apply Qinv_lt_0_compat. apply (Qnat_lt 0). lia.
  - apply Qnat_lt. exact Hij.
Qed.

Lemma percentile_of_last : forall n, (0 < n)%nat -> (percentile_of n (n - 1) == 1)%Q.
Proof.
  intros n H. unfold percentile_of.
  destruct (1 <? n)%nat eqn:E; [|reflexivity].
  apply Nat.ltb_lt in E. unfold Qdiv. apply Qmult_inv_r.
  intro H0. assert (Hc : (0 < Qnat (n - 1))%Q) by (apply (Qnat_lt 0); lia).
  rewrite H0 in Hc. exact (Qlt_irrefl _ Hc).
Qed.

(** A lookup answers the default 0 or the value stored under a key equal to
    the one asked for. *)
Lemma percentile_get_cases : forall d q,
  percentile_get d q = 0%Q
  \/ exists k v, In (k, v) d /\ (q == k)%Q /\ percentile_get d q = v.
Proof.
  induction d as [|[k v] d IH]; intro q; simpl; [left; reflexivity|].
  destruct (Qeq_bool q k) eqn:E.
  - right. exists k, v. split; [left; reflexivity|].
    split; [apply Qeq_bool_iff; exact E | reflexivity].
  - destruct (IH q) as [H | (k' & v' & Hin & Hq & Hv)]; [left; exact H|].
    right. exists k', v'. split; [right; exact Hin | split; assumption].
Qed.

Lemma size_percentile_entries : forall spans k v,
  In (k, v) (size_percentile (analyze_document_structure spans)) ->
  exists i, nth_error (sorted_set (map size spans)) i = Some k
            /\ v = percentile_of (length (sorted_set (map size spans))) i.
Proof.
  intros spans k v H. rewrite size_percentile_eq in H.
  apply in_map_iff in H. destruct H as ([sz rank] & E & H).
  injection E as <- <-.
  apply in_map_iff in H. destruct H as ([r u] & E & H).
  cbn [fst snd] in E. injection E as <- <-.
  unfold enumerate in H. apply in_enumerate in H.
  rewrite Nat.sub_0_r in H. destruct H as [_ H].
  exists r. split; [exact H | reflexivity].
Qed.

Lemma percentile_present : forall spans s,
  In s spans ->
  exists i u,
    nth_error (sorted_set (map size spans)) i = Some u /\ (u == size s)%Q
    /\ percentile_get (size_percentile (analyze_document_structure spans)) (size s)
       = percentile_of (length (sorted_set (map size spans))) i.
Proof.
  intros spans s Hs. destruct (present_index spans s Hs) as (i & u & Hi & Eu).
  exists i, u. split; [exact Hi|]. split; [exact Eu|].
  rewrite size_percentile_eq. unfold enumerate.
  rewrite (percentile_get_rank _ _ 0 i u (size s) (sorted_set_sorted _) Hi);
    [reflexivity | symmetry; exact Eu].
Qed.

Lemma percentile_range : forall spans q,
  (0 <= percentile_get (size_percentile (analyze_document_structure spans)) q
   <= 1)%Q.
Proof.
  intros spans q.
  destruct (percentile_get_cases
              (size_percentile (analyze_document_structure spans)) q)
    as [-> | (k & v & Hin & _ & ->)]; [split; discriminate|].
  apply size_percentile_entries in Hin. destruct Hin as (i & Hi & ->).
  apply percentile_of_range. apply nth_error_Some. congruence.
Qed.

Lemma percentile_increasing : forall spans s1 s2,
  In s1 spans -> In s2 spans -> (size s1 < size s2)%Q ->
  (percentile_get (size_percentile (analyze_document_structure spans)) (size s1)
   < percentile_get (size_percentile (analyze_document_structure spans))
                    (size s2))%Q.
Proof.
  intros spans s1 s2 H1 H2 Hlt.
  destruct (percentile_present spans s1 H1) as (i & u & Hi & Eu & ->).
  destruct (percentile_present spans s2 H2) as (j & v & Hj & Ev & ->).
  apply percentile_of_lt.
  - apply (sorted_index_lt _ i j u v (sorted_set_sorted _) Hi Hj).
    rewrite Eu, Ev. exact Hlt.
  - apply nth_error_Some. congruence.
Qed.

Lemma percentile_largest : forall spans s,
  In s spans -> (forall s', In s' spans -> (size s' <= size s)%Q) ->
  (percentile_get (size_percentile (analyze_document_structure spans)) (size s)
   == 1)%Q.
Proof.
  intros spans s Hs Hmax.
  destruct (percentile_present spans s Hs) as (i & u & Hi & Eu & ->).
  set (us := sorted_set (map size spans)) in *.
  assert (Hlt : (i < length us)%nat) by (apply nth_error_Some; congruence).
  assert (Hi' : i = (length us - 1)%nat).
  { destruct (Nat.eq_dec i (length us - 1)) as [E | Hne]; [exact E|]. exfalso.
    destruct (nth_error us (S i)) as [v|] eqn:Hv;
      [|apply nth_error_None in Hv; lia].
    pose proof (sorted_nth_lt us i (S i) u v (sorted_set_sorted _)
                              (Nat.lt_succ_diag_r i) Hi Hv) as Huv.
    destruct (proj2 (sorted_set_spec (map size spans) v)) as (z & Hz & Ez).
    - exists v. split; [eapply nth_error_In; exact Hv | reflexivity].
    - apply in_map_iff in Hz. destruct Hz as (s' & <- & Hs').
      specialize (Hmax s' Hs'). rewrite Ez, <- Eu in Hmax.
      exact (Qlt_not_le _ _ Huv Hmax). }
  rewrite Hi'. apply percentile_of_last. lia.
Qed.

Lemma percentile_absent : forall spans q,
  (forall s, In s spans -> ~ (size s == q)%Q) ->
  percentile_get (size_percentile (analyze_document_structure spans)) q = 0%Q.
Proof.
  intros spans q Habs.
  destruct (percentile_get_cases
              (size_percentile (analyze_document_structure spans)) q)
    as [E | (k & v & Hin & Hq & _)]; [exact E|]. exfalso.
  apply size_percentile_entries in Hin. destruct Hin as (i & Hi & _).
  destruct (proj2 (sorted_set_spec (map size spans) k)) as (z & Hz & Ez).
  - exists k. split; [eapply nth_error_In; exact Hi | reflexivity].
  - apply in_map_iff in Hz. destruct Hz as (s & <- & Hs).
    apply (Habs s Hs). rewrite Ez. symmetry. exact Hq.
Qed.

(** X9.  The percentile looked up for any size lies between 0 and 1; among
    the sizes of the document it grows strictly with the size; the largest
    size has percentile 1; and a size that no span has gets the default 0. *)
Theorem X9_percentile_order : forall (spans : list Span),
  (forall q,
     (0 <= percentile_get (size_percentile (analyze_document_structure spans)) q
      <= 1)%Q)
  /\ (forall s1 s2, In s1 spans -> In s2 spans -> (size s1 < size s2)%Q ->
        (percentile_get (size_percentile (analyze_document_structure spans)) (size s1)
         < percentile_get (size_percentile (analyze_document_structure spans))
                          (size s2))%Q)
  /\ (forall s, In s spans -> (forall s', In s' spans -> (size s' <= size s)%Q) ->
        (percentile_get (size_percentile (analyze_document_structure spans)) (size s)
         == 1)%Q)
  /\ (forall q, (forall s, In s spans -> ~ (size s == q)%Q) ->
        percentile_get (size_percentile (analyze_document_structure spans)) q = 0%Q).
Proof.
  intro spans. split; [|split; [|split]].
  - apply percentile_range.
  - apply percentile_increasing.
  - apply percentile_largest.
  - apply percentile_absent.
Qed.

Lemma X9_witness :
  (percentile_get
     (size_percentile (analyze_document_structure (extract_spans repeated_doc))) 10
   < percentile_get
       (size_percentile (analyze_document_structure (extract_spans repeated_doc))) 20)%Q
  /\ percentile_get
       (size_percentile (analyze_document_structure (extract_spans repeated_doc))) 0
     = 0%Q.
Proof.
  destruct (X9_percentile_order (extract_spans repeated_doc))
    as (_ & Hlt & _ & Habs).
  split.
  - apply (Hlt (mkSpan (lit "Hello World") 10 [] 0 1 (72, 300, 540, 310)%Q 300)
               (mkSpan (lit "Annual Report") 20 [] 0 0 (72, 100, 540, 120)%Q 100)).
    + vm_compute. right. left. reflexivity.
    + vm_compute. left. reflexivity.
    + reflexivity.
  - apply Habs. intros s Hs.
    vm_compute in Hs. destruct Hs as [<- | [<- | [<- | []]]]; discriminate.
Defined.

Lemma bold_score_range : forall s, (0 <= bold_score s <= 2)%Q.
Proof. intro s. unfold bold_score. destruct (negb _); split; discriminate. Qed.

Lemma pattern_score_range {ucd : Unicode} :
  forall t, (0 <= pattern_score t <= 3)%Q.
Proof.
  intro t. unfold pattern_score.
  destruct (Re.match_ _ t); [split; discriminate|].
  destruct (Re.match_ _ t); [split; discriminate|].
  destruct (mem t canonical_sections); [split; discriminate|].
  destruct (Re.match_ _ t); split; discriminate.
Qed.

Lemma page_score_range : forall s, (0 <= page_score s <= 1)%Q.
Proof. intro s. unfold page_score. destruct (page s =? 0)%Z; split; discriminate. Qed.

Lemma top_score_range : forall s, (0 <= top_score s <= 5 # 10)%Q.
Proof. intro s. unfold top_score. destruct (Qlt_bool _ _); split; discriminate. Qed.

(** X10.  With the statistics of any document the importance score lies
    between 0 and 9.5, and stays at most 7.5 on a span without the bold flag;
    a span in the largest font of the document scores at least 3, above the
    1.5 that the generic filter asks for. *)
Theorem X10_score_bounds {ucd : Unicode} :
  forall (spans : list Span) (t : str) (s : Span),
  (0 <= calculate_heading_importance t s (analyze_document_structure spans)
   <= 19 # 2)%Q
  /\ (flags s = 0%Z ->
      (calculate_heading_importance t s (analyze_document_structure spans)
       <= 15 # 2)%Q)
  /\ (In s spans -> (forall s', In s' spans -> (size s' <= size s)%Q) ->
      (3 <= calculate_heading_importance t s (analyze_document_structure spans))%Q
      /\ forall lv si,
           retained {| h_level := lv; h_text := t; h_span := si;
                       h_score := calculate_heading_importance
                                    t s (analyze_document_structure spans) |}
           = true).
Proof.
  intros spans t s.
  pose proof (percentile_largest spans s) as Hmax.
  pose proof (percentile_range spans (size s)) as Hp.
  pose proof (bold_score_range s) as Hb.
  pose proof (pattern_score_range t) as Hpt.
  pose proof (page_score_range s) as Hpg.
  pose proof (top_score_range s) as Htp.
  unfold calculate_heading_importance, size_score.
  set (p := percentile_get _ _) in *.
  split; [split; lra|]. split.
  - intro Hf. assert (E : bold_score s = 0%Q)
      by (unfold bold_score; rewrite Hf; reflexivity).
    rewrite E. lra.
  - intros Hs Hlargest. specialize (Hmax Hs Hlargest). fold p in Hmax.
    assert (H3 : (3 <= 0 + p * 3 + bold_score s + pattern_score t + page_score s
                       + top_score s)%Q) by lra.
    split; [exact H3|]. intros lv si. unfold retained. cbn [h_score].
    apply orb_true_iff. left. unfold Qlt_bool. apply negb_true_iff.
    destruct (Qle_bool _ _) eqn:E; [|reflexivity].
    apply Qle_bool_iff in E. lra.
Qed.

Lemma X10_witness :
  (calculate_heading_importance
     (lit "Annual Report")
     (mkSpan (lit "Annual Report") 20 [] 0 0 (72, 100, 540, 120)%Q 100)
     (analyze_document_structure (extract_spans repeated_doc)) <= 15 # 2)%Q
  /\ (3 <= calculate_heading_importance
             (lit "Annual Report")
             (mkSpan (lit "Annual Report") 20 [] 0 0 (72, 100, 540, 120)%Q 100)
             (analyze_document_structure (extract_spans repeated_doc)))%Q.
Proof.
  destruct (X10_score_bounds (extract_spans repeated_doc) (lit "Annual Report")
              (mkSpan (lit "Annual Report") 20 [] 0 0 (72, 100, 540, 120)%Q 100))
    as (_ & Hplain & Hlargest).
  split; [apply Hplain; reflexivity|].
  apply Hlargest.
  - vm_compute. left. reflexivity.
  - intros s' Hs'. vm_compute in Hs'.
    destruct Hs' as [<- | [<- | [<- | []]]]; vm_compute; discriminate.
Defined.

(** ** Sorting by score *)

Lemma insert_by_score_perm : forall h l, Permutation (insert_by_score h l) (h :: l).
Proof.
  intros h l. induction l as [|g r IH]; simpl; [apply Permutation_refl|].
  destruct (Qlt_bool (h_score h) (h_score g)); [|apply Permutation_refl].
  eapply Permutation_trans; [apply perm_skip; exact IH | apply perm_swap].
Qed.

Lemma sort_by_score_perm : forall l, Permutation (sort_by_score l) l.
Proof.
  induction l as [|h l IH]; simpl; [constructor|].
  eapply Permutation_trans; [apply insert_by_score_perm|].
  apply perm_skip. exact IH.
Qed.

(** Inserting [h] moves it only past headings of strictly larger score. *)
Lemma insert_by_score_filter : forall (f : Heading -> bool) h l,
  (forall g, f g = true -> Qlt_bool (h_score h) (h_score g) = true -> f h = false) ->
  filter f (insert_by_score h l) = filter f (h :: l).
Proof.
  intros f h l Hf. induction l as [|g r IH]; [reflexivity|].
  cbn [insert_by_score].
  destruct (Qlt_bool (h_score h) (h_score g)) eqn:E; [|reflexivity].
  cbn [filter] in *. rewrite IH.
  destruct (f g) eqn:Eg; [|reflexivity].
  rewrite (Hf g Eg E). reflexivity.
Qed.

(** X11.  Sorting the candidates rearranges them (nothing is lost, added or
    repeated), puts them in descending score order, and is stable: the
    candidates of any one score keep the order they had in the document. *)
Theorem X11_sort_stable : forall (l : list Heading),
  Permutation (sort_by_score l) l
  /\ StronglySorted score_ge (sort_by_score l)
  /\ forall q, filter (fun h => Qeq_bool (h_score h) q) (sort_by_score l)
               = filter (fun h => Qeq_bool (h_score h) q) l.
Proof.
  intro l. split; [apply sort_by_score_perm|].
  split; [apply sort_by_score_sorted|].
  intro q. induction l as [|h l IH]; [reflexivity|].
  cbn [sort_by_score fold_right]. fold (sort_by_score l).
  rewrite insert_by_score_filter.
  - cbn [filter]. rewrite IH. reflexivity.
  - intros g Hg Hlt. apply Qeq_bool_iff in Hg. apply Qlt_bool_true in Hlt.
    destruct (Qeq_bool (h_score h) q) eqn:E; [|reflexivity].
    apply Qeq_bool_iff in E. rewrite E, Hg in Hlt.
    exfalso. exact (Qlt_irrefl _ Hlt).
Qed.

(** ** The filter on the archetypes without a table *)

Lemma Subseq_refl : forall (A : Type) (l : list A), Subseq l l.
Proof. induction l; constructor; assumption. Qed.

Lemma Subseq_filter : forall (A : Type) (f : A -> bool) (l : list A),
  Subseq (filter f l) l.
Proof.
  intros A f l. induction l as [|x l IH]; simpl; [constructor|].
  destruct (f x); constructor; exact IH.
Qed.

Lemma Subseq_length : forall (A : Type) (l r : list A),
  Subseq l r -> (length l <= length r)%nat.
Proof. intros A l r H. induction H; simpl; lia. Qed.

Lemma Subseq_In : forall (A : Type) (l r : list A) (x : A),
  Subseq l r -> In x l -> In x r.
Proof.
  intros A l r x H. induction H; simpl; intro Hin; auto.
  destruct Hin as [E | Hin]; auto.
Qed.

Lemma generic_filter_Subseq : forall l seen, Subseq (generic_filter seen l) l.
Proof.
  induction l as [|h l IH]; intro seen; simpl; [constructor|].
  destruct (mem (text_norm h) seen); [constructor; apply IH|].
  destruct (retained h); constructor; apply IH.
Qed.

Lemma mem_In : forall x l, mem x l = true <-> In x l.
Proof.
  intros x l. unfold mem. rewrite existsb_exists. split.
  - intros (z & Hz & E). apply eqb_eq in E. subst. exact Hz.
  - intro H. exists x. split; [exact H | apply eqb_refl].
Qed.

Lemma generic_filter_keys : forall l seen,
  NoDup (map text_norm (generic_filter seen l))
  /\ forall h, In h (generic_filter seen l) ->
               ~ In (text_norm h) seen /\ retained h = true.
Proof.
  induction l as [|h l IH]; intro seen; simpl.
  - split; [constructor | intros h []].
  - destruct (mem (text_norm h) seen) eqn:Em; [apply IH|].
    assert (Hns : ~ In (text_norm h) seen)
      by (intro H; apply mem_In in H; congruence).
    destruct (IH (text_norm h :: seen)) as [Hnd Hall].
    destruct (retained h) eqn:Er.
    + split.
      * cbn [map]. constructor; [|exact Hnd].
        intro Hin. apply in_map_iff in Hin. destruct Hin as (g & Eg & Hg).
        apply (proj1 (Hall g Hg)). left. symmetry. exact Eg.
      * intros g [<- | Hg]; [split; assumption|].
        destruct (Hall g Hg) as [H1 H2]. split; [|exact H2].
        intro H. apply H1. right. exact H.
    + split; [exact Hnd|]. intros g Hg.
      destruct (Hall g Hg) as [H1 H2]. split; [|exact H2].
      intro H. apply H1. right. exact H.
Qed.

Lemma generic_filter_fixed : forall l seen,
  NoDup (map text_norm l) ->
  (forall h, In h l -> ~ In (text_norm h) seen /\ retained h = true) ->
  generic_filter seen l = l.
Proof.
  induction l as [|h l IH]; intros seen Hnd Hall; [reflexivity|].
  cbn [generic_filter].
  destruct (Hall h (or_introl eq_refl)) as [Hns Hr].
  destruct (mem (text_norm h) seen) eqn:Em; [apply mem_In in Em; contradiction|].
  rewrite Hr. f_equal. cbn [map] in Hnd. inversion Hnd as [|? ? Hni Hnd']; subst.
  apply IH; [exact Hnd'|].
  intros g Hg. destruct (Hall g (or_intror Hg)) as [H1 H2]. split; [|exact H2].
  intros [E | H]; [|contradiction].
  apply Hni. rewrite E. apply in_map. exact Hg.
Qed.

Lemma Subseq_nil_l : forall (A : Type) (l : list A), Subseq [] l.
Proof. induction l; constructor; assumption. Qed.

Lemma filter_headings_Subseq {ucd : Unicode} : forall hs dt,
  dt <> technical -> dt <> rfp -> Subseq (filter_headings hs dt) hs.
Proof.
  intros hs dt Ht Hr. destruct dt; unfold filter_headings; try congruence.
  - apply generic_filter_Subseq.
  - apply Subseq_nil_l.
  - apply Subseq_filter.
  - apply generic_filter_Subseq.
Qed.

(** X12.  For the archetypes without a table the filter only drops
    candidates: its result is a subsequence of the candidates it was given
    (so never longer, never reordered, nothing invented), and it is empty for
    [form]. *)
Theorem X12_filter_subsequence {ucd : Unicode} :
  forall (hs : list Heading) (dt : DocType),
  dt <> technical -> dt <> rfp ->
  Subseq (filter_headings hs dt) hs
  /\ (length (filter_headings hs dt) <= length hs)%nat
  /\ (dt = form -> filter_headings hs dt = []).
Proof.
  intros hs dt Ht Hr.
  pose proof (filter_headings_Subseq hs dt Ht Hr) as H.
  split; [exact H|]. split; [apply Subseq_length; exact H|].
  intros ->. reflexivity.
Qed.

Lemma X12_witness :
  (length (filter_headings
             (sort_by_score
                (candidates en other
                            (analyze_document_structure (extract_spans repeated_doc))
                            (extract_spans repeated_doc)))
             other) <= 3)%nat.
Proof.
  apply (X12_filter_subsequence
           (sort_by_score
              (candidates en other
                          (analyze_document_structure (extract_spans repeated_doc))
                          (extract_spans repeated_doc)))
           other); discriminate.
Defined.

(** X13.  In the result of the generic filter no two headings share a
    normalized key and every heading passes the retention test; filtering the
    result again changes nothing.  The same holds of the pathways filter. *)
Theorem X13_filter_idempotent {ucd : Unicode} : forall (hs : list Heading),
  NoDup (map text_norm (filter_headings hs other))
  /\ (forall h, In h (filter_headings hs other) -> retained h = true)
  /\ filter_headings (filter_headings hs other) other = filter_headings hs other
  /\ filter_headings (filter_headings hs pathways) pathways
     = filter_headings hs pathways.
Proof.
  intro hs. unfold filter_headings.
  destruct (generic_filter_keys hs []) as [Hnd Hall].
  split; [exact Hnd|]. split; [intros h Hh; apply (Hall h Hh)|].
  split; [|apply filter_idem].
  apply generic_filter_fixed; [exact Hnd|].
  intros h Hh. split; [intros [] | apply (Hall h Hh)].
Qed.

Lemma X13_witness :
  retained (mkHeading None (lit "Annual Report")
                      (OfSpan (mkSpan (lit "Annual Report") 20 [] 0 0
                                      (72, 100, 540, 120)%Q 100))
                      (45 # 10)) = true.
Proof.
  apply (proj1 (proj2 (X13_filter_idempotent
                         [ mkHeading None (lit "Annual Report")
                                     (OfSpan (mkSpan (lit "Annual Report") 20 [] 0 0
                                                     (72, 100, 540, 120)%Q 100))
                                     (45 # 10) ]))).
  vm_compute. left. reflexivity.
Defined.

(** ** Literal reconciliation: which candidate, which page *)

Lemma best_step_page {ucd : Unicode} : forall idx n msp b h,
  best_page (best_step idx n msp b h) = page_step idx n msp (best_page b) h.
Proof.
  intros idx n msp b h. unfold best_step, page_step.
  destruct (qualifies idx n msp h); [|reflexivity].
  destruct b as [g|]; [|reflexivity]. cbn [best_page option_map].
  destruct (Z.ltb_spec (info_page (h_span h)) (info_page (h_span g)));
    cbn [best_page option_map]; f_equal; lia.
Qed.

Lemma best_fold_page {ucd : Unicode} : forall idx n msp l b,
  best_page (fold_left (best_step idx n msp) l b)
  = fold_left (page_step idx n msp) l (best_page b).
Proof.
  intros idx n msp l. induction l as [|h l IH]; intro b; [reflexivity|].
  cbn [fold_left]. rewrite IH, best_step_page. reflexivity.
Qed.

Lemma fold_left_perm : forall (A B : Type) (f : A -> B -> A) (l l' : list B),
  (forall a x z, f (f a x) z = f (f a z) x) ->
  Permutation l l' -> forall a, fold_left f l a = fold_left f l' a.
Proof.
  intros A B f l l' Hf Hp. induction Hp; intro a; cbn [fold_left].
  - reflexivity.
  - apply IHHp.
  - rewrite Hf. reflexivity.
  - rewrite IHHp1. apply IHHp2.
Qed.

Lemma page_step_comm {ucd : Unicode} : forall idx n msp a x z,
  page_step idx n msp (page_step idx n msp a x) z
  = page_step idx n msp (page_step idx n msp a z) x.
Proof.
  intros idx n msp a x z. unfold page_step.
  destruct (qualifies idx n msp x), (qualifies idx n msp z); try reflexivity.
  destruct a; f_equal; lia.
Qed.

Lemma best_match_perm {ucd : Unicode} : forall idx n msp hs hs',
  Permutation hs hs' ->
  best_page (best_match idx n msp hs) = best_page (best_match idx n msp hs').
Proof.
  intros idx n msp hs hs' Hp. unfold best_match. rewrite !best_fold_page.
  apply fold_left_perm; [apply page_step_comm | exact Hp].
Qed.

Lemma toc_end_page_perm {ucd : Unicode} : forall hs hs',
  Permutation hs hs' -> toc_end_page hs = toc_end_page hs'.
Proof.
  intros hs hs' Hp. unfold toc_end_page. apply fold_left_perm; [|exact Hp].
  intros a x z.
  destruct (startswith (norm (h_text x)) (norm (lit "Table of Contents")));
    destruct (startswith (norm (h_text z)) (norm (lit "Table of Contents")));
    try reflexivity.
  lia.
Qed.

Lemma reconcile_from_ext {ucd : Unicode} : forall hs hs' msp,
  (forall idx n, best_page (best_match idx n msp hs)
                 = best_page (best_match idx n msp hs')) ->
  forall l k last_page ne,
    reconcile_from hs msp k last_page ne l = reconcile_from hs' msp k last_page ne l.
Proof.
  intros hs hs' msp H l. induction l as [|[t lv] l IH]; intros k last_page ne;
    [reflexivity|].
  cbn [reconcile_from]. specialize (H k (norm t)).
  destruct (best_match k (norm t) msp hs) as [b|],
           (best_match k (norm t) msp hs') as [b'|];
    cbn [best_page option_map] in H; try discriminate.
  - injection H as ->. rewrite IH. reflexivity.
  - rewrite IH. reflexivity.
Qed.

(** X14.  Literal reconciliation does not depend on the order of the
    candidates: two candidate lists that are rearrangements of one another
    give the same output for [technical] and [rfp].  In particular the score
    sort that precedes the filter has no effect there. *)
Theorem X14_reconcile_order_free {ucd : Unicode} :
  forall (hs hs' : list Heading) (dt : DocType),
  dt = technical \/ dt = rfp ->
  (Permutation hs hs' -> filter_headings hs dt = filter_headings hs' dt)
  /\ filter_headings (sort_by_score hs) dt = filter_headings hs dt.
Proof.
  intros hs hs' dt Hdt.
  assert (H : forall a b, Permutation a b -> filter_headings a dt = filter_headings b dt).
  { intros a b Hp.
    assert (E : forall expected, reconcile a expected = reconcile b expected).
    { intro expected. rewrite !reconcile_eq, (toc_end_page_perm a b Hp).
      apply reconcile_from_ext. intros idx n. apply best_match_perm. exact Hp. }
    destruct Hdt as [-> | ->]; unfold filter_headings; apply E. }
  split; [apply H|]. apply H. apply sort_by_score_perm.
Qed.

Lemma X14_witness :
  filter_headings
    (sort_by_score
       (candidates en technical
                   (analyze_document_structure (extract_spans references_doc))
                   (extract_spans references_doc)))
    technical
  = filter_headings
      (candidates en technical
                  (analyze_document_structure (extract_spans references_doc))
                  (extract_spans references_doc))
      technical.
Proof.
  apply (X14_reconcile_order_free
           (candidates en technical
                       (analyze_document_structure (extract_spans references_doc))
                       (extract_spans references_doc))
           [] technical).
  left. reflexivity.
Defined.

Lemma best_fold_spec {ucd : Unicode} : forall idx n msp l b h,
  fold_left (best_step idx n msp) l b = Some h ->
  (b = Some h \/ (In h l /\ qualifies idx n msp h = true))
  /\ (forall g, In g l -> qualifies idx n msp g = true ->
        (info_page (h_span h) <= info_page (h_span g))%Z)
  /\ (forall g, b = Some g -> (info_page (h_span h) <= info_page (h_span g))%Z).
Proof.
  intros idx n msp l. induction l as [|x l IH]; intros b h H; cbn [fold_left] in H.
  - subst b. split; [left; reflexivity|].
    split; [intros g [] | intros g E; injection E as ->; lia].
  - destruct (IH _ _ H) as (Hsrc & Hmin & Hb). unfold best_step in Hsrc, Hb.
    destruct (qualifies idx n msp x) eqn:Eq.
    + destruct b as [g0|].
      * destruct (Z.ltb_spec (info_page (h_span x)) (info_page (h_span g0))).
        -- split; [|split].
           ++ right. destruct Hsrc as [E | [Hin Hq]];
                [injection E as <-; split; [left; reflexivity | exact Eq]
                | split; [right; exact Hin | exact Hq]].
           ++ intros g [<- | Hg] Hq; [apply (Hb x eq_refl) | apply Hmin; assumption].
           ++ intros g E. injection E as ->. specialize (Hb x eq_refl). lia.
        -- split; [|split].
           ++ destruct Hsrc as [E | [Hin Hq]];
                [left; exact E | right; split; [right; exact Hin | exact Hq]].
           ++ intros g [<- | Hg] Hq;
                [specialize (Hb g0 eq_refl); lia | apply Hmin; assumption].
           ++ exact Hb.
      * split; [|split].
        -- right. destruct Hsrc as [E | [Hin Hq]];
             [injection E as <-; split; [left; reflexivity | exact Eq]
             | split; [right; exact Hin | exact Hq]].
        -- intros g [<- | Hg] Hq; [apply (Hb x eq_refl) | apply Hmin; assumption].
        -- intros g E. discriminate.
    + split; [|split].
      * destruct Hsrc as [E | [Hin Hq]];
          [left; exact E | right; split; [right; exact Hin | exact Hq]].
      * intros g [<- | Hg] Hq; [congruence | apply Hmin; assumption].
      * exact Hb.
Qed.

Lemma best_fold_none {ucd : Unicode} : forall idx n msp l b,
  fold_left (best_step idx n msp) l b = None <->
  b = None /\ forall g, In g l -> qualifies idx n msp g = false.
Proof.
  intros idx n msp l. induction l as [|x l IH]; intro b; cbn [fold_left].
  - split; [intro H; split; [exact H | intros g []] | intros [H _]; exact H].
  - rewrite IH. unfold best_step.
    destruct (qualifies idx n msp x) eqn:Eq.
    + split.
      * intros [H _]. destruct b as [g0|]; [|discriminate].
        destruct (_ <? _)%Z; discriminate.
      * intros [_ H]. specialize (H x (or_introl eq_refl)). congruence.
    + split.
      * intros [Hb H]. split; [exact Hb|]. intros g [<- | Hg]; [exact Eq | auto].
      * intros [Hb H]. split; [exact Hb|]. intros g Hg. apply H. right. exact Hg.
Qed.

Lemma toc_end_page_ge {ucd : Unicode} : forall hs, (3 <= toc_end_page hs)%Z.
Proof.
  intro hs. unfold toc_end_page.
  assert (H : forall l a, (3 <= a)%Z ->
            (3 <= fold_left
                    (fun toc h =>
                       if startswith (norm (h_text h)) (norm (lit "Table of Contents"))
                       then Z.max toc (info_page (h_span h)) else toc) l a)%Z).
  { induction l as [|x l IH]; intros a Ha; cbn [fold_left]; [exact Ha|].
    apply IH. destruct (startswith _ _); lia. }
  apply H. lia.
Qed.

Lemma reconcile_from_matched {ucd : Unicode} :
  forall hs msp l k last_page ne i t lv b,
  nth_error l i = Some (t, lv) ->
  best_match (k + i) (norm t) msp hs = Some b ->
  nth i (pages_of (reconcile_from hs msp k last_page ne l)) 0%Z
  = info_page (h_span b).
Proof.
  intros hs msp l. induction l as [|[t0 lv0] l IH];
    intros k last_page ne i t lv b Hn Hb.
  - destruct i; discriminate.
  - destruct i as [|j].
    + injection Hn as -> ->. rewrite Nat.add_0_r in Hb.
      cbn [reconcile_from pages_of map nth h_span info_page]. rewrite Hb.
      reflexivity.
    + cbn [nth_error] in Hn. cbn [reconcile_from].
      unfold pages_of. cbn [map nth].
      change (map (fun h => info_page (h_span h))) with pages_of.
      apply (IH (S k) _ true j t lv b Hn).
      rewrite Nat.add_succ_l, <- Nat.add_succ_r. exact Hb.
Qed.

(** X15.  Whatever the character database, an expected entry is without
    candidate exactly when no candidate qualifies for it.  Otherwise its page is the page of a qualifying
    candidate and no qualifying candidate has a smaller page; for the first
    three entries that page is at most 5, for the later ones it is at least
    the page after the table of contents, which is never below 4. *)
Theorem X15_matched_page {ucd : Unicode} :
  forall (hs : list Heading) (dt : DocType) (expected : list (str * Level))
         (i : nat) (t : str) (lv : Level),
  (dt = technical /\ expected = expected_of technical_expected)
  \/ (dt = rfp /\ expected = expected_of rfp_expected) ->
  nth_error expected i = Some (t, lv) ->
  (unmatched hs expected i = true
   <-> forall g, In g hs -> qualifies i (norm t) (toc_end_page hs + 1)%Z g = false)
  /\ (unmatched hs expected i = false ->
      exists h,
        In h hs
        /\ qualifies i (norm t) (toc_end_page hs + 1)%Z h = true
        /\ nth i (pages_of (filter_headings hs dt)) 0%Z = info_page (h_span h)
        /\ (forall g, In g hs ->
              qualifies i (norm t) (toc_end_page hs + 1)%Z g = true ->
              (info_page (h_span h) <= info_page (h_span g))%Z)
        /\ ((i <= 2)%nat -> (info_page (h_span h) <= 5)%Z)
        /\ ((2 < i)%nat -> (4 <= info_page (h_span h))%Z)).
Proof.
  intros hs dt expected i t lv Hdt Hn.
  assert (E : filter_headings hs dt = reconcile hs expected)
    by (destruct Hdt as [[-> ->] | [-> ->]]; reflexivity).
  unfold unmatched. rewrite Hn.
  destruct (best_match i (norm t) (toc_end_page hs + 1) hs) as [b|] eqn:Hb.
  - split.
    + split; [discriminate|]. intro Hall. exfalso.
      unfold best_match in Hb.
      destruct (best_fold_spec _ _ _ _ _ _ Hb) as ([Hx | [Hin Hq]] & _);
        [discriminate|].
      rewrite (Hall b Hin) in Hq. discriminate.
    + intros _. unfold best_match in Hb.
      destruct (best_fold_spec _ _ _ _ _ _ Hb) as ([Hx | [Hin Hq]] & Hmin & _);
        [discriminate|].
      exists b. split; [exact Hin|]. split; [exact Hq|]. split.
      * rewrite E, reconcile_eq.
        apply (reconcile_from_matched hs _ expected 0 0%Z false i t lv b Hn).
        exact Hb.
      * split; [exact Hmin|].
        pose proof (toc_end_page_ge hs) as Htoc.
        unfold qualifies in Hq. cbv zeta in Hq.
        destruct (i <=? 2)%nat eqn:Ei.
        -- apply Nat.leb_le in Ei. apply andb_prop in Hq. destruct Hq as [_ Hq].
           apply Z.leb_le in Hq. split; [intros _; exact Hq | lia].
        -- apply Nat.leb_gt in Ei. apply andb_prop in Hq. destruct Hq as [_ Hq].
           apply Z.leb_le in Hq. split; [lia | intros _; lia].
  - split; [|discriminate].
    split; [|reflexivity]. intros _.
    unfold best_match in Hb. apply best_fold_none in Hb. apply Hb.
Qed.

Lemma X15_witness :
  (exists h,
    In h (sort_by_score
            (candidates en technical
                        (analyze_document_structure (extract_spans references_doc))
                        (extract_spans references_doc)))
    /\ nth 14 (pages_of
                 (filter_headings
                    (sort_by_score
                       (candidates en technical
                          (analyze_document_structure (extract_spans references_doc))
                          (extract_spans references_doc)))
                    technical)) 0%Z
       = info_page (h_span h)
    /\ (4 <= info_page (h_span h))%Z)
  /\ (exists h,
        In h (english_candidates rfp ligature_doc)
        /\ h_text h = lit "Approach and Speciﬁc Proposal Requirements"
        /\ nth 22 (pages_of (filter_headings (english_candidates rfp ligature_doc) rfp))
               0%Z
           = info_page (h_span h)
        /\ info_page (h_span h) = 7%Z).
Proof.
  split.
  - destruct (X15_matched_page
              (sort_by_score
                 (candidates en technical
                             (analyze_document_structure (extract_spans references_doc))
                             (extract_spans references_doc)))
              technical (expected_of technical_expected) 14
              (lit "4. References ") H1) as (_ & Hm).
    + left. split; reflexivity.
    + vm_compute. reflexivity.
    + destruct Hm as (h & Hin & _ & Hp & _ & _ & Hlate); [vm_compute; reflexivity|].
      exists h. split; [exact Hin|]. split; [exact Hp|]. apply Hlate. lia.
  - destruct (X15_matched_page (english_candidates rfp ligature_doc) rfp
                (expected_of rfp_expected) 22
                (lit "Approach and Specific Proposal Requirements ") H2) as (_ & Hm).
    + right. split; reflexivity.
    + vm_compute. reflexivity.
    + destruct Hm as (h & Hin & Hq & Hp & _); [vm_compute; reflexivity|].
      exists h. split; [exact Hin|].
      assert (Hh : h_text h = lit "Approach and Speciﬁc Proposal Requirements"
                   /\ info_page (h_span h) = 7%Z).
      { vm_compute in Hin. destruct Hin as [<- | [<- | []]].
        - vm_compute in Hq. discriminate.
        - split; vm_compute; reflexivity. }
      destruct Hh as [Ht Hpg]. split; [exact Ht|]. split; [exact Hp | exact Hpg].
Defined.

(** ** Where the entries of an outline come from *)

Lemma flat_map_length_le : forall (A B : Type) (f : A -> list B) (l : list A),
  (forall a, (length (f a) <= 1)%nat) ->
  (length (flat_map f l) <= length l)%nat.
Proof.
  intros A B f l H. induction l as [|a l IH]; simpl; [lia|].
  rewrite length_app. specialize (H a). lia.
Qed.

Lemma candidates_length {ucd : Unicode} : forall lang dt st spans,
  (length (candidates lang dt st spans) <= length spans)%nat.
Proof.
  intros lang dt st spans. unfold candidates. apply flat_map_length_le.
  intro s. destruct (Py.eqb lang en).
  - destruct (is_likely_heading _ _ _ _); simpl; lia.
  - destruct (Py.eqb lang es); [|simpl; lia].
    destruct (Re.match_i _ _); simpl; lia.
Qed.

(** The outline of a document that is not an event, before the form rule. *)
Lemma outline_cases {ucd : Unicode} : forall detect spans,
  doc_type_of (language detect spans) (extract_document_title spans) spans <> event ->
  outline (main_document detect spans) = []
  \/ outline (main_document detect spans)
     = map (emit (analyze_document_structure spans))
           (filter_headings
              (sort_by_score
                 (candidates (language detect spans)
                    (doc_type_of (language detect spans)
                                 (extract_document_title spans) spans)
                    (analyze_document_structure spans) spans))
              (doc_type_of (language detect spans)
                           (extract_document_title spans) spans)).
Proof.
  intros detect spans Hev. destruct spans as [|s0 spans']; [left; reflexivity|].
  unfold main_document. cbv zeta.
  destruct (doc_type_of _ _ _) eqn:Ed; try contradiction;
    rewrite ?andb_false_r; cbn [outline];
    try (right; reflexivity).
  destruct (Py.eqb _ en && true); [left | right]; reflexivity.
Qed.

Lemma outline_from_spans {ucd : Unicode} :
  forall (detect : str -> option str) (spans : list Span),
  doc_type_of (language detect spans) (extract_document_title spans) spans
    <> technical ->
  doc_type_of (language detect spans) (extract_document_title spans) spans <> rfp ->
  doc_type_of (language detect spans) (extract_document_title spans) spans
    <> event ->
  (forall e, In e (outline (main_document detect spans)) ->
     exists s, In s spans
       /\ e_text e = strip (text s) ++ [32%N]
       /\ e_page e = page s
       /\ e_level e = classify_heading_level (strip (text s)) (OfSpan s)
                                             (analyze_document_structure spans))
  /\ (length (outline (main_document detect spans)) <= length spans)%nat.
Proof.
  intros detect spans Ht Hr Hev.
  destruct (outline_cases detect spans Hev) as [E | E]; rewrite E.
  - split; [intros e [] | simpl; lia].
  - pose proof (filter_headings_Subseq
                  (sort_by_score
                     (candidates (language detect spans)
                        (doc_type_of (language detect spans)
                                     (extract_document_title spans) spans)
                        (analyze_document_structure spans) spans))
                  _ Ht Hr) as Hsub.
    split.
    + intros e He. apply in_map_iff in He. destruct He as (h & <- & Hh).
      apply (Subseq_In _ _ _ _ Hsub) in Hh.
      apply (proj1 (sort_by_score_In _ _)) in Hh.
      apply candidates_text in Hh. destruct Hh as (s & Hs & Htx & Hsp).
      exists s. split; [exact Hs|]. unfold emit. cbn [e_text e_page e_level].
      rewrite Htx, Hsp.
      destruct (append_space_shape _ (strip_shape (text s))) as [Hend _].
      rewrite Hend. repeat split.
    + rewrite length_map.
      eapply Nat.le_trans; [apply Subseq_length; exact Hsub|].
      rewrite (Permutation_length (sort_by_score_perm _)).
      apply candidates_length.
Qed.

(** X16.  In a document whose archetype is neither [technical], [rfp] nor
    [event], every outline entry is a line of the document: its text is the
    stripped text of a span followed by one space, its page is the page of
    that span and its level is the classifier's answer for that span.  The
    outline has at most as many entries as the document has spans. *)
Theorem X16_outline_from_spans {ucd : Unicode} :
  forall (detect : str -> option str) (spans : list Span),
  doc_type_of (language detect spans) (extract_document_title spans) spans
    <> technical ->
  doc_type_of (language detect spans) (extract_document_title spans) spans <> rfp ->
  doc_type_of (language detect spans) (extract_document_title spans) spans
    <> event ->
  (forall e, In e (outline (main_document detect spans)) ->
     exists s, In s spans
       /\ e_text e = strip (text s) ++ [32%N]
       /\ e_page e = page s
       /\ e_level e = classify_heading_level (strip (text s)) (OfSpan s)
                                             (analyze_document_structure spans))
  /\ (length (outline (main_document detect spans)) <= length spans)%nat.
Proof. exact outline_from_spans. Qed.

Lemma X16_witness :
  (length (outline (main_document detect_en (extract_spans repeated_doc))) <= 3)%nat.
Proof.
  apply (X16_outline_from_spans detect_en (extract_spans repeated_doc));
    vm_compute; discriminate.
Defined.





(** X18.  In an English document of archetype [technical] or [rfp] the
    outline has exactly the texts of the archetype's table, in the order of
    the table and as many; the level of each entry is what the classifier
    answers for the table text and a span that has a page but no size. *)
Theorem X18_literal_outline_texts {ucd : Unicode} :
  forall (detect : str -> option str) (spans : list Span)
         (table : list (string * Level)),
  language detect spans = en ->
  (doc_type_of (language detect spans) (extract_document_title spans) spans = technical
   /\ table = technical_expected)
  \/ (doc_type_of (language detect spans) (extract_document_title spans) spans = rfp
      /\ table = rfp_expected) ->
  map e_text (outline (main_document detect spans)) = map fst (expected_of table)
  /\ length (outline (main_document detect spans)) = length table
  /\ forall i e, nth_error (outline (main_document detect spans)) i = Some e ->
       e_level e = classify_heading_level (e_text e) (PageOnly (e_page e))
                                          (analyze_document_structure spans).
Proof. exact literal_outline. Qed.

Lemma X18_witness :
  length (outline (main_document detect_en (extract_spans references_doc)))
  = 17%nat.
Proof.
  apply (X18_literal_outline_texts detect_en (extract_spans references_doc)
                                   technical_expected).
  - vm_compute. reflexivity.
  - left. split; vm_compute; reflexivity.
Defined.

(** ** [simplify.py] after [main.py] *)

Import Simplify.

Lemma get_title_outline : forall a b : json,
  get [ (lit "title", a); (lit "outline", b) ] (lit "title") (JStr []) = a
  /\ get [ (lit "title", a); (lit "outline", b) ] (lit "outline") (JArr []) = b.
Proof.
  intros a b. cbn [get].
  change (Py.eqb (lit "title") (lit "title")) with true.
  change (Py.eqb (lit "title") (lit "outline")) with false.
  change (Py.eqb (lit "outline") (lit "outline")) with true.
  split; reflexivity.
Qed.

Lemma get_missing : forall (d : list (str * json)) (key : str) (default : json),
  (forall v, ~ In (key, v) d) -> get d key default = default.
Proof.
  intros d key default. induction d as [|[k v] d IH]; intro H; [reflexivity|].
  cbn [get]. destruct (Py.eqb k key) eqn:E.
  - apply eqb_eq in E. subst k. exfalso. apply (H v). left. reflexivity.
  - apply IH. intros v' Hv'. apply (H v'). right. exact Hv'.
Qed.

(** X19.  [simplify_outline] answers an object with exactly the keys
    "title" and "outline", in that order, with "" and the empty list for a
    missing key; applied to its own result it changes nothing; and it leaves
    every record written by [main] as it is.  It has no answer on a value
    that is not an object. *)
Theorem X19_simplify_fixpoint : forall (data : json),
  (forall r, simplify_outline data = Some r ->
     (exists a b, r = JObj [ (lit "title", a); (lit "outline", b) ])
     /\ simplify_outline r = Some r)
  /\ (forall d, data = JObj d ->
        (forall v, ~ In (lit "title", v) d) -> (forall v, ~ In (lit "outline", v) d) ->
        simplify_outline data
        = Some (JObj [ (lit "title", JStr []); (lit "outline", JArr []) ]))
  /\ (forall o : Output, simplify_outline (output_json o) = Some (output_json o))
  /\ ((forall d, data <> JObj d) -> simplify_outline data = None).
Proof.
  intro data. split; [|split; [|split]].
  - intros r Hr. destruct data; try discriminate. cbn [simplify_outline] in Hr.
    injection Hr as <-. split; [eexists; eexists; reflexivity|].
    cbn [simplify_outline].
    destruct (get_title_outline (get items (lit "title") (JStr []))
                                (get items (lit "outline") (JArr []))) as [-> ->].
    reflexivity.
  - intros d -> Ht Ho. cbn [simplify_outline].
    rewrite (get_missing _ _ _ Ht), (get_missing _ _ _ Ho). reflexivity.
  - intro o. unfold output_json. cbn [simplify_outline].
    destruct (get_title_outline (JStr (title o))
                                (JArr (map entry_json (outline o)))) as [-> ->].
    reflexivity.
  - intro H. destruct data; try reflexivity. exfalso. apply (H items). reflexivity.
Qed.

Lemma X19_witness :
  simplify_outline (JObj [ (lit "outline", JArr []); (lit "extra", JNull) ])
  = Some (JObj [ (lit "title", JStr []); (lit "outline", JArr []) ])
  /\ simplify_outline (JArr []) = None.
Proof.
  destruct (X19_simplify_fixpoint
              (JObj [ (lit "outline", JArr []); (lit "extra", JNull) ]))
    as (Hfix & _).
  destruct (X19_simplify_fixpoint (JArr [])) as (_ & _ & _ & Hnone).
  split.
  - destruct (Hfix (JObj [ (lit "title", JStr []); (lit "outline", JArr []) ]))
      as [_ H]; [vm_compute; reflexivity|].
    vm_compute. reflexivity.
  - apply Hnone. intros d. discriminate.
Defined.

(** ** The event archetype and the language fallback *)

Lemma fold_max_ge : forall l a x,
  x = a \/ In x l -> (x <= fold_left Z.max l a)%Z.
Proof.
  induction l as [|b l IH]; intros a x H; cbn [fold_left].
  - destruct H as [-> | []]. lia.
  - destruct H as [-> | [-> | H]].
    + eapply Z.le_trans; [|apply (IH (Z.max a b) (Z.max a b)); left; reflexivity]. lia.
    + eapply Z.le_trans; [|apply (IH (Z.max a x) (Z.max a x)); left; reflexivity]. lia.
    + apply IH. right. exact H.
Qed.

Lemma fold_max_le : forall l a m,
  (a <= m)%Z -> (forall x, In x l -> (x <= m)%Z) -> (fold_left Z.max l a <= m)%Z.
Proof.
  induction l as [|b l IH]; intros a m Ha H; cbn [fold_left]; [exact Ha|].
  apply IH; [|intros x Hx; apply H; right; exact Hx].
  specialize (H b (or_introl eq_refl)). lia.
Qed.

Lemma num_pages_le_2 : forall spans,
  spans <> [] ->
  ((num_pages spans <= 2)%Z <-> forall s, In s spans -> (page s <= 1)%Z).
Proof.
  intros [|s0 r] Hne; [contradiction|]. unfold num_pages. split.
  - intros H s Hs.
    assert (page s <= fold_left Z.max (map page r) (page s0))%Z; [|lia].
    apply fold_max_ge. destruct Hs as [-> | Hs]; [left; reflexivity|].
    right. apply in_map. exact Hs.
  - intro H.
    assert (fold_left Z.max (map page r) (page s0) <= 1)%Z; [|lia].
    apply fold_max_le; [apply H; left; reflexivity|].
    intros x Hx. apply in_map_iff in Hx. destruct Hx as (s & <- & Hs).
    apply H. right. exact Hs.
Qed.

(** X20.  A document is an event exactly when its language is "en", the
    resolver gave the empty title, no span lies beyond page 1 and some line
    of the first two pages contains, in lower case, one of the event
    phrases. *)
Theorem X20_event_conditions :
  forall (detect : str -> option str) (spans : list Span),
  doc_type_of (language detect spans) (extract_document_title spans) spans = event
  <-> language detect spans = en
      /\ extract_document_title spans = []
      /\ (forall s, In s spans -> (page s <= 1)%Z)
      /\ exists s p, In s spans /\ on_first_two_pages s = true
                     /\ In p event_phrases /\ contains p (lower (text s)) = true.
Proof.
  intros detect spans.
  assert (Hphr : existsb (fun l => existsb (fun p => contains p l) event_phrases)
                         (map (fun s => lower (text s))
                              (filter on_first_two_pages spans)) = true
                 <-> exists s p, In s spans /\ on_first_two_pages s = true
                                 /\ In p event_phrases
                                 /\ contains p (lower (text s)) = true).
  { rewrite existsb_exists. split.
    - intros (l & Hl & H). apply in_map_iff in Hl. destruct Hl as (s & <- & Hs).
      apply filter_In in Hs. destruct Hs as [Hs Hp].
      apply existsb_exists in H. destruct H as (p & Hpin & Hc).
      exists s, p. repeat split; assumption.
    - intros (s & p & Hs & Hp & Hpin & Hc). exists (lower (text s)). split.
      + apply (in_map (fun z => lower (text z))). apply filter_In.
        split; assumption.
      + apply existsb_exists. exists p. split; assumption. }
  unfold doc_type_of. cbv zeta. split.
  - intro H. destruct (Py.eqb (language detect spans) en) eqn:El; [|discriminate].
    apply eqb_eq in El.
    destruct (is_event _ spans) eqn:Ev.
    + unfold is_event in Ev. apply andb_prop in Ev. destruct Ev as [Ev Hex].
      apply andb_prop in Ev. destruct Ev as [Ht Hn].
      apply eqb_eq in Ht. apply title_blank_empty in Ht.
      apply Z.leb_le in Hn. apply Hphr in Hex.
      assert (Hne : spans <> [])
        by (destruct Hex as (s & _ & Hs & _); intros ->; destruct Hs).
      split; [exact El|]. split; [exact Ht|].
      split; [apply num_pages_le_2; assumption | exact Hex].
    + repeat match type of H with
             | (if ?b then _ else _) = _ => destruct b; try discriminate
             end.
  - intros (El & Ht & Hpages & Hex). rewrite El, eqb_refl, Ht.
    assert (Hne : spans <> [])
      by (destruct Hex as (s & _ & Hs & _); intros ->; destruct Hs).
    unfold is_event. change (Py.eqb (strip (lower [])) []) with true.
    rewrite (proj2 Hphr Hex).
    rewrite (proj2 (Z.leb_le _ _) (proj2 (num_pages_le_2 spans Hne) Hpages)).
    reflexivity.
Qed.

Lemma X20_witness :
  language detect_en (extract_spans event_doc) = en
  /\ extract_document_title (extract_spans event_doc) = [].
Proof.
  destruct (proj1 (X20_event_conditions detect_en (extract_spans event_doc)))
    as (Hl & Ht & _).
  - vm_compute. reflexivity.
  - split; assumption.
Defined.

Lemma main_document_language {ucd : Unicode} : forall d1 d2 spans,
  language d1 spans = language d2 spans ->
  main_document d1 spans = main_document d2 spans.
Proof.
  intros d1 d2 spans H. unfold main_document. rewrite H. reflexivity.
Qed.

(** X21.  A failure of the language detector does not reach the result:
    when the detector raises on the sample of the first two pages, or when
    that sample is blank and the detector is not called, the document is
    processed exactly as an English one. *)
Theorem X21_detection_failure_is_english {ucd : Unicode} :
  forall (detect : str -> option str) (spans : list Span),
  detect (join [32%N] (map text (filter on_first_two_pages spans))) = None
  \/ strip (join [32%N] (map text (filter on_first_two_pages spans))) = [] ->
  language detect spans = en
  /\ main_document detect spans = main_document (fun _ => Some en) spans.
Proof.
  intros detect spans H.
  assert (Hl : language detect spans = en).
  { unfold language. cbv zeta. destruct H as [H | H]; rewrite H.
    - destruct (negb _); reflexivity.
    - reflexivity. }
  split; [exact Hl|].
  apply main_document_language. rewrite Hl. unfold language. cbv zeta.
  destruct (negb _); reflexivity.
Qed.

Lemma X21_witness :
  main_document (fun _ => None) (extract_spans technical_doc)
  = main_document (fun _ => Some en) (extract_spans technical_doc).
Proof.
  apply (X21_detection_failure_is_english (fun _ => None)
                                          (extract_spans technical_doc)).
  left. reflexivity.
Defined.

(** ** The fuzzy title test *)

Section LongestMatch.

Variables a b : str.
Variables alo ahi blo bhi : nat.

Lemma row_inv : forall js i j2len newj2len bst,
  (alo <= i < ahi)%nat ->
  (forall j, In j js -> (blo <= j < bhi)%nat) ->
  row_bound alo blo i j2len ->
  row_bound alo blo (S i) newj2len ->
  in_window alo ahi blo bhi bst ->
  row_bound alo blo (S i) (fst (Difflib.row a b i js j2len newj2len bst))
  /\ in_window alo ahi blo bhi (snd (Difflib.row a b i js j2len newj2len bst)).
Proof.
  induction js as [|j js IH]; intros i j2len newj2len bst Hi Hjs Hold Hnew Hb.
  - split; assumption.
  - cbn [Difflib.row].
    assert (Hj : (blo <= j < bhi)%nat) by (apply Hjs; left; reflexivity).
    assert (Hjs' : forall j', In j' js -> (blo <= j' < bhi)%nat)
      by (intros j' H; apply Hjs; right; exact H).
    destruct (Difflib.eq_at a b i j); [|apply IH; assumption].
    set (k := S (match j with O => O | S j' => Difflib.get j' j2len end)).
    assert (Hk : (k <= S i - alo /\ k <= j + 1 - blo)%nat).
    { unfold k. destruct j as [|j'].
      - lia.
      - destruct (Hold j') as [H1 H2]. lia. }
    destruct bst as [[bi bj] bk].
    apply IH; try assumption.
    + intro j0. cbn [Difflib.get].
      destruct (Nat.eqb_spec j0 j) as [-> | _]; [exact Hk | apply Hnew].
    + destruct (bk <? k)%nat; [|exact Hb].
      unfold in_window. right. unfold k in *. lia.
Qed.

Lemma rows_inv : forall n i0 js j2len bst,
  (alo <= i0)%nat -> (i0 + n <= ahi)%nat ->
  (forall j, In j js -> (blo <= j < bhi)%nat) ->
  row_bound alo blo i0 j2len ->
  in_window alo ahi blo bhi bst ->
  in_window alo ahi blo bhi (Difflib.rows a b (seq i0 n) js j2len bst).
Proof.
  induction n as [|n IH]; intros i0 js j2len bst H0 Hn Hjs Hold Hb; [exact Hb|].
  cbn [seq Difflib.rows].
  destruct (row_inv js i0 j2len [] bst) as [Hr Hw]; try assumption; try lia.
  { intro j. cbn [Difflib.get]. lia. }
  destruct (Difflib.row a b i0 js j2len [] bst) as [new bst'].
  cbn [fst snd] in Hr, Hw.
  apply IH; try assumption; lia.
Qed.

Lemma find_longest_match_window :
  in_window alo ahi blo bhi (Difflib.find_longest_match a b alo ahi blo bhi).
Proof.
  unfold Difflib.find_longest_match.
  destruct (Nat.le_gt_cases alo ahi) as [H | H].
  - apply rows_inv; try lia.
    + intros j Hj. apply in_seq in Hj. lia.
    + intro j. cbn [Difflib.get]. lia.
    + left. reflexivity.
  - replace (ahi - alo)%nat with O by lia. left. reflexivity.
Qed.

End LongestMatch.

Lemma matches_le : forall a b fuel alo ahi blo bhi,
  (Difflib.matches a b fuel alo ahi blo bhi <= ahi - alo
   /\ Difflib.matches a b fuel alo ahi blo bhi <= bhi - blo)%nat.
Proof.
  intros a b fuel. induction fuel as [|f IH]; intros alo ahi blo bhi;
    cbn [Difflib.matches]; [lia|].
  pose proof (find_longest_match_window a b alo ahi blo bhi) as Hw.
  destruct (Difflib.find_longest_match a b alo ahi blo bhi) as [[i j] k].
  unfold in_window in Hw.
  destruct k as [|k']; [lia|].
  destruct Hw as [Hw | Hw]; [discriminate|].
  destruct (IH alo i blo j) as [L1 L2].
  destruct (IH (i + S k')%nat ahi (j + S k')%nat bhi) as [R1 R2].
  destruct ((alo <? i)%nat && (blo <? j)%nat);
    destruct ((i + S k' <? ahi)%nat && (j + S k' <? bhi)%nat); lia.
Qed.

Lemma ratio_gt_08 : forall a b,
  Qlt_bool (8 # 10) (Difflib.ratio a b) = true ->
  (length a + length b <> 0)%nat ->
  (4 * (Z.of_nat (length a) + Z.of_nat (length b))
   < 10 * Z.of_nat (Difflib.matches a b (S (length a)) 0 (length a) 0 (length b)))%Z.
Proof.
  intros a b H Hne. apply Qlt_bool_true in H. unfold Difflib.ratio in H.
  destruct (length a + length b)%nat as [|t] eqn:Et; [contradiction|].
  set (M := Difflib.matches a b (S (length a)) 0 (length a) 0 (length b)) in *.
  assert (Ht : (Z.of_nat (length a) + Z.of_nat (length b)
                = Z.pos (Pos.of_succ_nat t))%Z) by lia.
  rewrite Ht.
  unfold Qlt, Qdiv, Qmult, Qinv, inject_Z in H. cbn [Qnum Qden] in H.
  replace (Z.of_nat (S t)) with (Z.pos (Pos.of_succ_nat t)) in H by lia.
  cbn [Qnum Qden] in H. lia.
Qed.

(** X22.  The fuzzy title test can only succeed on a line whose lower-cased
    form has 28 to 61 characters: the matching characters are never more
    than either string has, and the reference title has 41. *)
Theorem X22_fuzzy_length_window : forall (l : str),
  fuzzy_form l = true -> (28 <= length (lower l) <= 61)%nat.
Proof.
  intros l H. unfold fuzzy_form in H.
  set (ref := lit "application form for grant of ltc advance") in *.
  assert (Href : length ref = 41%nat) by (vm_compute; reflexivity).
  apply ratio_gt_08 in H; [|rewrite Href; lia].
  destruct (matches_le (lower l) ref (S (length (lower l))) 0 (length (lower l))
                       0 (length ref)) as [H1 H2].
  rewrite Href in *. lia.
Qed.

Lemma X22_witness :
  (28 <= length (lower (lit "Application form for grant of LTC advances")) <= 61)%nat.
Proof.
  apply X22_fuzzy_length_window. vm_compute. reflexivity.
Defined.

(** ** Pages of the outline *)

Lemma extract_spans_page : forall doc s,
  In s (extract_spans doc) -> (0 <= page s < Z.of_nat (length doc))%Z.
Proof.
  intros doc s H. unfold extract_spans in H.
  apply in_flat_map in H. destruct H as ([p blocks] & Hp & H).
  cbn [fst snd] in H.
  apply in_flat_map in H. destruct H as (b & _ & H).
  apply spans_of_block_inv in H. destruct H as (_ & _ & Hpg & _).
  apply in_enumerate in Hp. rewrite Nat.sub_0_r in Hp. destruct Hp as [_ Hn].
  assert (p < length doc)%nat by (apply nth_error_Some; congruence).
  rewrite Hpg. lia.
Qed.

(** X23.  For a document read by [extract_spans] whose archetype is neither
    [technical] nor [rfp], every page number in the outline is the index of a
    page of the document.  (The two table archetypes can number entries
    beyond the last page: the one-page [technical_doc] gets pages up to
    16.) *)
Theorem X23_outline_pages_in_document {ucd : Unicode} :
  forall (detect : str -> option str) (doc : list (list Block)),
  doc_type_of (language detect (extract_spans doc))
              (extract_document_title (extract_spans doc)) (extract_spans doc)
    <> technical ->
  doc_type_of (language detect (extract_spans doc))
              (extract_document_title (extract_spans doc)) (extract_spans doc)
    <> rfp ->
  forall e, In e (outline (main_document detect (extract_spans doc))) ->
            (0 <= e_page e < Z.of_nat (length doc))%Z.
Proof.
  intros detect doc Ht Hr e He.
  destruct (doc_type_of (language detect (extract_spans doc))
              (extract_document_title (extract_spans doc)) (extract_spans doc))
    eqn:Ed.
  - unfold main_document in He. destruct (extract_spans doc) as [|s0 r] eqn:Es;
      [destruct He|].
    cbv zeta in He. rewrite Ed in He.
    assert (Hl : Py.eqb (language detect (s0 :: r)) en = true).
    { unfold doc_type_of in Ed. destruct (Py.eqb (language detect (s0 :: r)) en);
        [reflexivity | discriminate]. }
    rewrite Hl in He. destruct He as [<- | []]. cbn [e_page event_output].
    assert (Hin : In s0 (extract_spans doc)) by (rewrite Es; left; reflexivity).
    pose proof (extract_spans_page doc s0 Hin). lia.
  - destruct (outline_from_spans detect (extract_spans doc)) as [H _];
      try (rewrite Ed; discriminate).
    destruct (H e He) as (s & Hs & _ & -> & _). apply extract_spans_page. exact Hs.
  - contradiction Ht. reflexivity.
  - contradiction Hr. reflexivity.
  - destruct (outline_from_spans detect (extract_spans doc)) as [H _];
      try (rewrite Ed; discriminate).
    destruct (H e He) as (s & Hs & _ & -> & _). apply extract_spans_page. exact Hs.
  - destruct (outline_from_spans detect (extract_spans doc)) as [H _];
      try (rewrite Ed; discriminate).
    destruct (H e He) as (s & Hs & _ & -> & _). apply extract_spans_page. exact Hs.
Qed.

Lemma X23_witness :
  (0 <= 0 < Z.of_nat (length repeated_doc))%Z
  /\ map e_page (outline (main_document detect_en (extract_spans technical_doc)))
     = [0; 1; 2; 3; 4; 5; 6; 7; 8; 9; 10; 11; 12; 13; 14; 15; 16]%Z.
Proof.
  split.
  - apply (X23_outline_pages_in_document detect_en repeated_doc)
      with (e := {| e_level := H1; e_text := lit "Annual Report "; e_page := 0 |}).
    + vm_compute. discriminate.
    + vm_compute. discriminate.
    + vm_compute. left. reflexivity.
  - vm_compute. reflexivity.
Defined.

(** ** Statistics, and the level of a heading without pattern *)













